(** * cumplo-scraper: the filter evaluation engine and the normalization of
      funding requests, embedded from the Python sources.

    - [Py]        : Python outcomes (a value or a raised exception).
    - [Model]     : cumplo_spotter/models/cumplo/funding_request.py
    - [Filters]   : cumplo_spotter/models/filter.py
    - [Cumplo]    : integrations/cumplo.py
    - [Routers]   : cumplo_spotter/routers/funding_requests/public.py and
                    routers/funding_requests.py *)

From Stdlib Require Import ZArith QArith String Ascii List Bool Lia.
From Stdlib Require Import Floats.SpecFloat Sorting.Sorted.
From stdpp Require Import base option list gmap strings sets fin_maps.

Set Warnings "-register-all,-clear-no-such-hyp".
Local Open Scope Z_scope.

(* ===================================================================== *)
(** ** Python outcomes *)
(* ===================================================================== *)

Module Py.

(** The exceptions the embedded code can raise. *)
Inductive exn : Type :=
| AttributeError (name : string)
| KeyError (key : string)
| TypeError
| IndexError
| ZeroDivisionError
| OverflowError
| InvalidOperation.

Inductive result (A : Type) : Type :=
| Ok (a : A)
| Raise (e : exn).
Arguments Ok {A} a.
Arguments Raise {A} e.

Definition bind {A B : Type} (m : result A) (k : A -> result B) : result B :=
  match m with
  | Ok a => k a
  | Raise e => Raise e
  end.

Definition is_ok {A : Type} (m : result A) : Prop :=
  match m with Ok _ => True | Raise _ => False end.

Definition raises {A : Type} (m : result A) : Prop :=
  match m with Ok _ => False | Raise _ => True end.

End Py.

Import Py.

Declare Scope py_scope.
Delimit Scope py_scope with py.
Notation "x <- m ;; k" := (Py.bind m (fun x => k))
  (at level 20, m at level 99, k at level 200, only parsing) : py_scope.
Notation "' pat <- m ;; k" := (Py.bind m (fun x => match x with pat => k end))
  (at level 20, pat pattern, m at level 99, k at level 200, only parsing) : py_scope.
Local Open Scope py_scope.

(** Python's [needle in haystack] on [str]. *)
Fixpoint str_contains (needle haystack : string) : bool :=
  String.prefix needle haystack
  || match haystack with
     | EmptyString => false
     | String _ rest => str_contains needle rest
     end.

(** [any(marker in description for marker in markers)] *)
Definition any_marker_in (markers : list string) (description : string) : bool :=
  existsb (fun marker => str_contains marker description) markers.

(* ===================================================================== *)
(** ** cumplo_spotter/models/cumplo/funding_request.py *)
(* ===================================================================== *)

Module Model.

(** *** Credit types *)

Inductive CumploCreditType : Type :=
| IRRIGATION | BALLOON | INVOICE | BULLET | SIMPLE.

(** The members of the [StrEnum]; a member hashes and compares as its
    string, so the raw upstream string is a key of the table below. *)
Definition CumploCreditType_value (c : CumploCreditType) : string :=
  match c with
  | IRRIGATION => "irrigation"
  | BALLOON => "balloon"
  | INVOICE => "invoice"
  | BULLET => "bullet"
  | SIMPLE => "simple"
  end.

Inductive CreditType : Type :=
| STATE_SUBSIDY | WORKING_CAPITAL | BULLET_LOAN | FACTORING.

(** Modelled from the spec: the string values of cumplo_common's
    [CreditType] (the enum is imported, not defined, by the source); the
    spec names the canonical taxonomy state_subsidy, working_capital,
    bullet_loan, factoring. *)
Definition CreditType_value (c : CreditType) : string :=
  match c with
  | STATE_SUBSIDY => "state_subsidy"
  | WORKING_CAPITAL => "working_capital"
  | BULLET_LOAN => "bullet_loan"
  | FACTORING => "factoring"
  end.

Definition CREDIT_TYPE_TRANSLATIONS : gmap string CreditType :=
  list_to_map
    [ (CumploCreditType_value IRRIGATION, STATE_SUBSIDY);
      (CumploCreditType_value SIMPLE, WORKING_CAPITAL);
      (CumploCreditType_value BALLOON, BULLET_LOAN);
      (CumploCreditType_value BULLET, BULLET_LOAN);
      (CumploCreditType_value INVOICE, FACTORING) ].

(** The keys of the table. *)
Definition upstream_values : list string :=
  [ "irrigation"; "simple"; "balloon"; "bullet"; "invoice" ]%string.

(** [return CREDIT_TYPE_TRANSLATIONS[value]] *)
Definition credit_type_validator (value : string) : result CreditType :=
  match CREDIT_TYPE_TRANSLATIONS !! value with
  | Some credit_type => Ok credit_type
  | None => Raise (KeyError value)
  end.

(** *** Funded percentage *)

(** [decimal.Decimal]: sign, coefficient and exponent; the number is
    (-1)^sign * coefficient * 10^exponent. *)
Record Decimal : Type :=
  { sign : bool; coefficient : Z; exponent : Z }.

Definition Decimal_to_Q (d : Decimal) : Q :=
  let magnitude :=
    if 0 <=? exponent d
    then inject_Z (coefficient d * 10 ^ exponent d)
    else Qmake (coefficient d) (Z.to_pos (10 ^ (- exponent d))) in
  if sign d then Qopp magnitude else magnitude.

(** [a / b] on Python [int]s: the binary64 float nearest to the exact
    quotient (ties to even), [ZeroDivisionError] for [b = 0] and
    [OverflowError] when the quotient is too large for a float. *)
Definition int_true_div (a b : Z) : result spec_float :=
  if b =? 0 then Raise ZeroDivisionError
  else
    let negative := xorb (a <? 0) (b <? 0) in
    if a =? 0 then Ok (S754_zero negative)
    else
      let '(mz, ez, lz) := SFdiv_core_binary 53 1024 (Z.abs a) 0 (Z.abs b) 0 in
      match binary_round_aux 53 1024 negative mz ez lz with
      | S754_infinity _ => Raise OverflowError
      | f => Ok f
      end.

(** The integer nearest to [n / d], ties to the even one
    ([ROUND_HALF_EVEN]); [0 <= n], [0 < d]. *)
Definition div_half_even (n d : Z) : Z :=
  let q := n / d in
  let r := n mod d in
  match 2 * r ?= d with
  | Lt => q
  | Gt => q + 1
  | Eq => if Z.even q then q else q + 1
  end.

(** The precision of the default [decimal] context. *)
Definition context_prec : Z := 28.

(** [round(Decimal(f), places)]: [Decimal(f)] is the exact value of the
    float, [round] quantizes it to [places] decimals in the default
    context and raises [InvalidOperation] when the coefficient needs more
    than [context_prec] digits (or [f] is not finite). *)
Definition round_Decimal_of_float (f : spec_float) (places : Z) : result Decimal :=
  match f with
  | S754_zero s => Ok {| sign := s; coefficient := 0; exponent := - places |}
  | S754_finite s m e =>
      let n := Z.pos m * 10 ^ places * 2 ^ Z.max e 0 in
      let d := 2 ^ Z.max (- e) 0 in
      let c := div_half_even n d in
      if 10 ^ context_prec <=? c then Raise InvalidOperation
      else Ok {| sign := s; coefficient := c; exponent := - places |}
  | S754_infinity _ | S754_nan => Raise InvalidOperation
  end.

(** Auxiliary, for the lemmas on [binary_round_aux]: its second half (the
    renormalization after rounding), and the float that half produces from
    a rounded mantissa of at most 2^53. *)
Definition finish (sx : bool) (m e : Z) : spec_float :=
  let '(mrs, e') := shr_fexp 53 1024 m e loc_Exact in
  match shr_m mrs with
  | Z0 => S754_zero sx
  | Zpos p => if e' <=? 1024 - 53 then S754_finite sx p e' else S754_infinity sx
  | Zneg _ => S754_nan
  end.

Definition p52 : positive := 4503599627370496.

Definition pack (sx : bool) (m e : Z) : spec_float :=
  if m <? 2 ^ 53 then S754_finite sx (Z.to_pos m) e
  else S754_finite sx p52 (e + 1).

(** [return round(Decimal(int(value) / 100), 2)] *)
Definition funded_percentage_validator (value : Z) : result Decimal :=
  f <- int_true_div value 100 ;;
  round_Decimal_of_float f 2.

(** [self.funded_percentage == Decimal(1)] *)
Definition is_completed (funded_percentage : Decimal) : bool :=
  Qeq_bool (Decimal_to_Q funded_percentage) 1.

(** *** Raw upstream data *)

(** The payload handed to the [mode="before"] validator: parsed JSON. *)
Inductive raw : Type :=
| RNone
| RBool (b : bool)
| RInt (z : Z)
| RStr (s : string)
| RList (l : list raw)
| RDict (d : gmap string raw).

(** [d[k]] *)
Definition getitem (d : raw) (k : string) : result raw :=
  match d with
  | RDict m =>
      match m !! k with
      | Some v => Ok v
      | None => Raise (KeyError k)
      end
  | _ => Raise TypeError
  end.

(** [d[k] = v] *)
Definition setitem (d : raw) (k : string) (v : raw) : result raw :=
  match d with
  | RDict m => Ok (RDict (<[k := v]> m))
  | _ => Raise TypeError
  end.

(** A [bool | None] stored in the raw data. *)
Definition raw_of_flag (flag : option bool) : raw :=
  match flag with
  | Some b => RBool b
  | None => RNone
  end.

Fixpoint mapM_result {A B : Type} (f : A -> result B) (l : list A) : result (list B) :=
  match l with
  | [] => Ok []
  | x :: rest =>
      y <- f x ;;
      ys <- mapM_result f rest ;;
      Ok (y :: ys)
  end.

(** *** DICOM inference *)

(** [cumplo_spotter.utils.constants.DicomMarker] is not part of the
    sources at hand: the lexicon is a parameter of the inference. *)
Record DicomMarker : Type :=
  { BOTH_TRUE : string;
    BOTH_FALSE : string;
    DEBTOR_TRUE : string;
    BORROWER_TRUE : list string;
    BORROWER_FALSE : string;
    SINGLE_FALSE : list string;
    SINGLE_TRUE : list string }.

Section Dicom.
Variable markers : DicomMarker.
(** [cumplo_common.utils.text.clean_text], on strings. *)
Variable clean_text : string -> string.

(** The body of [_identify_dicom_status] after [description] is bound. *)
Definition dicom_of_description (description : string) : option bool * option bool :=
  if str_contains (BOTH_TRUE markers) description then (Some true, Some true)
  else if str_contains (BOTH_FALSE markers) description then (Some false, Some false)
  else
    let debtor_dicom :=
      if str_contains (DEBTOR_TRUE markers) description then Some true else None in
    let borrower_dicom :=
      if any_marker_in (BORROWER_TRUE markers) description then Some true else None in
    let borrower_dicom :=
      if str_contains (BORROWER_FALSE markers) description then Some false
      else borrower_dicom in
    let borrower_dicom :=
      if bool_decide (borrower_dicom = None)
         && any_marker_in (SINGLE_FALSE markers) description
      then Some false
      else if bool_decide (borrower_dicom = None)
              && any_marker_in (SINGLE_TRUE markers) description
      then Some true
      else borrower_dicom in
    (debtor_dicom, borrower_dicom).

Definition _identify_dicom_status (data : raw) : result (option bool * option bool) :=
  solicitante <- getitem data "solicitante" ;;
  descripcion <- getitem solicitante "descripcion" ;;
  match descripcion with
  | RStr text => Ok (dicom_of_description (clean_text text))
  | _ => Raise TypeError
  end.

(** [for debtor in pagadores: debtor["dicom"] = debtor_dicom]; iterating
    a list visits its items, iterating a dict or a string visits keys or
    characters (no item assignment on those), anything else is not
    iterable. *)
Definition set_debtors_dicom (pagadores : raw) (debtor_dicom : option bool) : result raw :=
  match pagadores with
  | RList debtors =>
      debtors' <- mapM_result
                    (fun debtor => setitem debtor "dicom" (raw_of_flag debtor_dicom))
                    debtors ;;
      Ok (RList debtors')
  | RDict d => if bool_decide (d = ∅) then Ok pagadores else Raise TypeError
  | RStr s => if bool_decide (s = ""%string) then Ok pagadores else Raise TypeError
  | _ => Raise TypeError
  end.

(** The dictionary is updated in place: the result is [data] as the
    caller sees it after the call. *)
Definition _set_dicom_status (data : raw) : result raw :=
  '(debtor_dicom, borrower_dicom) <- _identify_dicom_status data ;;
  solicitante <- getitem data "solicitante" ;;
  solicitante' <- setitem solicitante "dicom" (raw_of_flag borrower_dicom) ;;
  data' <- setitem data "solicitante" solicitante' ;;
  pagadores <- getitem data' "pagadores" ;;
  pagadores' <- set_debtors_dicom pagadores debtor_dicom ;;
  setitem data' "pagadores" pagadores'.

Definition _preprocess_data (data : raw) : result raw :=
  _set_dicom_status data.

(** The borrower flag outside the two "both" cases, written as one
    cascade; used to state what [dicom_of_description] computes. *)
Definition borrower_cascade (description : string) : option bool :=
  if str_contains (BORROWER_FALSE markers) description then Some false
  else if any_marker_in (BORROWER_TRUE markers) description then Some true
  else if any_marker_in (SINGLE_FALSE markers) description then Some false
  else if any_marker_in (SINGLE_TRUE markers) description then Some true
  else None.

(** Section 4.1 of the specification, read literally: step 3c is an
    "else if" of step 3b. Kept apart from the code's function to compare
    the two. *)
Definition dicom_by_the_letter (description : string) : option bool * option bool :=
  if str_contains (BOTH_TRUE markers) description then (Some true, Some true)
  else if str_contains (BOTH_FALSE markers) description then (Some false, Some false)
  else
    let debtor_dicom :=
      if str_contains (DEBTOR_TRUE markers) description then Some true else None in
    let borrower_dicom :=
      if any_marker_in (BORROWER_TRUE markers) description then Some true
      else if str_contains (BORROWER_FALSE markers) description then Some false
      else if any_marker_in (SINGLE_FALSE markers) description then Some false
      else if any_marker_in (SINGLE_TRUE markers) description then Some true
      else None in
    (debtor_dicom, borrower_dicom).

End Dicom.

End Model.

(* ===================================================================== *)
(** ** cumplo_spotter/models/filter.py *)
(* ===================================================================== *)

Module Filters.

Import Model.

(** Modelled from the spec: cumplo_common's [FundingRequest], [Borrower],
    [Debtor], their portfolio and [FilterConfiguration] are imported, not
    defined, by the sources. The records below carry the attributes the
    filters read, typed as section 3 of the specification types them:
    [Decimal] fields are rationals, [int] fields are integers, nullable
    fields are options; a request has one borrower and a list of debtors
    ([debtors]), as [CumploFundingRequest] exports it. *)

Inductive DurationUnit : Type := DAY | MONTH.

Module Duration.
Record t : Type := { value : Z; unit : DurationUnit }.
End Duration.

Module Portfolio.
Record t : Type :=
  { total_requests : Z;
    total_amount : Z;
    paid_in_time : option Q }.
End Portfolio.

Module Borrower.
Record t : Type :=
  { dicom : option bool;
    portfolio : Portfolio.t;
    average_days_delinquent : option Z }.
End Borrower.

Module Debtor.
Record t : Type :=
  { dicom : option bool;
    portfolio : Portfolio.t }.
End Debtor.

Record FundingRequest : Type :=
  { id : Z;
    score : Q;
    irr : Q;
    monthly_profit_rate : Q;
    maximum_investment : Z;
    credit_type : CreditType;
    duration : Duration.t;
    borrower : Borrower.t;
    debtors : list Debtor.t }.

Module BorrowerConfiguration.
Record t : Type :=
  { maximum_average_days_delinquent : option Z;
    minimum_paid_in_time_percentage : option Q;
    ignore_borrower_dicom : bool }.
End BorrowerConfiguration.

Module DebtorConfiguration.
Record t : Type :=
  { minimum_paid_in_time_percentage : option Q;
    ignore_debtor_dicom : bool }.
End DebtorConfiguration.

Module Configuration.
Record t : Type :=
  { target_credit_types : option (list CreditType);
    minimum_investment_amount : option Z;
    minimum_score : option Q;
    minimum_monthly_profit_rate : option Q;
    minimum_irr : option Q;
    minimum_duration : option Z;
    maximum_duration : option Z;
    minimum_requested_credits : option Z;
    minimum_requested_amount : option Z;
    borrower : option BorrowerConfiguration.t;
    debtor : option DebtorConfiguration.t }.
End Configuration.

#[global] Instance CreditType_eq_dec : EqDecision CreditType.
Proof. solve_decision. Defined.

(** *** Python truthiness and attribute access *)

(** [bool(x)] for an [int | None]. *)
Definition truthy_int (x : option Z) : bool :=
  match x with
  | Some z => negb (z =? 0)
  | None => false
  end.

(** [bool(x)] for a [Decimal | None]. *)
Definition truthy_decimal (x : option Q) : bool :=
  match x with
  | Some q => negb (Qeq_bool q 0)
  | None => false
  end.

(** [bool(x)] for a [bool | None]. *)
Definition truthy_flag (x : option bool) : bool :=
  match x with
  | Some b => b
  | None => false
  end.

(** [o.name] where [o] may be [None]. *)
Definition getattr {A B : Type} (o : option A) (name : string) (proj : A -> B) : result B :=
  match o with
  | Some a => Ok (proj a)
  | None => Raise (AttributeError name)
  end.

(** [funding_request.debtor]: the request has the attribute [debtors] and
    no attribute [debtor], so the lookup raises. *)
Definition FundingRequest_debtor (funding_request : FundingRequest) : result Debtor.t :=
  Raise (AttributeError "debtor").

(** [x >= y] and [x <= y] *)
Definition ge_int (x y : Z) : bool := y <=? x.
Definition le_int (x y : Z) : bool := x <=? y.
Definition ge_decimal (x y : Q) : bool := Qle_bool y x.

(** The duration in days both duration filters compute. *)
Definition duration_days (funding_request : FundingRequest) : Z :=
  match Duration.unit (duration funding_request) with
  | DAY => Duration.value (duration funding_request)
  | MONTH => Duration.value (duration funding_request) * 30
  end.

(** *** The filters: [apply], one definition per class *)

Section Apply.
Variable configuration : Configuration.t.
Variable funding_request : FundingRequest.

Definition CreditTypeFilter_apply : result bool :=
  match Configuration.target_credit_types configuration with
  | None => Ok true
  | Some targets => Ok (bool_decide (credit_type funding_request ∈ targets))
  end.

Definition MinimumInvestmentFilter_apply : result bool :=
  match Configuration.minimum_investment_amount configuration with
  | None => Ok true
  | Some minimum => Ok (ge_int (maximum_investment funding_request) minimum)
  end.

Definition MinimumScoreFilter_apply : result bool :=
  match Configuration.minimum_score configuration with
  | None => Ok true
  | Some minimum => Ok (ge_decimal (score funding_request) minimum)
  end.

Definition MinimumMonthlyProfitFilter_apply : result bool :=
  match Configuration.minimum_monthly_profit_rate configuration with
  | None => Ok true
  | Some minimum => Ok (ge_decimal (monthly_profit_rate funding_request) minimum)
  end.

Definition MinimumIRRFilter_apply : result bool :=
  match Configuration.minimum_irr configuration with
  | None => Ok true
  | Some minimum => Ok (ge_decimal (irr funding_request) minimum)
  end.

Definition MinimumDurationFilter_apply : result bool :=
  match Configuration.minimum_duration configuration with
  | None => Ok true
  | Some minimum => Ok (ge_int (duration_days funding_request) minimum)
  end.

Definition MaximumDurationFilter_apply : result bool :=
  match Configuration.maximum_duration configuration with
  | None => Ok true
  | Some maximum => Ok (le_int (duration_days funding_request) maximum)
  end.

Definition DebtorDicomFilter_apply : result bool :=
  ignore <- getattr (Configuration.debtor configuration) "ignore_debtor_dicom"
              DebtorConfiguration.ignore_debtor_dicom ;;
  if ignore then Ok true
  else Ok (negb (existsb (fun debtor => truthy_flag (Debtor.dicom debtor))
                   (debtors funding_request))).

Definition BorrowerDicomFilter_apply : result bool :=
  ignore <- getattr (Configuration.borrower configuration) "ignore_borrower_dicom"
              BorrowerConfiguration.ignore_borrower_dicom ;;
  if ignore then Ok true
  else Ok (negb (truthy_flag (Borrower.dicom (borrower funding_request)))).

Definition MinimumCreditsRequestedFilter_apply : result bool :=
  if negb (truthy_int (Configuration.minimum_requested_credits configuration))
  then Ok true
  else
    match Configuration.minimum_requested_credits configuration with
    | Some minimum =>
        Ok (ge_int (Portfolio.total_requests (Borrower.portfolio (borrower funding_request)))
              minimum)
    | None => Ok true
    end.

Definition MinimumAmountRequestedFilter_apply : result bool :=
  if negb (truthy_int (Configuration.minimum_requested_amount configuration))
  then Ok true
  else
    match Configuration.minimum_requested_amount configuration with
    | Some minimum =>
        Ok (ge_int (Portfolio.total_amount (Borrower.portfolio (borrower funding_request)))
              minimum)
    | None => Ok true
    end.

Definition BorrowerMaximumAverageDaysDelinquentFilter_apply : result bool :=
  match Configuration.borrower configuration with
  | None => Ok true
  | Some borrower_configuration =>
      let maximum := BorrowerConfiguration.maximum_average_days_delinquent
                       borrower_configuration in
      if negb (truthy_int maximum) then Ok true
      else
        let average_days_delinquent :=
          Borrower.average_days_delinquent (borrower funding_request) in
        if truthy_int average_days_delinquent
        then
          match average_days_delinquent, maximum with
          | Some days, Some most => Ok (le_int days most)
          | _, _ => Ok true
          end
        else Ok true
  end.

Definition BorrowerMinimumPaidInTimeFilter_apply : result bool :=
  match Configuration.borrower configuration with
  | None => Ok true
  | Some borrower_configuration =>
      let minimum := BorrowerConfiguration.minimum_paid_in_time_percentage
                       borrower_configuration in
      if negb (truthy_decimal minimum) then Ok true
      else if negb (truthy_int
                      (Some (Portfolio.total_requests
                               (Borrower.portfolio (borrower funding_request)))))
      then Ok true
      else
        let paid_in_time_percentage :=
          Portfolio.paid_in_time (Borrower.portfolio (borrower funding_request)) in
        if truthy_decimal paid_in_time_percentage
        then
          match paid_in_time_percentage, minimum with
          | Some paid, Some least => Ok (ge_decimal paid least)
          | _, _ => Ok true
          end
        else Ok true
  end.

(** The [any(...)] the last filter returns: some debtor whose
    [paid_in_time] is not [None] reaches the minimum. *)
Definition any_debtor_paid_in_time (minimum : Q) : bool :=
  existsb (fun paid_in_time => ge_decimal paid_in_time minimum)
    (omap (fun debtor => Portfolio.paid_in_time (Debtor.portfolio debtor))
       (debtors funding_request)).

Definition DebtorMinimumPaidInTimeFilter_apply : result bool :=
  match Configuration.debtor configuration with
  | None => Ok true
  | Some debtor_configuration =>
      let minimum := DebtorConfiguration.minimum_paid_in_time_percentage
                       debtor_configuration in
      if negb (truthy_decimal minimum) then Ok true
      else
        debtor <- FundingRequest_debtor funding_request ;;
        if negb (truthy_int (Some (Portfolio.total_requests (Debtor.portfolio debtor))))
        then Ok true
        else
          match minimum with
          | Some least => Ok (any_debtor_paid_in_time least)
          | None => Ok true
          end
  end.

End Apply.

(** The subclasses of [Filter]; an instance holds its configuration. *)
Inductive FilterClass : Type :=
| CreditTypeFilter
| MinimumInvestmentFilter
| MinimumScoreFilter
| MinimumMonthlyProfitFilter
| MinimumIRRFilter
| MinimumDurationFilter
| MaximumDurationFilter
| DebtorDicomFilter
| BorrowerDicomFilter
| MinimumCreditsRequestedFilter
| MinimumAmountRequestedFilter
| BorrowerMaximumAverageDaysDelinquentFilter
| BorrowerMinimumPaidInTimeFilter
| DebtorMinimumPaidInTimeFilter.

Record Filter : Type :=
  { class : FilterClass; configuration : Configuration.t }.

(** [filter_.apply(funding_request)], dispatched on the class. *)
Definition apply (filter_ : Filter) (funding_request : FundingRequest) : result bool :=
  let self := configuration filter_ in
  match class filter_ with
  | CreditTypeFilter => CreditTypeFilter_apply self funding_request
  | MinimumInvestmentFilter => MinimumInvestmentFilter_apply self funding_request
  | MinimumScoreFilter => MinimumScoreFilter_apply self funding_request
  | MinimumMonthlyProfitFilter => MinimumMonthlyProfitFilter_apply self funding_request
  | MinimumIRRFilter => MinimumIRRFilter_apply self funding_request
  | MinimumDurationFilter => MinimumDurationFilter_apply self funding_request
  | MaximumDurationFilter => MaximumDurationFilter_apply self funding_request
  | DebtorDicomFilter => DebtorDicomFilter_apply self funding_request
  | BorrowerDicomFilter => BorrowerDicomFilter_apply self funding_request
  | MinimumCreditsRequestedFilter => MinimumCreditsRequestedFilter_apply self funding_request
  | MinimumAmountRequestedFilter => MinimumAmountRequestedFilter_apply self funding_request
  | BorrowerMaximumAverageDaysDelinquentFilter =>
      BorrowerMaximumAverageDaysDelinquentFilter_apply self funding_request
  | BorrowerMinimumPaidInTimeFilter => BorrowerMinimumPaidInTimeFilter_apply self funding_request
  | DebtorMinimumPaidInTimeFilter => DebtorMinimumPaidInTimeFilter_apply self funding_request
  end.

Definition all_classes : list FilterClass :=
  [ CreditTypeFilter; MinimumInvestmentFilter; MinimumScoreFilter;
    MinimumMonthlyProfitFilter; MinimumIRRFilter; MinimumDurationFilter;
    MaximumDurationFilter; DebtorDicomFilter; BorrowerDicomFilter;
    MinimumCreditsRequestedFilter; MinimumAmountRequestedFilter;
    BorrowerMaximumAverageDaysDelinquentFilter; BorrowerMinimumPaidInTimeFilter;
    DebtorMinimumPaidInTimeFilter ].

(** Every threshold of the configuration is unset, in the sense of the
    guard of the filter that reads it: [None] where the guard is
    [is None], [None] or zero where the guard is truthiness. The two
    [ignore_*_dicom] toggles are not thresholds and are left free. *)
Definition thresholds_unset (c : Configuration.t) : Prop :=
  Configuration.target_credit_types c = None
  /\ Configuration.minimum_investment_amount c = None
  /\ Configuration.minimum_score c = None
  /\ Configuration.minimum_monthly_profit_rate c = None
  /\ Configuration.minimum_irr c = None
  /\ Configuration.minimum_duration c = None
  /\ Configuration.maximum_duration c = None
  /\ truthy_int (Configuration.minimum_requested_credits c) = false
  /\ truthy_int (Configuration.minimum_requested_amount c) = false
  /\ truthy_int (Configuration.borrower c
                   ≫= BorrowerConfiguration.maximum_average_days_delinquent) = false
  /\ truthy_decimal (Configuration.borrower c
                       ≫= BorrowerConfiguration.minimum_paid_in_time_percentage) = false
  /\ truthy_decimal (Configuration.debtor c
                       ≫= DebtorConfiguration.minimum_paid_in_time_percentage) = false.

(** Both DICOM filters are switched off by their toggles. *)
Definition dicom_ignored (c : Configuration.t) : Prop :=
  (DebtorConfiguration.ignore_debtor_dicom <$> Configuration.debtor c) = Some true
  /\ (BorrowerConfiguration.ignore_borrower_dicom <$> Configuration.borrower c) = Some true.

(** The twelve filters with a threshold (all but the two DICOM ones). *)
Definition has_threshold (k : FilterClass) : bool :=
  match k with
  | DebtorDicomFilter | BorrowerDicomFilter => false
  | _ => true
  end.

End Filters.

(* ===================================================================== *)
(** ** integrations/cumplo.py *)
(* ===================================================================== *)

Module Cumplo.

(** Python objects live in a store and are passed by reference. *)
Abbreviation loc := positive (only parsing).

Section Evaluation.
(** [models.funding_request.FundingRequest] and the subclasses of
    [models.filter.Filter] this file imports are not among the sources:
    the request type and the filters are parameters; a filter is known
    by its [apply], which returns a [bool] or raises. *)
Context {FundingRequest Filter : Type}.
Variable apply : Filter -> FundingRequest -> result bool.

(** [all(filter_.apply(x) for filter_ in filters)]: stops at the first
    filter that returns [False]. *)
Fixpoint all_apply (filters : list Filter) (x : FundingRequest) : result bool :=
  match filters with
  | [] => Ok true
  | filter_ :: rest =>
      passed <- apply filter_ x ;;
      if passed then all_apply rest x else Ok false
  end.

(** [list(filter(predicate, items))] *)
Fixpoint filter_list {A : Type} (predicate : A -> result bool) (items : list A)
  : result (list A) :=
  match items with
  | [] => Ok []
  | item :: rest =>
      keep <- predicate item ;;
      kept <- filter_list predicate rest ;;
      Ok (if keep then item :: kept else kept)
  end.

(** The store: request objects and list objects (a list holds
    references to requests). *)
Record Heap : Type :=
  { objects : gmap loc FundingRequest;
    lists : gmap loc (list loc) }.

(** The requests a list object refers to, each with its reference;
    [None] if a reference is dangling (no Python program produces one). *)
Definition deref (h : Heap) (l : loc) : option (list (loc * FundingRequest)) :=
  match lists h !! l with
  | Some refs =>
      mapM (fun r => match objects h !! r with
                     | Some x => Some (r, x)
                     | None => None
                     end) refs
  | None => None
  end.

(** [funding_requests = list(filter(lambda x: all(...), funding_requests))]
    binds the local name to a new list object, which is returned. *)
Definition _filter_funding_requests
    (h : Heap) (funding_requests : loc) (filters : list Filter)
  : option (result (loc * Heap)) :=
  match deref h funding_requests with
  | Some items =>
      Some (kept <- filter_list (fun item => all_apply filters item.2) items ;;
            let new := fresh (dom (lists h)) in
            Ok (new, {| objects := objects h;
                        lists := <[new := kept.*1]> (lists h) |}))
  | None => None
  end.

End Evaluation.

Arguments Heap : clear implicits.

Section Gather.
(** The request of this file as far as the enrichment reads and writes
    it; the remaining attributes are carried along unread. *)
Context {CreditHistory BorrowerData RequestData : Type}.

Record Borrower : Type :=
  { history : option CreditHistory; borrower_data : BorrowerData }.

Record FundingRequest : Type :=
  { id : Z; borrower : Borrower; request_data : RequestData }.

(** [get_credit_history], as a function of the request id: the credit
    history read from the response of the remote source, or the exception of
    a request that fails or of a page without the two history elements
    ([history[0]], [history[1]]). *)
Variable get_credit_history : Z -> result CreditHistory.

(** [funding_request.borrower.history = credit_history] *)
Definition set_history (x : FundingRequest) (credit_history : CreditHistory)
  : FundingRequest :=
  {| id := id x;
     borrower := {| history := Some credit_history;
                    borrower_data := borrower_data (borrower x) |};
     request_data := request_data x |}.

(** [for funding_request, credit_history in zip(...)]: the assignment
    goes through the reference, into the store. *)
Fixpoint assign_histories (objs : gmap loc FundingRequest)
    (pairs : list (loc * CreditHistory)) : option (gmap loc FundingRequest) :=
  match pairs with
  | [] => Some objs
  | (r, credit_history) :: rest =>
      match objs !! r with
      | Some x => assign_histories (<[r := set_history x credit_history]> objs) rest
      | None => None
      end
  end.

(** The request [x] with the credit history fetched for its id, where the
    fetch returns one. *)
Definition fetched (x : FundingRequest) : FundingRequest :=
  match get_credit_history (id x) with
  | Ok credit_history => set_history x credit_history
  | Raise _ => x
  end.

(** What an enrichment whose fetches return leaves of the request at
    reference [r]: the request itself when [r] is not in the batch, the
    request with its borrower's history replaced when it is. Used to state
    the effect of [gather_full_funding_requests] on the store. *)
Definition enriched (refs : list loc) (r : loc) (x : FundingRequest) : FundingRequest :=
  if decide (r ∈ refs) then fetched x else x.

(** [credit_histories = await gather] over the tasks raises when a fetch raises,
    before any history is assigned, and the store is then as it was; the
    exception is the one of the first task that fails, which the model takes
    in the order of the batch. The outer [option] is [None] on a dangling
    reference only. *)
Definition gather_full_funding_requests (h : Heap FundingRequest) (funding_requests : loc)
  : option (result (loc * Heap FundingRequest)) :=
  match lists h !! funding_requests with
  | Some refs =>
      match mapM (fun r => id <$> objects h !! r) refs with
      | Some ids =>
          match Model.mapM_result get_credit_history ids with
          | Ok credit_histories =>
              match assign_histories (objects h) (zip refs credit_histories) with
              | Some objs =>
                  Some (Ok (funding_requests, {| objects := objs; lists := lists h |}))
              | None => None
              end
          | Raise e => Some (Raise e)
          end
      | None => None
      end
  | None => None
  end.

End Gather.

End Cumplo.

(* ===================================================================== *)
(** ** cumplo_spotter/routers/funding_requests/public.py and
       routers/funding_requests.py *)
(* ===================================================================== *)

Module Routers.

Section Promising.
Context {FundingRequest : Type} `{Countable FundingRequest}.
Context {Key : Type} `{Countable Key}.
Context {Configuration : Type}.

(** [funding_requests.filter_] of the business layer, and
    [cumplo.filter_funding_requests] with a configuration, are not among
    the sources: the per-configuration evaluation is a parameter. *)
Variable filter_ : list FundingRequest -> Configuration -> result (list FundingRequest).

(** [for c in configurations: promising.update(filter_(payload, c))] *)
Fixpoint update_all (promising : gset FundingRequest) (payload : list FundingRequest)
    (configurations : list Configuration) : result (gset FundingRequest) :=
  match configurations with
  | [] => Ok promising
  | configuration :: rest =>
      accepted <- filter_ payload configuration ;;
      update_all (promising ∪ list_to_set accepted) payload rest
  end.

(** [d.values()] *)
Definition values (d : gmap Key Configuration) : list Configuration :=
  (map_to_list d).*2.

(** public.py: [promising = set() if user.filters else set(payload)],
    then the loop; the result is the set the handler publishes. *)
Definition _filter_funding_requests
    (filters : gmap Key Configuration) (payload : list FundingRequest)
  : result (gset FundingRequest) :=
  let promising_funding_requests : gset FundingRequest :=
    if bool_decide (filters ≠ ∅) then ∅ else list_to_set payload in
  update_all promising_funding_requests payload (values filters).

(** routers/funding_requests.py: [promising = set()], then the loop. *)
Definition filter_funding_requests
    (configurations : gmap Key Configuration) (payload : list FundingRequest)
  : result (gset FundingRequest) :=
  update_all ∅ payload (values configurations).

End Promising.

End Routers.

(* ===================================================================== *)
(** ** Decidable equality of the modelled enumerations *)
(* ===================================================================== *)

#[global] Instance FilterClass_eq_dec : EqDecision Filters.FilterClass.
Proof. solve_decision. Defined.

#[global] Instance DurationUnit_eq_dec : EqDecision Filters.DurationUnit.
Proof. solve_decision. Defined.

(* ===================================================================== *)
(** ** Comparing configurations (used to state how the filters react to a
       change of thresholds) *)
(* ===================================================================== *)

Module Relaxation.

Import Filters.

(** A minimum guarded by [is None]: unset, or not above the other one. *)
Definition min_int (relaxed strict : option Z) : Prop :=
  match relaxed, strict with
  | None, _ => True
  | Some m', Some m => m' <= m
  | Some _, None => False
  end.

Definition min_decimal (relaxed strict : option Q) : Prop :=
  match relaxed, strict with
  | None, _ => True
  | Some m', Some m => (m' <= m)%Q
  | Some _, None => False
  end.

(** A maximum guarded by [is None]: unset, or not below the other one. *)
Definition max_int (relaxed strict : option Z) : Prop :=
  match relaxed, strict with
  | None, _ => True
  | Some m', Some m => m <= m'
  | Some _, None => False
  end.

(** Thresholds guarded by truthiness: unset means [None] or zero. *)
Definition truthy_min_int (relaxed strict : option Z) : Prop :=
  truthy_int relaxed = false
  \/ (truthy_int strict = true
      /\ match relaxed, strict with
         | Some m', Some m => m' <= m
         | _, _ => False
         end).

Definition truthy_max_int (relaxed strict : option Z) : Prop :=
  truthy_int relaxed = false
  \/ (truthy_int strict = true
      /\ match relaxed, strict with
         | Some m', Some m => m <= m'
         | _, _ => False
         end).

Definition truthy_min_decimal (relaxed strict : option Q) : Prop :=
  truthy_decimal relaxed = false
  \/ (truthy_decimal strict = true
      /\ match relaxed, strict with
         | Some m', Some m => (m' <= m)%Q
         | _, _ => False
         end).

(** Target credit types: unset, or a superset of the other list. *)
Definition targets (relaxed strict : option (list Model.CreditType)) : Prop :=
  match relaxed, strict with
  | None, _ => True
  | Some l', Some l => l ⊆ l'
  | Some _, None => False
  end.

Definition borrower_section
    (relaxed strict : option BorrowerConfiguration.t) : Prop :=
  match relaxed, strict with
  | Some b', Some b =>
      (BorrowerConfiguration.ignore_borrower_dicom b = true ->
       BorrowerConfiguration.ignore_borrower_dicom b' = true)
      /\ truthy_max_int (BorrowerConfiguration.maximum_average_days_delinquent b')
           (BorrowerConfiguration.maximum_average_days_delinquent b)
      /\ truthy_min_decimal (BorrowerConfiguration.minimum_paid_in_time_percentage b')
           (BorrowerConfiguration.minimum_paid_in_time_percentage b)
  | None, None => True
  | _, _ => False
  end.

Definition debtor_section
    (relaxed strict : option DebtorConfiguration.t) : Prop :=
  match relaxed, strict with
  | Some d', Some d =>
      (DebtorConfiguration.ignore_debtor_dicom d = true ->
       DebtorConfiguration.ignore_debtor_dicom d' = true)
      /\ truthy_min_decimal (DebtorConfiguration.minimum_paid_in_time_percentage d')
           (DebtorConfiguration.minimum_paid_in_time_percentage d)
  | None, None => True
  | _, _ => False
  end.

(** [relaxed] asks no more than [strict], field by field. *)
Definition no_stricter (relaxed strict : Configuration.t) : Prop :=
  targets (Configuration.target_credit_types relaxed)
    (Configuration.target_credit_types strict)
  /\ min_int (Configuration.minimum_investment_amount relaxed)
       (Configuration.minimum_investment_amount strict)
  /\ min_decimal (Configuration.minimum_score relaxed)
       (Configuration.minimum_score strict)
  /\ min_decimal (Configuration.minimum_monthly_profit_rate relaxed)
       (Configuration.minimum_monthly_profit_rate strict)
  /\ min_decimal (Configuration.minimum_irr relaxed) (Configuration.minimum_irr strict)
  /\ min_int (Configuration.minimum_duration relaxed)
       (Configuration.minimum_duration strict)
  /\ max_int (Configuration.maximum_duration relaxed)
       (Configuration.maximum_duration strict)
  /\ truthy_min_int (Configuration.minimum_requested_credits relaxed)
       (Configuration.minimum_requested_credits strict)
  /\ truthy_min_int (Configuration.minimum_requested_amount relaxed)
       (Configuration.minimum_requested_amount strict)
  /\ borrower_section (Configuration.borrower relaxed) (Configuration.borrower strict)
  /\ debtor_section (Configuration.debtor relaxed) (Configuration.debtor strict).

End Relaxation.

(* ===================================================================== *)
(** ** integrations/cumplo.py: the credit history text *)
(* ===================================================================== *)

Module History.

(** A Python [str] as the sequence of its code points. *)
Abbreviation str := (list N).

Definition NEWLINE : str := [10%N].
Definition PERCENT_MARK : str := [37; 40; 42; 41]%N.
Definition COLON : N := 58%N.

(** [c.isspace()] for a one-character string. *)
Definition isspace (c : N) : bool :=
  ((9 <=? c) && (c <=? 13) || (28 <=? c) && (c <=? 32)
   || (c =? 133) || (c =? 160) || (c =? 5760)
   || (8192 <=? c) && (c <=? 8202)
   || (c =? 8232) || (c =? 8233) || (c =? 8239) || (c =? 8287) || (c =? 12288))%N.

(** [s.startswith(old)] *)
Fixpoint starts_with (old s : str) : bool :=
  match old, s with
  | [], _ => true
  | a :: old', b :: s' => (a =? b)%N && starts_with old' s'
  | _ :: _, [] => false
  end.

(** [s.replace(old, new)] for a non-empty [old] (the code only replaces
    constants): occurrences are found left to right and do not overlap;
    [skip] counts the characters of an occurrence still to be dropped. *)
Fixpoint replace_from (old new : str) (skip : nat) (s : str) : str :=
  match s with
  | [] => []
  | c :: rest =>
      match skip with
      | S n => replace_from old new n rest
      | O =>
          if starts_with old s
          then new ++ replace_from old new (length old - 1) rest
          else c :: replace_from old new 0 rest
      end
  end.

Definition replace (old new s : str) : str := replace_from old new 0 s.

(** [s.split(sep)] for a one-character separator. *)
Fixpoint split (sep : N) (s : str) : list str :=
  match s with
  | [] => [[]]
  | c :: rest =>
      if (c =? sep)%N then [] :: split sep rest
      else match split sep rest with
           | field :: fields => (c :: field) :: fields
           | [] => [[c]]
           end
  end.

(** [s.lstrip()], [s.rstrip()] and [s.strip()] *)
Fixpoint lstrip (s : str) : str :=
  match s with
  | [] => []
  | c :: rest => if isspace c then lstrip rest else s
  end.

Definition rstrip (s : str) : str := reverse (lstrip (reverse s)).

Definition strip (s : str) : str := lstrip (rstrip s).

(** [element.get_text().replace("\n", "").replace("%(*)", "")
             .split(":")[-1].strip()], as a function of the element's text. *)
Definition _extract_history_data (text : str) : str :=
  strip (List.last (split COLON (replace PERCENT_MARK [] (replace NEWLINE [] text))) []).

End History.

(* ===================================================================== *)
(** ** integrations/cumplo.py: the pipeline of [get_funding_requests] *)
(* ===================================================================== *)

Module Pipeline.

Import Cumplo.

Section GetFundingRequests.
Context {CreditHistory BorrowerData RequestData Filter : Type}.

Local Abbreviation Request := (@FundingRequest CreditHistory BorrowerData RequestData).

Variable apply : Filter -> Request -> result bool.
Variable get_credit_history : Z -> result CreditHistory.
(** [x.monthly_profit_rate], an attribute of the request. *)
Variable monthly_profit_rate : Request -> Q.

(** One step of a stable sort in descending order of the key: [item], which
    came before the items of [sorted], goes in front of the first item whose
    key is not greater than its own. *)
Fixpoint insert_descending {A : Type} (key : A -> Q) (item : A) (sorted : list A)
  : list A :=
  match sorted with
  | [] => [item]
  | other :: rest =>
      if Qle_bool (key other) (key item) then item :: sorted
      else other :: insert_descending key item rest
  end.

(** [items.sort(key=key, reverse=True)]: stable, greatest key first. *)
Definition sort_descending {A : Type} (key : A -> Q) (items : list A) : list A :=
  foldr (insert_descending key) [] items.

(** [funding_requests.sort(key=lambda x: x.monthly_profit_rate, reverse=True)]
    on the list object at [l], in place. *)
Definition sort_by_profit (h : Heap Request) (l : loc) : option (Heap Request) :=
  match deref h l with
  | Some items =>
      Some {| objects := objects h;
              lists := <[l := (sort_descending
                                 (fun item => monthly_profit_rate item.2) items).*1]>
                         (lists h) |}
  | None => None
  end.

(** [get_funding_requests], from the list [get_available_funding_requests]
    returned; [first] and [second] are the two lists of filters the function
    builds (their classes are not among the sources). The outer [option] is
    [None] on a dangling reference only. *)
Definition get_funding_requests (h : Heap Request) (available : loc)
    (first second : list Filter) : option (result (loc * Heap Request)) :=
  match _filter_funding_requests apply h available first with
  | Some (Ok (filtered, h1)) =>
      match gather_full_funding_requests get_credit_history h1 filtered with
      | Some (Ok (gathered, h2)) =>
          match _filter_funding_requests apply h2 gathered second with
          | Some (Ok (final, h3)) =>
              match sort_by_profit h3 final with
              | Some h4 => Some (Ok (final, h4))
              | None => None
              end
          | Some (Raise e) => Some (Raise e)
          | None => None
          end
      | Some (Raise e) => Some (Raise e)
      | None => None
      end
  | Some (Raise e) => Some (Raise e)
  | None => None
  end.

End GetFundingRequests.

End Pipeline.

(* ===================================================================== *)
(** ** routers/funding_requests.py: the scheduling handlers *)
(* ===================================================================== *)

Module Handlers.

(** [cumplo_common.models.user.User] as far as the handlers read it. *)
Module User.
Record t {Key Configuration : Type} `{Countable Key} : Type :=
  { id : string;
    webhook_url : option string;
    configurations : gmap Key Configuration }.
Arguments t Key Configuration {_ _}.
End User.

(** The arguments of one [create_http_task] call. *)
Record Task (Payload : Type) : Type :=
  { url : string; task_id : string; queue : string; payload : Payload }.
Arguments url {Payload} _.
Arguments task_id {Payload} _.
Arguments queue {Payload} _.
Arguments payload {Payload} _.

(** [bool(user.webhook_url)] *)
Definition has_webhook_url (webhook_url : option string) : bool :=
  match webhook_url with
  | Some address => negb (bool_decide (address = ""%string))
  | None => false
  end.

(** How a handler ends: normally, on a failed [assert], or on an exception
    of the evaluation. *)
Inductive outcome (A : Type) : Type :=
| Completed (a : A)
| AssertionFailed (message : string)
| Propagated (e : exn).
Arguments Completed {A} a.
Arguments AssertionFailed {A} message.
Arguments Propagated {A} e.

Section Scheduling.
Context {FundingRequest : Type} `{Countable FundingRequest}.
Context {Key : Type} `{Countable Key}.
Context {Configuration Serialized : Type}.

(** [utils.constants] is not among the sources. *)
Variables CUMPLO_SPOTTER_URL CUMPLO_SPOTTER_QUEUE : string.
Variables CUMPLO_HERALD_URL CUMPLO_HERALD_QUEUE : string.

Variable filter_ : list FundingRequest -> Configuration -> result (list FundingRequest).
(** [funding_request.id] and [funding_request.serialize()] *)
Variable request_id : FundingRequest -> Z.
Variable serialize : FundingRequest -> Serialized.

(** [fetch_funding_requests]: the tasks it creates, in order, for the users
    the store returns and the requests fetched. *)
Fixpoint fetch_funding_requests (users : list (User.t Key Configuration))
    (funding_requests : list FundingRequest)
  : list (Task (string * list FundingRequest)) :=
  match users with
  | [] => []
  | user :: rest =>
      if negb (has_webhook_url (User.webhook_url user))
      then fetch_funding_requests rest funding_requests
      else {| url := CUMPLO_SPOTTER_URL +:+ "/funding-requests/filter";
              task_id := "filter-funding-requests-" +:+ User.id user;
              queue := CUMPLO_SPOTTER_QUEUE;
              payload := (User.id user, funding_requests) |}
           :: fetch_funding_requests rest funding_requests
  end.

(** [{funding_request.id: funding_request.serialize() for ... in promising}]:
    a later request with the same id replaces an earlier one. *)
Definition webhook_body (promising : list FundingRequest) : gmap Z Serialized :=
  foldl (fun body funding_request =>
           <[request_id funding_request := serialize funding_request]> body)
    ∅ promising.

(** [filter_funding_requests], the whole handler for the user the store
    returned: the task it schedules, if any. *)
Definition filter_funding_requests (user : User.t Key Configuration)
    (funding_requests : list FundingRequest)
  : outcome (option (Task (gmap Z Serialized))) :=
  match Routers.filter_funding_requests filter_ (User.configurations user)
          funding_requests with
  | Raise e => Propagated e
  | Ok promising_funding_requests =>
      if bool_decide (promising_funding_requests = ∅) then Completed None
      else
        let body := webhook_body (elements promising_funding_requests) in
        if negb (has_webhook_url (User.webhook_url user))
        then AssertionFailed
               ("User " +:+ User.id user +:+ " does not have a webhook URL configured")
        else Completed
               (Some {| url := CUMPLO_HERALD_URL +:+ "/funding-requests/webhook/send";
                        task_id := "send-funding-requests-webhook-" +:+ User.id user;
                        queue := CUMPLO_HERALD_QUEUE;
                        payload := body |})
  end.

End Scheduling.

End Handlers.

(* ===================================================================== *)
(** ** integrations/firestore.py: the key shown in logs and errors *)
(* ===================================================================== *)

Module Firestore.

(** [s[-n:]] for a positive [n]. *)
Definition last_chars {A : Type} (n : nat) (s : list A) : list A :=
  drop (length s - n) s.

(** [f"...{api_key[-10:]}"], on code points (46 is the full stop). *)
Definition secure_api_key (api_key : list N) : list N :=
  [46; 46; 46]%N ++ last_chars 10 api_key.

End Firestore.

(* ===================================================================== *)
(** ** Concrete inputs used by the examples *)
(* ===================================================================== *)

Module Samples.

Import Model.

(** A lexicon of the shape of [DicomMarker]. *)
Definition markers : DicomMarker :=
  {| BOTH_TRUE := "ambas empresas presentan dicom";
     BOTH_FALSE := "ninguna empresa presenta dicom";
     DEBTOR_TRUE := "pagador registra dicom";
     BORROWER_TRUE := [ "solicitante presenta dicom"; "solicitante con dicom" ];
     BORROWER_FALSE := "solicitante no presenta dicom";
     SINGLE_FALSE := [ "no presenta dicom"; "sin dicom" ];
     SINGLE_TRUE := [ "presenta dicom"; "con dicom" ] |}.

(** A description with a borrower-positive and the borrower-negative
    marker. *)
Definition description_both_borrower_markers : string :=
  "solicitante con dicom en 2019; hoy el solicitante no presenta dicom".

Definition description_debtor_only : string :=
  "el pagador registra dicom vigente".

Definition description_both_true : string :=
  "ambas empresas presentan dicom; solicitante no presenta dicom".


(** A batch for [integrations/cumplo.py]: requests are represented by
    their score, a filter by its minimum score. *)
Definition minimum_score_apply (minimum score : Z) : result bool :=
  Ok (minimum <=? score).

Definition heap : Cumplo.Heap Z :=
  {| Cumplo.objects := list_to_map [ (1%positive, 10); (2%positive, 20); (3%positive, 5) ];
     Cumplo.lists := {[ 7%positive := [ 1; 2; 3 ]%positive ]} |}.

(** Routers: requests are represented by their ids, a configuration by
    the ids it accepts. *)
Definition accept_ids (payload : list Z) (accepted : list Z) : result (list Z) :=
  Ok (filter (fun request => request ∈ accepted) payload).

Definition configurations_A_B : gmap positive (list Z) :=
  {[ 1%positive := [ 1; 2 ]; 2%positive := [ 2; 3 ] ]}.

Definition no_configurations : gmap positive (list Z) := ∅.


(** A request whose borrower is flagged in DICOM and whose optional
    signals (delinquency, paid-in-time of the borrower and of the only
    debtor) are all missing. *)
Definition portfolio_without_signals : Filters.Portfolio.t :=
  {| Filters.Portfolio.total_requests := 3;
     Filters.Portfolio.total_amount := 1000000;
     Filters.Portfolio.paid_in_time := None |}.

Definition request : Filters.FundingRequest :=
  {| Filters.id := 1;
     Filters.score := (7 # 1)%Q;
     Filters.irr := (15 # 1)%Q;
     Filters.monthly_profit_rate := (1 # 100)%Q;
     Filters.maximum_investment := 500000;
     Filters.credit_type := FACTORING;
     Filters.duration := {| Filters.Duration.value := 45;
                            Filters.Duration.unit := Filters.DAY |};
     Filters.borrower := {| Filters.Borrower.dicom := Some true;
                            Filters.Borrower.portfolio := portfolio_without_signals;
                            Filters.Borrower.average_days_delinquent := None |};
     Filters.debtors := [ {| Filters.Debtor.dicom := None;
                             Filters.Debtor.portfolio := portfolio_without_signals |} ] |}.

Definition configuration_with
    (borrower : option Filters.BorrowerConfiguration.t)
    (debtor : option Filters.DebtorConfiguration.t) : Filters.Configuration.t :=
  {| Filters.Configuration.target_credit_types := None;
     Filters.Configuration.minimum_investment_amount := None;
     Filters.Configuration.minimum_score := None;
     Filters.Configuration.minimum_monthly_profit_rate := None;
     Filters.Configuration.minimum_irr := None;
     Filters.Configuration.minimum_duration := None;
     Filters.Configuration.maximum_duration := None;
     Filters.Configuration.minimum_requested_credits := None;
     Filters.Configuration.minimum_requested_amount := None;
     Filters.Configuration.borrower := borrower;
     Filters.Configuration.debtor := debtor |}.

(** No threshold set, the DICOM toggles off. *)
Definition configuration_unset : Filters.Configuration.t :=
  configuration_with
    (Some {| Filters.BorrowerConfiguration.maximum_average_days_delinquent := None;
             Filters.BorrowerConfiguration.minimum_paid_in_time_percentage := None;
             Filters.BorrowerConfiguration.ignore_borrower_dicom := false |})
    (Some {| Filters.DebtorConfiguration.minimum_paid_in_time_percentage := None;
             Filters.DebtorConfiguration.ignore_debtor_dicom := false |}).

(** No threshold set, both DICOM filters ignored. *)
Definition configuration_permissive : Filters.Configuration.t :=
  configuration_with
    (Some {| Filters.BorrowerConfiguration.maximum_average_days_delinquent := None;
             Filters.BorrowerConfiguration.minimum_paid_in_time_percentage := None;
             Filters.BorrowerConfiguration.ignore_borrower_dicom := true |})
    (Some {| Filters.DebtorConfiguration.minimum_paid_in_time_percentage := None;
             Filters.DebtorConfiguration.ignore_debtor_dicom := true |}).

(** The three null-tolerant thresholds set: at most 10 days delinquent,
    at least 50 percent paid in time (borrower and debtor). *)
Definition configuration_signals : Filters.Configuration.t :=
  configuration_with
    (Some {| Filters.BorrowerConfiguration.maximum_average_days_delinquent := Some 10;
             Filters.BorrowerConfiguration.minimum_paid_in_time_percentage :=
               Some (50 # 1)%Q;
             Filters.BorrowerConfiguration.ignore_borrower_dicom := true |})
    (Some {| Filters.DebtorConfiguration.minimum_paid_in_time_percentage :=
               Some (50 # 1)%Q;
             Filters.DebtorConfiguration.ignore_debtor_dicom := true |}).

(** A configuration without borrower and debtor sections. *)
Definition configuration_without_sections : Filters.Configuration.t :=
  configuration_with None None.

Definition filter_of (k : Filters.FilterClass) (c : Filters.Configuration.t)
  : Filters.Filter :=
  {| Filters.class := k; Filters.configuration := c |}.

Definition request_heap : Cumplo.Heap Filters.FundingRequest :=
  {| Cumplo.objects := {[ 1%positive := request ]};
     Cumplo.lists := {[ 2%positive := [ 1%positive ] ]} |}.


(** Raw upstream data: a borrower with a description and two debtors. *)
Definition raw_borrower : gmap string raw :=
  {[ "descripcion"%string := RStr description_debtor_only;
     "nombre"%string := RStr "Agricola Sur" ]}.

Definition raw_debtors : list (gmap string raw) :=
  [ {[ "nombre"%string := RStr "Pagador Uno" ]};
    {[ "nombre"%string := RStr "Pagador Dos" ]} ].

Definition raw_data : gmap string raw :=
  {[ "id_operacion"%string := RInt 1;
     "solicitante"%string := RDict raw_borrower;
     "pagadores"%string := RList (RDict <$> raw_debtors) ]}.

(** An enrichment batch: one constructed request, not yet enriched; the
    remote source answers with twice the id, except for the request 99,
    whose page has no history element. *)
Definition credit_history_of (id : Z) : result Z :=
  if id =? 99 then Raise Py.IndexError else Ok (2 * id).

Definition constructed_request : @Cumplo.FundingRequest Z unit unit :=
  {| Cumplo.id := 21;
     Cumplo.borrower := {| Cumplo.history := None; Cumplo.borrower_data := tt |};
     Cumplo.request_data := tt |}.

Definition constructed_heap : Cumplo.Heap (@Cumplo.FundingRequest Z unit unit) :=
  {| Cumplo.objects := {[ 1%positive := constructed_request ]};
     Cumplo.lists := {[ 2%positive := [ 1%positive ] ]} |}.

(** A batch of two requests of which the second is the request 99. *)
Definition request_without_history : @Cumplo.FundingRequest Z unit unit :=
  {| Cumplo.id := 99;
     Cumplo.borrower := {| Cumplo.history := None; Cumplo.borrower_data := tt |};
     Cumplo.request_data := tt |}.

Definition failing_heap : Cumplo.Heap (@Cumplo.FundingRequest Z unit unit) :=
  {| Cumplo.objects := {[ 1%positive := constructed_request;
                          3%positive := request_without_history ]};
     Cumplo.lists := {[ 2%positive := [ 1%positive; 3%positive ] ]} |}.

(** Thresholds on the score only, the sections as in [configuration_unset]. *)
Definition configuration_minimum_score (minimum : Q) : Filters.Configuration.t :=
  {| Filters.Configuration.target_credit_types := None;
     Filters.Configuration.minimum_investment_amount := None;
     Filters.Configuration.minimum_score := Some minimum;
     Filters.Configuration.minimum_monthly_profit_rate := None;
     Filters.Configuration.minimum_irr := None;
     Filters.Configuration.minimum_duration := None;
     Filters.Configuration.maximum_duration := None;
     Filters.Configuration.minimum_requested_credits := None;
     Filters.Configuration.minimum_requested_amount := None;
     Filters.Configuration.borrower := Filters.Configuration.borrower configuration_unset;
     Filters.Configuration.debtor := Filters.Configuration.debtor configuration_unset |}.

(** An empty list of target credit types, and a maximum duration below the
    minimum duration. *)
Definition configuration_unsatisfiable : Filters.Configuration.t :=
  {| Filters.Configuration.target_credit_types := Some [];
     Filters.Configuration.minimum_investment_amount := None;
     Filters.Configuration.minimum_score := None;
     Filters.Configuration.minimum_monthly_profit_rate := None;
     Filters.Configuration.minimum_irr := None;
     Filters.Configuration.minimum_duration := Some 60;
     Filters.Configuration.maximum_duration := Some 30;
     Filters.Configuration.minimum_requested_credits := None;
     Filters.Configuration.minimum_requested_amount := None;
     Filters.Configuration.borrower := None;
     Filters.Configuration.debtor := None |}.

(** A request whose borrower has paid nothing in time and has an average of
    zero days delinquent. *)
Definition request_zero_signals : Filters.FundingRequest :=
  {| Filters.id := 2;
     Filters.score := (7 # 1)%Q;
     Filters.irr := (15 # 1)%Q;
     Filters.monthly_profit_rate := (1 # 100)%Q;
     Filters.maximum_investment := 500000;
     Filters.credit_type := FACTORING;
     Filters.duration := {| Filters.Duration.value := 45;
                            Filters.Duration.unit := Filters.DAY |};
     Filters.borrower :=
       {| Filters.Borrower.dicom := None;
          Filters.Borrower.portfolio :=
            {| Filters.Portfolio.total_requests := 0;
               Filters.Portfolio.total_amount := 0;
               Filters.Portfolio.paid_in_time := Some (0 # 1)%Q |};
          Filters.Borrower.average_days_delinquent := Some 0 |};
     Filters.debtors := [] |}.

(** The text of a credit history element, "Pagado en plazo: 85 " followed
    by the percent mark and a newline, and its parts, as code points. *)
Definition history_label : History.str :=
  [80; 97; 103; 97; 100; 111; 32; 101; 110; 32; 112; 108; 97; 122; 111]%N.

Definition history_value : History.str := [32; 56; 53; 32]%N.

Definition history_text : History.str :=
  history_label ++ History.COLON :: history_value ++ History.PERCENT_MARK ++ [10]%N.

(** A batch for the pipeline: the request data is the monthly profit rate
    in hundredths of a percent; a filter of the first list is a minimum rate,
    a filter of the second list a minimum on the credit history. *)
Definition pipeline_request (id rate : Z) : @Cumplo.FundingRequest Z unit Z :=
  {| Cumplo.id := id;
     Cumplo.borrower := {| Cumplo.history := None; Cumplo.borrower_data := tt |};
     Cumplo.request_data := rate |}.

Definition pipeline_heap : Cumplo.Heap (@Cumplo.FundingRequest Z unit Z) :=
  {| Cumplo.objects := list_to_map [ (1%positive, pipeline_request 11 150);
                                     (2%positive, pipeline_request 12 90);
                                     (3%positive, pipeline_request 13 210);
                                     (4%positive, pipeline_request 5 300) ];
     Cumplo.lists := {[ 9%positive := [ 1; 2; 3; 4 ]%positive ]} |}.

Definition pipeline_apply (filter_ : Z + Z) (x : @Cumplo.FundingRequest Z unit Z)
  : result bool :=
  match filter_ with
  | inl minimum => Ok (minimum <=? Cumplo.request_data x)
  | inr minimum =>
      match Cumplo.history (Cumplo.borrower x) with
      | Some history => Ok (minimum <=? history)
      | None => Raise (Py.AttributeError "history")
      end
  end.

Definition pipeline_rate (x : @Cumplo.FundingRequest Z unit Z) : Q :=
  (Cumplo.request_data x # 10000)%Q.

(** Users of the scheduler: configurations are lists of accepted ids. *)
Definition user_with_webhook : Handlers.User.t positive (list Z) :=
  {| Handlers.User.id := "ana";
     Handlers.User.webhook_url := Some "https://example.org/hook"%string;
     Handlers.User.configurations := configurations_A_B |}.

Definition user_without_webhook : Handlers.User.t positive (list Z) :=
  {| Handlers.User.id := "luis";
     Handlers.User.webhook_url := None;
     Handlers.User.configurations := configurations_A_B |}.

(** An API key of sixteen characters, "sk-0123456789abc": the part that is
    hidden, "sk-012", and the ten characters shown. *)
Definition api_key_hidden : list N := [115; 107; 45; 48; 49; 50]%N.

Definition api_key_shown : list N := [51; 52; 53; 54; 55; 56; 57; 97; 98; 99]%N.


End Samples.

(* ===================================================================== *)
(** * Properties *)
(* ===================================================================== *)

Import Py.

(** ** Outcomes *)

Lemma bind_Ok_inv {A B : Type} (m : result A) (k : A -> result B) (b : B) :
  Py.bind m k = Ok b -> exists a, m = Ok a /\ k a = Ok b.
Proof. destruct m as [a|e]; simpl; [eauto | discriminate]. Qed.

Lemma is_ok_Ok {A : Type} (m : result A) : is_ok m <-> exists a, m = Ok a.
Proof.
  destruct m as [a|e]; simpl; split; eauto.
  - intros [].
  - intros [a Ha]. discriminate.
Qed.

Ltac inv_bind H :=
  let a := fresh "a" in
  let Ha := fresh "Ha" in
  apply bind_Ok_inv in H; destruct H as (a & Ha & H).

(* ===================================================================== *)
(** ** Credit type translation *)
(* ===================================================================== *)

Section CreditTypeFacts.
Import Model.

Lemma translations_lookup_other (value : string) :
  value ∉ upstream_values -> CREDIT_TYPE_TRANSLATIONS !! value = None.
Proof.
  intros Hnot. unfold CREDIT_TYPE_TRANSLATIONS, upstream_values in *. simpl.
  repeat (rewrite lookup_insert_ne; [| intros <-; apply Hnot; set_solver]).
  apply lookup_empty.
Qed.

Lemma translation_differs_from_raw (value : string) (c : CreditType) :
  credit_type_validator value = Ok c -> CreditType_value c <> value.
Proof.
  unfold credit_type_validator.
  destruct (decide (value ∈ upstream_values)) as [Hin | Hnot].
  - unfold upstream_values in Hin.
    repeat (apply elem_of_cons in Hin; destruct Hin as [-> | Hin];
            [vm_compute; intros Heq; injection Heq as <-; discriminate |]).
    inversion Hin.
  - rewrite translations_lookup_other by done. discriminate.
Qed.

(** C6. The five upstream credit types translate by the fixed table
    (irrigation to state_subsidy, simple to working_capital, balloon and
    bullet to bullet_loan, invoice to factoring); the result is one of the
    four canonical values and never the raw string; every other upstream
    value raises (a [KeyError] carrying the value) instead of yielding a
    credit type. *)
Theorem credit_type_validator_table :
  credit_type_validator "irrigation" = Ok STATE_SUBSIDY
  /\ credit_type_validator "simple" = Ok WORKING_CAPITAL
  /\ credit_type_validator "balloon" = Ok BULLET_LOAN
  /\ credit_type_validator "bullet" = Ok BULLET_LOAN
  /\ credit_type_validator "invoice" = Ok FACTORING
  /\ (forall value c, credit_type_validator value = Ok c ->
        c ∈ [STATE_SUBSIDY; WORKING_CAPITAL; BULLET_LOAN; FACTORING]
        /\ CreditType_value c <> value)
  /\ (forall value, value ∉ upstream_values ->
        credit_type_validator value = Raise (KeyError value)).
Proof.
  repeat split; try reflexivity.
  - destruct c; set_solver.
  - by apply translation_differs_from_raw.
  - intros value Hnot. unfold credit_type_validator.
    by rewrite translations_lookup_other.
Qed.

End CreditTypeFacts.

(** Witness of C6: an upstream value outside the table, and one inside. *)
Lemma credit_type_validator_table_witness :
  Model.credit_type_validator "leasing" = Raise (KeyError "leasing")
  /\ Model.BULLET_LOAN
     ∈ [Model.STATE_SUBSIDY; Model.WORKING_CAPITAL; Model.BULLET_LOAN; Model.FACTORING]
  /\ Model.CreditType_value Model.BULLET_LOAN <> "balloon"%string.
Proof.
  destruct credit_type_validator_table as (_ & _ & _ & _ & _ & Hok & Hraise).
  split.
  - apply Hraise.
    apply (bool_decide_unpack ("leasing"%string ∉ Model.upstream_values)).
    vm_compute. exact I.
  - apply (Hok "balloon"%string Model.BULLET_LOAN). reflexivity.
Defined.

(* ===================================================================== *)
(** ** DICOM inference *)
(* ===================================================================== *)

Section DicomFacts.
Import Model.
Variable markers : DicomMarker.
Variable clean_text : string -> string.

Lemma identify_dicom_status_of_text (data : raw) (solicitante : gmap string raw)
    (text : string) :
  getitem data "solicitante" = Ok (RDict solicitante) ->
  solicitante !! "descripcion"%string = Some (RStr text) ->
  _identify_dicom_status markers clean_text data
  = Ok (dicom_of_description markers (clean_text text)).
Proof.
  intros Hsol Hdesc. unfold _identify_dicom_status.
  rewrite Hsol. simpl. by rewrite Hdesc.
Qed.

(** C4 (amended). The inference is a function of the normalized
    description alone, in priority order: a both-positive marker gives
    (true, true) whatever else is present; otherwise a both-negative marker
    gives (false, false); otherwise the debtor flag is true exactly when the
    debtor-positive marker is present (unknown if not), and the borrower
    flag is false when the borrower-negative marker is present, whether or
    not a borrower-positive marker matched, else true on a borrower-positive
    marker, else false on a single-negative marker, else true on a
    single-positive marker, else unknown. It agrees with the "else if"
    reading whenever a borrower-positive marker and the borrower-negative
    marker do not occur together. *)
Theorem dicom_inference_priority (description : string) :
  (str_contains (BOTH_TRUE markers) description = true ->
     dicom_of_description markers description = (Some true, Some true))
  /\ (str_contains (BOTH_TRUE markers) description = false ->
      str_contains (BOTH_FALSE markers) description = true ->
        dicom_of_description markers description = (Some false, Some false))
  /\ (str_contains (BOTH_TRUE markers) description = false ->
      str_contains (BOTH_FALSE markers) description = false ->
        dicom_of_description markers description
        = (if str_contains (DEBTOR_TRUE markers) description then Some true else None,
           borrower_cascade markers description))
  /\ (any_marker_in (BORROWER_TRUE markers) description
      && str_contains (BORROWER_FALSE markers) description = false ->
        dicom_of_description markers description
        = dicom_by_the_letter markers description)
  /\ (forall data solicitante text,
        getitem data "solicitante" = Ok (RDict solicitante) ->
        solicitante !! "descripcion"%string = Some (RStr text) ->
        _identify_dicom_status markers clean_text data
        = Ok (dicom_of_description markers (clean_text text))).
Proof.
  unfold dicom_of_description, dicom_by_the_letter, borrower_cascade.
  repeat split.
  - by intros ->.
  - by intros -> ->.
  - intros -> ->.
    destruct (str_contains (BORROWER_FALSE markers) description),
      (any_marker_in (BORROWER_TRUE markers) description),
      (any_marker_in (SINGLE_FALSE markers) description),
      (any_marker_in (SINGLE_TRUE markers) description); reflexivity.
  - destruct (str_contains (BOTH_TRUE markers) description),
      (str_contains (BOTH_FALSE markers) description),
      (str_contains (BORROWER_FALSE markers) description),
      (any_marker_in (BORROWER_TRUE markers) description),
      (any_marker_in (SINGLE_FALSE markers) description),
      (any_marker_in (SINGLE_TRUE markers) description);
      simpl; intros; (discriminate || reflexivity).
  - apply identify_dicom_status_of_text.
Qed.

End DicomFacts.

(** Witness of C4: the description that only names the debtor. *)
Lemma dicom_inference_priority_witness :
  Model.dicom_of_description Samples.markers Samples.description_debtor_only
  = (Some true, None)
  /\ Model.dicom_of_description Samples.markers Samples.description_both_true
     = (Some true, Some true).
Proof.
  split.
  - pose proof (dicom_inference_priority Samples.markers (fun s => s)
                  Samples.description_debtor_only) as (_ & _ & H & _).
    rewrite H; reflexivity.
  - apply (dicom_inference_priority Samples.markers (fun s => s)
             Samples.description_both_true). reflexivity.
Defined.

(** C4 as stated fails: with a borrower-positive and the borrower-negative
    marker in the description (and no "both" marker), the code answers
    borrower_dicom = false, where the "else if" of the claim keeps true. *)
Lemma dicom_borrower_negative_overrides :
  any_marker_in (Model.BORROWER_TRUE Samples.markers)
    Samples.description_both_borrower_markers = true
  /\ str_contains (Model.BORROWER_FALSE Samples.markers)
       Samples.description_both_borrower_markers = true
  /\ Model.dicom_of_description Samples.markers
       Samples.description_both_borrower_markers = (None, Some false)
  /\ Model.dicom_by_the_letter Samples.markers
       Samples.description_both_borrower_markers = (None, Some true).
Proof. repeat split; reflexivity. Qed.

(* ===================================================================== *)
(** ** Filter set evaluation (integrations/cumplo.py) *)
(* ===================================================================== *)

Section EvaluationFacts.
Import Cumplo.
Context {FundingRequest Filter : Type}.
Variable apply : Filter -> FundingRequest -> result bool.

Lemma all_apply_true (filters : list Filter) (x : FundingRequest) :
  all_apply apply filters x = Ok true
  <-> forall filter_, filter_ ∈ filters -> apply filter_ x = Ok true.
Proof.
  induction filters as [|f rest IH]; simpl.
  - split; [intros _ f Hf; inversion Hf | done].
  - split.
    + intros Hall g Hg. destruct (apply f x) as [[|]|e] eqn:Hf; simpl in Hall;
        try discriminate.
      apply elem_of_cons in Hg as [-> | Hg]; [done | by apply IH].
    + intros Hall. rewrite (Hall f) by left. simpl.
      apply IH. intros g Hg. apply Hall. by right.
Qed.

Lemma all_apply_returns (filters : list Filter) (x : FundingRequest) :
  (forall filter_, filter_ ∈ filters -> is_ok (apply filter_ x)) ->
  is_ok (all_apply apply filters x).
Proof.
  induction filters as [|f rest IH]; simpl; [done |].
  intros Hok. pose proof (Hok f ltac:(left)) as Hf.
  destruct (apply f x) as [[|]|e]; simpl in *; try done.
  apply IH. intros g Hg. apply Hok. by right.
Qed.

Lemma all_apply_permutation (filters filters' : list Filter) (x : FundingRequest) :
  filters ≡ₚ filters' ->
  (all_apply apply filters x = Ok true <-> all_apply apply filters' x = Ok true).
Proof.
  intros Hperm. rewrite !all_apply_true.
  split; intros Hall f Hf; apply Hall; [by rewrite Hperm | by rewrite <- Hperm].
Qed.

Lemma all_apply_permutation_eq (filters filters' : list Filter) (x : FundingRequest) :
  filters ≡ₚ filters' ->
  (forall filter_, filter_ ∈ filters -> is_ok (apply filter_ x)) ->
  all_apply apply filters x = all_apply apply filters' x.
Proof.
  intros Hperm Hok.
  assert (Hok' : forall f, f ∈ filters' -> is_ok (apply f x)).
  { intros f Hf. apply Hok. by rewrite Hperm. }
  pose proof (all_apply_returns _ _ Hok) as H1.
  pose proof (all_apply_returns _ _ Hok') as H2.
  pose proof (all_apply_permutation _ _ x Hperm) as Hiff.
  destruct (all_apply apply filters x) as [[|]|?],
    (all_apply apply filters' x) as [[|]|?]; simpl in *; try done.
  - symmetry. by apply Hiff.
  - by apply Hiff.
Qed.

Section FilterList.
Context {A : Type}.
Implicit Types (predicate : A -> result bool) (items kept : list A).

Lemma filter_list_elem_of predicate items kept :
  filter_list predicate items = Ok kept ->
  forall item, item ∈ kept <-> item ∈ items /\ predicate item = Ok true.
Proof.
  revert kept. induction items as [|y rest IH]; simpl; intros kept Hrun item.
  - injection Hrun as <-. split; [inversion 1 | intros [Hin _]; inversion Hin].
  - inv_bind Hrun. inv_bind Hrun. injection Hrun as <-.
    specialize (IH _ Ha0 item). destruct a.
    + rewrite !elem_of_cons, IH. split.
      * intros [-> | [? ?]]; auto.
      * intros [[-> | ?] ?]; auto.
    + rewrite elem_of_cons, IH. split.
      * intros [? ?]; auto.
      * intros [[-> | ?] Htrue]; [congruence | auto].
Qed.

Lemma filter_list_sublist predicate items kept :
  filter_list predicate items = Ok kept -> kept `sublist_of` items.
Proof.
  revert kept. induction items as [|y rest IH]; simpl; intros kept Hrun.
  - by injection Hrun as <-.
  - inv_bind Hrun. inv_bind Hrun. injection Hrun as <-.
    destruct a; [apply sublist_skip | apply sublist_cons]; auto.
Qed.

Lemma filter_list_returns predicate items :
  (forall item, item ∈ items -> is_ok (predicate item)) ->
  is_ok (filter_list predicate items).
Proof.
  induction items as [|y rest IH]; simpl; [done |]. intros Hok.
  pose proof (Hok y ltac:(left)) as Hy.
  destruct (predicate y) as [b|e]; simpl in *; [| done].
  assert (Hrest : is_ok (filter_list predicate rest)).
  { apply IH. intros item Hitem. apply Hok. by right. }
  by destruct (filter_list predicate rest).
Qed.

Lemma filter_list_ext predicate predicate' items :
  (forall item, item ∈ items -> predicate item = predicate' item) ->
  filter_list predicate items = filter_list predicate' items.
Proof.
  induction items as [|y rest IH]; simpl; [done |]. intros Hext.
  rewrite (Hext y) by left. rewrite IH; [done |].
  intros item Hitem. apply Hext. by right.
Qed.
End FilterList.

(** Well-formed input of [_filter_funding_requests]: the list object
    exists and every reference in it points to a request. *)
Lemma deref_allocated (h : Heap FundingRequest) (l : loc) (refs : list loc) :
  lists h !! l = Some refs ->
  (forall r, r ∈ refs -> is_Some (objects h !! r)) ->
  exists items, deref h l = Some items
                /\ items.*1 = refs
                /\ forall r x, (r, x) ∈ items -> objects h !! r = Some x.
Proof.
  intros Hl Hrefs. unfold deref. rewrite Hl. clear Hl.
  induction refs as [|r rest IH].
  - exists []. split; [done |]. split; [done |]. intros r x Hin. inversion Hin.
  - destruct IH as (items & Hmap & Hfst & Hobj).
    { intros r' Hr'. apply Hrefs. by right. }
    destruct (Hrefs r ltac:(left)) as [x Hx].
    exists ((r, x) :: items). split; [| split].
    + simpl. rewrite Hx. simpl. rewrite Hmap. reflexivity.
    + rewrite fmap_cons, Hfst. reflexivity.
    + intros r' x' [Heq | Hin]%elem_of_cons; [congruence | auto].
Qed.

Lemma filter_funding_requests_inv (h : Heap FundingRequest) (l : loc)
    (refs : list loc) (filters : list Filter) (new : loc) (h' : Heap FundingRequest) :
  lists h !! l = Some refs ->
  _filter_funding_requests apply h l filters = Some (Ok (new, h')) ->
  exists items kept,
    deref h l = Some items
    /\ items.*1 = refs
    /\ (forall r x, (r, x) ∈ items -> objects h !! r = Some x)
    /\ filter_list (fun item => all_apply apply filters item.2) items = Ok kept
    /\ new = fresh (dom (lists h))
    /\ h' = {| objects := objects h; lists := <[new := kept.*1]> (lists h) |}.
Proof.
  intros Hl Hrun. unfold _filter_funding_requests in Hrun.
  destruct (deref h l) as [items|] eqn:Hderef; [| discriminate].
  injection Hrun as Hrun. inv_bind Hrun. injection Hrun as <- <-.
  exists items, a. repeat split; try done.
  - unfold deref in Hderef. rewrite Hl in Hderef.
    apply mapM_Some_1 in Hderef. clear Hl Ha.
    induction Hderef as [|r [r' x] refs' items' Hrx _ IH]; [done |].
    rewrite fmap_cons, IH. simpl.
    destruct (objects h !! r); [| discriminate]. by injection Hrx as -> _.
  - unfold deref in Hderef. rewrite Hl in Hderef.
    apply mapM_Some_1 in Hderef. clear Hl Ha.
    induction Hderef as [|r [r' x] refs' items' Hrx _ IH];
      intros r0 x0 Hin; [inversion Hin |].
    apply elem_of_cons in Hin as [Heq | Hin]; [| by apply IH].
    injection Heq as -> ->.
    destruct (objects h !! r) eqn:Hobj; [| discriminate].
    injection Hrx as <- <-. done.
Qed.

Lemma filter_funding_requests_returns (h : Heap FundingRequest) (l : loc)
    (refs : list loc) (filters : list Filter) :
  lists h !! l = Some refs ->
  (forall r, r ∈ refs -> is_Some (objects h !! r)) ->
  (forall r x filter_, r ∈ refs -> objects h !! r = Some x -> filter_ ∈ filters ->
                       is_ok (apply filter_ x)) ->
  exists new h', _filter_funding_requests apply h l filters = Some (Ok (new, h')).
Proof.
  intros Hl Hrefs Hok.
  destruct (deref_allocated h l refs Hl Hrefs) as (items & Hderef & Hfst & Hobj).
  unfold _filter_funding_requests. rewrite Hderef.
  assert (Hrun : is_ok (filter_list (fun item => all_apply apply filters item.2) items)).
  { apply filter_list_returns. intros [r x] Hin. apply all_apply_returns.
    intros f Hf. apply (Hok r x f); [| by apply Hobj | done].
    rewrite <- Hfst. apply list_elem_of_fmap. by exists (r, x). }
  apply is_ok_Ok in Hrun as [kept ->]. simpl. eauto.
Qed.

Lemma fresh_list_unallocated (h : Heap FundingRequest) :
  lists h !! fresh (dom (lists h)) = None.
Proof. apply not_elem_of_dom, is_fresh. Qed.

(** C1. A request is accepted by a filter set exactly when every filter's
    [apply] returns true on it; one filter returning false excludes it
    whatever the others return; and the accepted requests do not depend on
    the order of the filters: on a batch on which the filters return, the
    evaluation returns the list of the requests every filter accepts, the
    same list for any reordering of the filters. *)
Theorem filter_set_is_conjunction (filters filters' : list Filter)
    (h : Heap FundingRequest) (l : loc) (refs : list loc) :
  filters ≡ₚ filters' ->
  lists h !! l = Some refs ->
  (forall r, r ∈ refs -> is_Some (objects h !! r)) ->
  (forall r x filter_, r ∈ refs -> objects h !! r = Some x -> filter_ ∈ filters ->
                       is_ok (apply filter_ x)) ->
  (forall x, all_apply apply filters x = Ok true
             <-> forall filter_, filter_ ∈ filters -> apply filter_ x = Ok true)
  /\ (forall x filter_, filter_ ∈ filters -> apply filter_ x = Ok false ->
                        all_apply apply filters x <> Ok true)
  /\ (forall x, all_apply apply filters x = Ok true
                <-> all_apply apply filters' x = Ok true)
  /\ exists new h' kept,
       _filter_funding_requests apply h l filters = Some (Ok (new, h'))
       /\ _filter_funding_requests apply h l filters' = Some (Ok (new, h'))
       /\ lists h' !! new = Some kept
       /\ forall r, r ∈ kept
                    <-> r ∈ refs
                        /\ exists x, objects h !! r = Some x
                                     /\ forall filter_, filter_ ∈ filters ->
                                                        apply filter_ x = Ok true.
Proof.
  intros Hperm Hl Hrefs Hok. split; [| split; [| split]].
  - intros x. apply all_apply_true.
  - intros x f Hf Hfalse Hall.
    rewrite all_apply_true in Hall. specialize (Hall f Hf). congruence.
  - intros x. by apply all_apply_permutation.
  - destruct (filter_funding_requests_returns h l refs filters Hl Hrefs Hok)
      as (new & h' & Hrun).
    destruct (filter_funding_requests_inv h l refs filters new h' Hl Hrun)
      as (items & kept & Hderef & Hfst & Hobj & Hkept & -> & ->).
    eexists _, _, (kept.*1).
    split; [exact Hrun |]. split; [| split].
    + unfold _filter_funding_requests. rewrite Hderef.
      rewrite (filter_list_ext _ (fun item => all_apply apply filters item.2)).
      * rewrite Hkept. reflexivity.
      * intros [r x] Hin. simpl. symmetry. apply all_apply_permutation_eq; [done |].
        intros f Hf. apply (Hok r x f); [| by apply Hobj | done].
        rewrite <- Hfst. apply list_elem_of_fmap. by exists (r, x).
    + simpl. apply lookup_insert_eq.
    + intros r. rewrite list_elem_of_fmap. split.
      * intros ([r' x] & -> & Hin). simpl.
        apply (filter_list_elem_of _ _ _ Hkept) in Hin as [Hin Hall]. simpl in Hall.
        split; [rewrite <- Hfst; apply list_elem_of_fmap; by exists (r', x) |].
        exists x. split; [by apply Hobj | by apply all_apply_true].
      * intros (Hr & x & Hx & Hall).
        rewrite <- Hfst in Hr. apply list_elem_of_fmap in Hr as ([r' x'] & -> & Hin).
        simpl in *. pose proof (Hobj _ _ Hin) as Hx'. rewrite Hx in Hx'.
        injection Hx' as <-. exists (r', x). split; [done |].
        apply (filter_list_elem_of _ _ _ Hkept). split; [done |].
        simpl. by apply all_apply_true.
Qed.

(** C10. On well-formed input the evaluation returns a new list object
    holding a subsequence of the input list: every returned request occurs
    in the input, in the input's order, none is introduced or duplicated;
    the input list object, every other list and every request object are
    left as they were. It returns whenever the filters do. *)
Theorem filter_returns_subsequence (filters : list Filter)
    (h : Heap FundingRequest) (l : loc) (refs : list loc) :
  lists h !! l = Some refs ->
  (forall r, r ∈ refs -> is_Some (objects h !! r)) ->
  ((forall r x filter_, r ∈ refs -> objects h !! r = Some x -> filter_ ∈ filters ->
                        is_ok (apply filter_ x)) ->
   exists new h', _filter_funding_requests apply h l filters = Some (Ok (new, h')))
  /\ forall new h',
       _filter_funding_requests apply h l filters = Some (Ok (new, h')) ->
       exists kept,
         lists h' !! new = Some kept
         /\ kept `sublist_of` refs
         /\ (forall r, r ∈ kept -> r ∈ refs)
         /\ (NoDup refs -> NoDup kept)
         /\ (length kept <= length refs)%nat
         /\ new <> l
         /\ lists h' !! l = Some refs
         /\ (forall l', l' <> new -> lists h' !! l' = lists h !! l')
         /\ objects h' = objects h.
Proof.
  intros Hl Hrefs. split.
  - by apply filter_funding_requests_returns.
  - intros new h' Hrun.
    destruct (filter_funding_requests_inv h l refs filters new h' Hl Hrun)
      as (items & kept & Hderef & Hfst & Hobj & Hkept & -> & ->).
    assert (Hsub : kept.*1 `sublist_of` refs).
    { rewrite <- Hfst. apply fmap_sublist. by eapply filter_list_sublist. }
    assert (Hnew : fresh (dom (lists h)) <> l).
    { intros Heq. pose proof (fresh_list_unallocated h) as Hfresh.
      rewrite Heq in Hfresh. congruence. }
    exists (kept.*1). simpl. repeat split.
    + apply lookup_insert_eq.
    + exact Hsub.
    + intros r Hr. by eapply elem_of_sublist.
    + intros Hnodup. by eapply sublist_NoDup.
    + by apply sublist_length.
    + exact Hnew.
    + by rewrite lookup_insert_ne.
    + intros l' Hl'. by rewrite lookup_insert_ne.
Qed.

End EvaluationFacts.

(** Witness of C1: two score filters in both orders on a batch of three. *)
Lemma filter_set_is_conjunction_witness :
  exists new h' kept,
    Cumplo._filter_funding_requests Samples.minimum_score_apply Samples.heap 7%positive
      [8; 15] = Some (Ok (new, h'))
    /\ Cumplo._filter_funding_requests Samples.minimum_score_apply Samples.heap 7%positive
         [15; 8] = Some (Ok (new, h'))
    /\ Cumplo.lists h' !! new = Some kept
    /\ forall r, r ∈ kept
                 <-> r ∈ [1; 2; 3]%positive
                     /\ exists x, Cumplo.objects Samples.heap !! r = Some x
                                  /\ forall filter_, filter_ ∈ [8; 15] ->
                                       Samples.minimum_score_apply filter_ x = Ok true.
Proof.
  apply (filter_set_is_conjunction Samples.minimum_score_apply [8; 15] [15; 8]
           Samples.heap 7%positive [1; 2; 3]%positive).
  - apply perm_swap.
  - reflexivity.
  - intros r Hr.
    repeat (apply elem_of_cons in Hr as [-> | Hr]; [vm_compute; eauto |]).
    inversion Hr.
  - intros; exact I.
Defined.

(** Witness of C10: the same batch, filtered by one score filter. *)
Lemma filter_returns_subsequence_witness :
  exists new h',
    Cumplo._filter_funding_requests Samples.minimum_score_apply Samples.heap 7%positive
      [8] = Some (Ok (new, h')).
Proof.
  apply (filter_returns_subsequence Samples.minimum_score_apply [8]
           Samples.heap 7%positive [1; 2; 3]%positive).
  - reflexivity.
  - intros r Hr.
    repeat (apply elem_of_cons in Hr as [-> | Hr]; [vm_compute; eauto |]).
    inversion Hr.
  - intros; exact I.
Defined.

Example filter_funding_requests_sample :
  (Cumplo._filter_funding_requests Samples.minimum_score_apply Samples.heap 7%positive
     [8; 15])
  = Some (Ok (8%positive,
              {| Cumplo.objects := Cumplo.objects Samples.heap;
                 Cumplo.lists := <[8%positive := [2%positive]]>
                                   (Cumplo.lists Samples.heap) |})).
Proof. vm_compute. reflexivity. Qed.

(* ===================================================================== *)
(** ** Multi-configuration dispatch (the two routers) *)
(* ===================================================================== *)

Section PromisingFacts.
Import Routers.
Context {FundingRequest : Type} `{Countable FundingRequest}.
Context {Key : Type} `{Countable Key}.
Context {Configuration : Type}.
Variable filter_ : list FundingRequest -> Configuration -> result (list FundingRequest).

Implicit Types (promising : gset FundingRequest) (payload : list FundingRequest).
Implicit Types (configurations : list Configuration).

Lemma update_all_elem_of promising payload configurations (s : gset FundingRequest) :
  update_all filter_ promising payload configurations = Ok s ->
  forall x, x ∈ s
            <-> x ∈ promising
                \/ exists c accepted, c ∈ configurations
                                      /\ filter_ payload c = Ok accepted
                                      /\ x ∈ accepted.
Proof.
  revert promising. induction configurations as [|c rest IH]; simpl;
    intros promising Hrun x.
  - injection Hrun as <-. split; [auto |].
    intros [? | (c & ? & Hc & _)]; [done | inversion Hc].
  - inv_bind Hrun. rewrite (IH _ Hrun x), elem_of_union, elem_of_list_to_set.
    split.
    + intros [[? | ?] | (c' & acc & Hc' & Hacc & Hx)]; auto.
      * right. exists c, a. split; [left | done].
      * right. exists c', acc. split; [by right | done].
    + intros [? | (c' & acc & Hc' & Hacc & Hx)]; auto.
      apply elem_of_cons in Hc' as [-> | Hc'].
      * left. right. congruence.
      * right. eauto.
Qed.

Lemma update_all_returns promising payload configurations :
  (forall c, c ∈ configurations -> is_ok (filter_ payload c)) ->
  is_ok (update_all filter_ promising payload configurations).
Proof.
  revert promising. induction configurations as [|c rest IH]; simpl;
    intros promising Hok; [done |].
  pose proof (Hok c ltac:(left)) as Hc.
  destruct (filter_ payload c); simpl in *; [| done].
  apply IH. intros c' Hc'. apply Hok. by right.
Qed.

Lemma elem_of_values (d : gmap Key Configuration) (c : Configuration) :
  c ∈ values d <-> exists k, d !! k = Some c.
Proof.
  unfold values. rewrite list_elem_of_fmap. split.
  - intros ([k c'] & -> & Hin). exists k. by apply elem_of_map_to_list.
  - intros [k Hk]. exists (k, c). split; [done | by apply elem_of_map_to_list].
Qed.

(** C2 (amended). When the per-configuration evaluation returns for each
    of the user's configurations, the handler of routers/funding_requests.py
    returns the set union, over the configurations, of the requests each
    one accepts, every request once; the handler of public.py returns the
    same set for a user with at least one configuration, and the whole
    payload (as a set) for a user with none. *)
Theorem promising_is_union (d : gmap Key Configuration) payload :
  (forall c, c ∈ values d -> is_ok (filter_ payload c)) ->
  exists s : gset FundingRequest,
    filter_funding_requests filter_ d payload = Ok s
    /\ (forall x, x ∈ s
                  <-> exists k c accepted, d !! k = Some c
                                           /\ filter_ payload c = Ok accepted
                                           /\ x ∈ accepted)
    /\ NoDup (elements s)
    /\ (d <> ∅ -> _filter_funding_requests filter_ d payload = Ok s)
    /\ (d = ∅ -> _filter_funding_requests filter_ d payload
                 = Ok (list_to_set payload)).
Proof.
  intros Hok.
  pose proof (update_all_returns ∅ payload (values d) Hok) as Hrun.
  apply is_ok_Ok in Hrun as [s Hs].
  exists s. split; [exact Hs |]. split; [| split; [| split]].
  - intros x. rewrite (update_all_elem_of _ _ _ _ Hs x). split.
    + intros [Hx | (c & acc & Hc & Hacc & Hx)]; [set_solver |].
      apply elem_of_values in Hc as [k Hk]. eauto 6.
    + intros (k & c & acc & Hk & Hacc & Hx). right.
      exists c, acc. split; [apply elem_of_values; eauto | done].
  - apply NoDup_elements.
  - intros Hne. unfold _filter_funding_requests.
    by rewrite bool_decide_eq_true_2.
  - intros ->. unfold _filter_funding_requests, values.
    rewrite bool_decide_eq_false_2 by (intros Hne; by apply Hne).
    by rewrite map_to_list_empty.
Qed.

End PromisingFacts.

(** Witness of C2: configuration A accepts {1,2} and B accepts {2,3}. *)
Lemma promising_is_union_witness :
  exists s : gset Z,
    Routers.filter_funding_requests Samples.accept_ids Samples.configurations_A_B
      [1; 2; 3; 4] = Ok s
    /\ (forall x, x ∈ s
                  <-> exists k c accepted,
                        Samples.configurations_A_B !! k = Some c
                        /\ Samples.accept_ids [1; 2; 3; 4] c = Ok accepted
                        /\ x ∈ accepted)
    /\ NoDup (elements s)
    /\ (Samples.configurations_A_B <> ∅ ->
        Routers._filter_funding_requests Samples.accept_ids Samples.configurations_A_B
          [1; 2; 3; 4] = Ok s)
    /\ (Samples.configurations_A_B = ∅ ->
        Routers._filter_funding_requests Samples.accept_ids Samples.configurations_A_B
          [1; 2; 3; 4] = Ok (list_to_set [1; 2; 3; 4])).
Proof.
  apply (promising_is_union Samples.accept_ids Samples.configurations_A_B [1; 2; 3; 4]).
  intros c _. exact I.
Defined.

Example promising_A_B :
  Routers.filter_funding_requests Samples.accept_ids Samples.configurations_A_B
    [1; 2; 3; 4] = Ok ({[ 1; 2; 3 ]} : gset Z)
  /\ Routers._filter_funding_requests Samples.accept_ids Samples.configurations_A_B
       [1; 2; 3; 4] = Ok ({[ 1; 2; 3 ]} : gset Z).
Proof. split; vm_compute; reflexivity. Qed.

(** C2 as stated fails on public.py: for a user without configurations the
    handler keeps the whole payload, although no configuration accepts
    anything; the union over the user's configurations is empty. *)
Lemma public_without_filters_keeps_payload :
  Routers._filter_funding_requests Samples.accept_ids Samples.no_configurations [1; 2]
  = Ok ({[ 1; 2 ]} : gset Z)
  /\ (1 ∈ ({[ 1; 2 ]} : gset Z))
  /\ ~ (exists k c accepted,
          Samples.no_configurations !! k = Some c
          /\ Samples.accept_ids [1; 2] c = Ok accepted
          /\ 1 ∈ accepted)
  /\ Routers.filter_funding_requests Samples.accept_ids Samples.no_configurations [1; 2]
     = Ok (∅ : gset Z).
Proof.
  split; [vm_compute; reflexivity |]. split; [set_solver |]. split.
  - intros (k & c & acc & Hk & _). unfold Samples.no_configurations in Hk.
    by rewrite lookup_empty in Hk.
  - vm_compute. reflexivity.
Qed.

(* ===================================================================== *)
(** ** The filters (cumplo_spotter/models/filter.py) *)
(* ===================================================================== *)

Section FilterFacts.
Import Filters.

Implicit Types (c : Configuration.t) (x : FundingRequest) (k : FilterClass).

(** With every threshold unset, each of the twelve threshold filters
    returns true. *)
Lemma threshold_filters_pass_when_unset c x k :
  thresholds_unset c -> has_threshold k = true ->
  apply {| class := k; configuration := c |} x = Ok true.
Proof.
  intros (Hct & Hinv & Hsc & Hmp & Hirr & Hmin & Hmax & Hcr & Ham & Hdel & Hbp & Hdp) Hk.
  destruct k; try discriminate Hk; unfold apply; simpl.
  - unfold CreditTypeFilter_apply. by rewrite Hct.
  - unfold MinimumInvestmentFilter_apply. by rewrite Hinv.
  - unfold MinimumScoreFilter_apply. by rewrite Hsc.
  - unfold MinimumMonthlyProfitFilter_apply. by rewrite Hmp.
  - unfold MinimumIRRFilter_apply. by rewrite Hirr.
  - unfold MinimumDurationFilter_apply. by rewrite Hmin.
  - unfold MaximumDurationFilter_apply. by rewrite Hmax.
  - unfold MinimumCreditsRequestedFilter_apply. by rewrite Hcr.
  - unfold MinimumAmountRequestedFilter_apply. by rewrite Ham.
  - unfold BorrowerMaximumAverageDaysDelinquentFilter_apply.
    destruct (Configuration.borrower c) as [b|]; [| done].
    simpl in Hdel. by rewrite Hdel.
  - unfold BorrowerMinimumPaidInTimeFilter_apply.
    destruct (Configuration.borrower c) as [b|]; [| done].
    simpl in Hbp. by rewrite Hbp.
  - unfold DebtorMinimumPaidInTimeFilter_apply.
    destruct (Configuration.debtor c) as [d|]; [| done].
    simpl in Hdp. by rewrite Hdp.
Qed.

(** With its toggle set, a DICOM filter returns true. *)
Lemma dicom_filters_pass_when_ignored c x k :
  dicom_ignored c -> has_threshold k = false ->
  apply {| class := k; configuration := c |} x = Ok true.
Proof.
  intros [Hd Hb] Hk. destruct k; try discriminate Hk; unfold apply; simpl.
  - unfold DebtorDicomFilter_apply.
    destruct (Configuration.debtor c) as [d|]; [| discriminate].
    simpl in *. injection Hd as ->. done.
  - unfold BorrowerDicomFilter_apply.
    destruct (Configuration.borrower c) as [b|]; [| discriminate].
    simpl in *. injection Hb as ->. done.
Qed.

Lemma filter_list_all_true {A : Type} (predicate : A -> result bool) (items : list A) :
  (forall item, item ∈ items -> predicate item = Ok true) ->
  Cumplo.filter_list predicate items = Ok items.
Proof.
  induction items as [|y rest IH]; simpl; [done |]. intros Hall.
  rewrite (Hall y) by left. simpl. rewrite IH; [done |].
  intros item Hitem. apply Hall. by right.
Qed.

(** C3 (amended). In a configuration with every threshold unset, each of
    the twelve threshold filters returns true on every request; the two
    DICOM filters have no threshold but a toggle, and return true when it
    is set; so with every threshold unset and both toggles set, all
    fourteen filters return true and the evaluation of any set of these
    filters returns a list with exactly the input requests. *)
Theorem unset_configuration_is_identity c :
  thresholds_unset c ->
  (forall x k, has_threshold k = true ->
               apply {| class := k; configuration := c |} x = Ok true)
  /\ (dicom_ignored c ->
      (forall x k, apply {| class := k; configuration := c |} x = Ok true)
      /\ forall (filters : list Filter) (h : Cumplo.Heap FundingRequest)
                (l : positive) (refs : list positive),
           (forall filter_, filter_ ∈ filters -> configuration filter_ = c) ->
           Cumplo.lists h !! l = Some refs ->
           (forall r, r ∈ refs -> is_Some (Cumplo.objects h !! r)) ->
           exists new h',
             Cumplo._filter_funding_requests apply h l filters = Some (Ok (new, h'))
             /\ Cumplo.lists h' !! new = Some refs).
Proof.
  intros Hunset. split.
  - intros x k. by apply threshold_filters_pass_when_unset.
  - intros Hignored.
    assert (Hall : forall x k, apply {| class := k; configuration := c |} x = Ok true).
    { intros x k. destruct (has_threshold k) eqn:Hk.
      - by apply threshold_filters_pass_when_unset.
      - by apply dicom_filters_pass_when_ignored. }
    split; [exact Hall |].
    intros filters h l refs Hcfg Hl Hrefs.
    destruct (deref_allocated h l refs Hl Hrefs) as (items & Hderef & Hfst & Hobj).
    unfold Cumplo._filter_funding_requests. rewrite Hderef.
    rewrite filter_list_all_true.
    + simpl. eexists _, _. split; [reflexivity |]. simpl.
      rewrite lookup_insert_eq. by rewrite Hfst.
    + intros [r x] _. simpl. apply all_apply_true. intros [k c'] Hf.
      specialize (Hcfg _ Hf). simpl in Hcfg. subst c'. apply Hall.
Qed.

End FilterFacts.

(** Witness of C3: the permissive configuration on the sample request. *)
Lemma unset_configuration_is_identity_witness :
  (forall k, Filters.apply (Samples.filter_of k Samples.configuration_permissive)
               Samples.request = Ok true)
  /\ exists new h',
       Cumplo._filter_funding_requests Filters.apply Samples.request_heap 2%positive
         (map (fun k => Samples.filter_of k Samples.configuration_permissive)
            Filters.all_classes)
       = Some (Ok (new, h'))
       /\ Cumplo.lists h' !! new = Some [1%positive].
Proof.
  assert (Hunset : Filters.thresholds_unset Samples.configuration_permissive).
  { vm_compute. repeat split; reflexivity. }
  assert (Hignored : Filters.dicom_ignored Samples.configuration_permissive).
  { split; reflexivity. }
  destruct (unset_configuration_is_identity Samples.configuration_permissive Hunset)
    as [_ Hrest].
  destruct (Hrest Hignored) as [Hall Hbatch]. split.
  - intros k. apply Hall.
  - apply Hbatch.
    + intros f Hf.
      repeat (apply elem_of_cons in Hf as [-> | Hf]; [reflexivity |]).
      inversion Hf.
    + reflexivity.
    + intros r Hr. apply list_elem_of_singleton in Hr as ->. vm_compute. eauto.
Defined.

(** C3 as stated fails: with every threshold unset (and the DICOM toggles
    unset as well), [BorrowerDicomFilter] rejects a request whose borrower is
    flagged, and the evaluation of the fourteen filters drops it. *)
Lemma unset_configuration_rejects_dicom :
  Filters.thresholds_unset Samples.configuration_unset
  /\ Filters.apply (Samples.filter_of Filters.BorrowerDicomFilter Samples.configuration_unset)
       Samples.request = Ok false
  /\ Cumplo._filter_funding_requests Filters.apply Samples.request_heap 2%positive
       (map (fun k => Samples.filter_of k Samples.configuration_unset) Filters.all_classes)
     = Some (Ok (3%positive,
                 {| Cumplo.objects := Cumplo.objects Samples.request_heap;
                    Cumplo.lists := <[3%positive := []]>
                                      (Cumplo.lists Samples.request_heap) |})).
Proof.
  split; [vm_compute; repeat split; reflexivity |].
  split; vm_compute; reflexivity.
Qed.

Section SignalFacts.
Import Filters.

Implicit Types (c : Configuration.t) (x : FundingRequest) (k : FilterClass).

(** A missing average of delinquent days never blocks. *)
Lemma delinquency_filter_tolerates_null c x :
  Borrower.average_days_delinquent (borrower x) = None ->
  BorrowerMaximumAverageDaysDelinquentFilter_apply c x = Ok true.
Proof.
  intros Hnull. unfold BorrowerMaximumAverageDaysDelinquentFilter_apply.
  destruct (Configuration.borrower c) as [b|]; [| done].
  rewrite Hnull. simpl. by destruct (negb _).
Qed.

(** A missing paid-in-time percentage of the borrower never blocks. *)
Lemma borrower_paid_in_time_filter_tolerates_null c x :
  Portfolio.paid_in_time (Borrower.portfolio (borrower x)) = None ->
  BorrowerMinimumPaidInTimeFilter_apply c x = Ok true.
Proof.
  intros Hnull. unfold BorrowerMinimumPaidInTimeFilter_apply.
  destruct (Configuration.borrower c) as [b|]; [| done].
  rewrite Hnull. simpl. by repeat destruct (negb _).
Qed.

(** With its threshold configured, the debtor filter raises on every
    request: the attribute [debtor] does not exist. *)
Lemma debtor_paid_in_time_filter_raises c x d (minimum : Q) :
  Configuration.debtor c = Some d ->
  DebtorConfiguration.minimum_paid_in_time_percentage d = Some minimum ->
  Qeq_bool minimum 0 = false ->
  DebtorMinimumPaidInTimeFilter_apply c x = Raise (AttributeError "debtor").
Proof.
  intros Hd Hmin Hnz. unfold DebtorMinimumPaidInTimeFilter_apply.
  rewrite Hd, Hmin. simpl. by rewrite Hnz.
Qed.

(** The [any(...)] of the debtor filter is false when no debtor has a
    paid-in-time percentage. *)
Lemma any_debtor_paid_in_time_all_null x (minimum : Q) :
  (forall debtor, debtor ∈ debtors x ->
                  Portfolio.paid_in_time (Debtor.portfolio debtor) = None) ->
  any_debtor_paid_in_time x minimum = false.
Proof.
  unfold any_debtor_paid_in_time. induction (debtors x) as [|d rest IH]; [done |].
  intros Hnull. simpl. rewrite (Hnull d) by left. simpl.
  apply IH. intros d' Hd'. apply Hnull. by right.
Qed.

(** The filters that can raise are the debtor paid-in-time filter and the
    two DICOM filters; the other eleven return on every input. *)
Lemma other_filters_return c x k :
  k ∉ [DebtorMinimumPaidInTimeFilter; DebtorDicomFilter; BorrowerDicomFilter] ->
  is_ok (apply {| class := k; configuration := c |} x).
Proof.
  intros Hk. destruct k; unfold apply; simpl;
    try (exfalso; apply Hk; set_solver).
  - unfold CreditTypeFilter_apply. by destruct (Configuration.target_credit_types c).
  - unfold MinimumInvestmentFilter_apply.
    by destruct (Configuration.minimum_investment_amount c).
  - unfold MinimumScoreFilter_apply. by destruct (Configuration.minimum_score c).
  - unfold MinimumMonthlyProfitFilter_apply.
    by destruct (Configuration.minimum_monthly_profit_rate c).
  - unfold MinimumIRRFilter_apply. by destruct (Configuration.minimum_irr c).
  - unfold MinimumDurationFilter_apply. by destruct (Configuration.minimum_duration c).
  - unfold MaximumDurationFilter_apply. by destruct (Configuration.maximum_duration c).
  - unfold MinimumCreditsRequestedFilter_apply.
    by destruct (Configuration.minimum_requested_credits c) as [z|]; simpl;
      [destruct (negb (negb (z =? 0))) |].
  - unfold MinimumAmountRequestedFilter_apply.
    by destruct (Configuration.minimum_requested_amount c) as [z|]; simpl;
      [destruct (negb (negb (z =? 0))) |].
  - unfold BorrowerMaximumAverageDaysDelinquentFilter_apply.
    destruct (Configuration.borrower c) as [b|]; [| done].
    destruct (negb _); [done |].
    destruct (truthy_int _); [| done].
    by destruct (Borrower.average_days_delinquent _),
      (BorrowerConfiguration.maximum_average_days_delinquent b).
  - unfold BorrowerMinimumPaidInTimeFilter_apply.
    destruct (Configuration.borrower c) as [b|]; [| done].
    destruct (negb _); [done |]. destruct (negb _); [done |].
    destruct (truthy_decimal _); [| done].
    by destruct (Portfolio.paid_in_time _),
      (BorrowerConfiguration.minimum_paid_in_time_percentage b).
Qed.

End SignalFacts.

(** C5, at the failing input: the three thresholds are configured and the
    request has no delinquency average and no paid-in-time percentage, for
    the borrower or for its only debtor. The two borrower filters pass the
    request; the debtor filter does not: it raises, and the [any(...)] it
    would return is false. *)
Theorem debtor_filter_blocks_missing_signal :
  Filters.Borrower.average_days_delinquent (Filters.borrower Samples.request) = None
  /\ Filters.Portfolio.paid_in_time
       (Filters.Borrower.portfolio (Filters.borrower Samples.request)) = None
  /\ Forall (fun debtor =>
               Filters.Portfolio.paid_in_time (Filters.Debtor.portfolio debtor) = None)
       (Filters.debtors Samples.request)
  /\ Filters.apply
       (Samples.filter_of Filters.BorrowerMaximumAverageDaysDelinquentFilter
          Samples.configuration_signals) Samples.request = Ok true
  /\ Filters.apply
       (Samples.filter_of Filters.BorrowerMinimumPaidInTimeFilter
          Samples.configuration_signals) Samples.request = Ok true
  /\ Filters.apply
       (Samples.filter_of Filters.DebtorMinimumPaidInTimeFilter
          Samples.configuration_signals) Samples.request
     = Raise (AttributeError "debtor")
  /\ Filters.any_debtor_paid_in_time Samples.request (50 # 1)%Q = false.
Proof.
  repeat split; try reflexivity.
  repeat constructor.
Qed.

(** C8, at the failing inputs: [DebtorMinimumPaidInTimeFilter] with its
    threshold configured raises [AttributeError] on a request that carries a
    list of debtors, and so does the evaluation of a batch through it; the
    two DICOM filters raise on a configuration without debtor or borrower
    section. *)
Theorem filters_raise_on_typed_input :
  Filters.apply
    (Samples.filter_of Filters.DebtorMinimumPaidInTimeFilter Samples.configuration_signals)
    Samples.request = Raise (AttributeError "debtor")
  /\ Cumplo._filter_funding_requests Filters.apply Samples.request_heap 2%positive
       [Samples.filter_of Filters.DebtorMinimumPaidInTimeFilter
          Samples.configuration_signals]
     = Some (Raise (AttributeError "debtor"))
  /\ Filters.apply
       (Samples.filter_of Filters.DebtorDicomFilter Samples.configuration_without_sections)
       Samples.request = Raise (AttributeError "ignore_debtor_dicom")
  /\ Filters.apply
       (Samples.filter_of Filters.BorrowerDicomFilter Samples.configuration_without_sections)
       Samples.request = Raise (AttributeError "ignore_borrower_dicom").
Proof. repeat split; vm_compute; reflexivity. Qed.

(* ===================================================================== *)
(** ** Construction and enrichment *)
(* ===================================================================== *)

Section PreprocessFacts.
Import Model.
Variable markers : DicomMarker.
Variable clean_text : string -> string.

Lemma getitem_dict (d : gmap string raw) (k : string) (v : raw) :
  d !! k = Some v -> getitem (RDict d) k = Ok v.
Proof. intros Hk. unfold getitem. by rewrite Hk. Qed.

Lemma set_debtors_dicom_dicts (debtors : list (gmap string raw)) (flag : option bool) :
  set_debtors_dicom (RList (RDict <$> debtors)) flag
  = Ok (RList ((fun debtor => RDict (<["dicom"%string := raw_of_flag flag]> debtor))
                 <$> debtors)).
Proof.
  unfold set_debtors_dicom.
  assert (Hmap : mapM_result (fun debtor => setitem debtor "dicom" (raw_of_flag flag))
                   (RDict <$> debtors)
                 = Ok ((fun debtor => RDict (<["dicom"%string := raw_of_flag flag]> debtor))
                         <$> debtors)).
  { induction debtors as [|d rest IH]; [done |].
    rewrite !fmap_cons. cbn [mapM_result]. rewrite IH. reflexivity. }
  by rewrite Hmap.
Qed.

(** On a payload with a described borrower and a list of debtors, the
    pre-validation hook returns the payload with the borrower flag written
    on the borrower and the debtor flag on every debtor. *)
Lemma preprocess_data_writes_dicom (d solicitante : gmap string raw)
    (debtors : list (gmap string raw)) (text : string) :
  d !! "solicitante"%string = Some (RDict solicitante) ->
  solicitante !! "descripcion"%string = Some (RStr text) ->
  d !! "pagadores"%string = Some (RList (RDict <$> debtors)) ->
  _preprocess_data markers clean_text (RDict d)
  = Ok (RDict
          (<["pagadores"%string :=
               RList ((fun debtor =>
                         RDict (<["dicom"%string :=
                                    raw_of_flag
                                      (dicom_of_description markers (clean_text text)).1]>
                                  debtor)) <$> debtors)]>
             (<["solicitante"%string :=
                  RDict (<["dicom"%string :=
                             raw_of_flag
                               (dicom_of_description markers (clean_text text)).2]>
                           solicitante)]> d))).
Proof.
  intros Hsol Hdesc Hpag.
  unfold _preprocess_data, _set_dicom_status, _identify_dicom_status.
  rewrite !(getitem_dict _ _ _ Hsol). cbn [Py.bind].
  rewrite (getitem_dict _ _ _ Hdesc). cbn [Py.bind].
  destruct (dicom_of_description markers (clean_text text)) as [deb bor].
  cbn [Py.bind setitem fst snd].
  rewrite (getitem_dict _ "pagadores" (RList (RDict <$> debtors)))
    by (by rewrite lookup_insert_ne).
  cbn [Py.bind]. rewrite set_debtors_dicom_dicts. reflexivity.
Qed.

End PreprocessFacts.

Section GatherFacts.
Import Cumplo.
Context {CreditHistory BorrowerData RequestData : Type}.
Variable get_credit_history : Z -> result CreditHistory.

Local Abbreviation Request := (@FundingRequest CreditHistory BorrowerData RequestData).
Local Abbreviation fetched := (fetched get_credit_history).
Local Abbreviation enriched := (enriched get_credit_history).

Lemma mapM_result_Ok {A B : Type} (f : A -> result B) (l : list A) (ys : list B) :
  Model.mapM_result f l = Ok ys <-> Forall2 (fun x y => f x = Ok y) l ys.
Proof.
  revert ys. induction l as [|x rest IH]; intros ys; cbn [Model.mapM_result].
  - split; [intros [= <-]; constructor | by inversion 1].
  - destruct (f x) as [y|e] eqn:Hx; cbn [bind].
    + destruct (Model.mapM_result f rest) as [ys'|e] eqn:Hrest; cbn [bind].
      * split.
        -- intros [= <-]. constructor; [done | by apply IH].
        -- inversion 1 as [|? y0 ? ys0 Hy0 Hall]; subst.
           rewrite Hx in Hy0. injection Hy0 as <-.
           apply IH in Hall. by injection Hall as <-.
      * split; [done |]. inversion 1 as [|? y0 ? ys0 Hy0 Hall]; subst.
        by apply IH in Hall.
    + split; [done |]. inversion 1 as [|? y0 ? ys0 Hy0 Hall]; subst. congruence.
Qed.

Lemma mapM_result_Raise {A B : Type} (f : A -> result B) (l : list A) (e : exn) :
  Model.mapM_result f l = Raise e -> exists x, x ∈ l /\ f x = Raise e.
Proof.
  induction l as [|x rest IH]; cbn [Model.mapM_result]; [done |].
  destruct (f x) as [y|e'] eqn:Hx; cbn [bind].
  - destruct (Model.mapM_result f rest) as [ys'|e'']; cbn [bind]; [done |].
    intros [= ->]. destruct (IH eq_refl) as (x' & Hin & Hx').
    exists x'. split; [by right | done].
  - intros [= ->]. exists x. split; [left | done].
Qed.

Lemma assign_histories_lookup (pairs : list (positive * CreditHistory))
    (objs : gmap positive Request) :
  (forall r ch, (r, ch) ∈ pairs ->
                exists x, objs !! r = Some x /\ get_credit_history (id x) = Ok ch) ->
  exists objs',
    assign_histories objs pairs = Some objs'
    /\ forall r, objs' !! r = enriched pairs.*1 r <$> objs !! r.
Proof.
  revert objs. induction pairs as [|[r0 ch0] rest IH]; intros objs Hpairs.
  - exists objs. split; [done |]. intros r. unfold Cumplo.enriched.
    destruct (objs !! r); [| done]. cbn [fmap option_fmap option_map].
    destruct (decide _) as [Hin |]; [inversion Hin | done].
  - destruct (Hpairs r0 ch0 ltac:(left)) as (x0 & Hx0 & Hch0).
    cbn [assign_histories]. rewrite Hx0.
    destruct (IH (<[r0 := set_history x0 ch0]> objs)) as (objs' & Hrun & Hlook).
    { intros r ch Hin. destruct (Hpairs r ch ltac:(by right)) as (x & Hx & Hch).
      destruct (decide (r = r0)) as [-> | Hne].
      - rewrite lookup_insert_eq. eexists. split; [done |].
        simpl. congruence.
      - rewrite lookup_insert_ne by done. eauto. }
    exists objs'. split; [exact Hrun |]. intros r. rewrite Hlook.
    rewrite fmap_cons. cbn [fst].
    destruct (decide (r = r0)) as [-> | Hne].
    + rewrite lookup_insert_eq, Hx0. cbn [fmap option_fmap option_map].
      f_equal. unfold Cumplo.enriched, Cumplo.fetched.
      rewrite (decide_True (P := r0 ∈ r0 :: rest.*1)) by left.
      cbn [id set_history]. rewrite Hch0.
      by destruct (decide (r0 ∈ rest.*1)).
    + rewrite lookup_insert_ne by done.
      destruct (objs !! r) as [x|]; [| done]. cbn [fmap option_fmap option_map].
      f_equal. unfold Cumplo.enriched.
      destruct (decide (r ∈ rest.*1)) as [Hin | Hnin].
      * by rewrite decide_True by (by right).
      * rewrite decide_False; [done |].
        intros [? | ?]%elem_of_cons; done.
Qed.

(** The ids of an allocated batch. *)
Lemma batch_ids (h : Heap Request) (refs : list positive) :
  (forall r, r ∈ refs -> is_Some (objects h !! r)) ->
  exists ids,
    mapM (fun r => id <$> objects h !! r) refs = Some ids
    /\ Forall2 (fun r i => exists x, objects h !! r = Some x /\ i = id x) refs ids.
Proof.
  intros Hrefs. induction refs as [|r rest IH].
  - exists []. split; [done | constructor].
  - destruct IH as (ids & Hmap & Hall).
    { intros r' Hr'. apply Hrefs. by right. }
    destruct (Hrefs r ltac:(left)) as [x Hx].
    exists (id x :: ids). split.
    + simpl. rewrite Hx. simpl. rewrite Hmap. reflexivity.
    + constructor; eauto.
Qed.

(** A run whose fetches return. *)
Lemma gather_full_funding_requests_lookup (h : Heap Request) (l : positive)
    (refs : list positive) :
  lists h !! l = Some refs ->
  (forall r, r ∈ refs -> is_Some (objects h !! r)) ->
  (forall r x, r ∈ refs -> objects h !! r = Some x ->
               is_ok (get_credit_history (id x))) ->
  exists h',
    gather_full_funding_requests get_credit_history h l = Some (Ok (l, h'))
    /\ lists h' = lists h
    /\ forall r, objects h' !! r = enriched refs r <$> objects h !! r.
Proof.
  intros Hl Hrefs Hfetch. unfold gather_full_funding_requests. rewrite Hl.
  destruct (batch_ids h refs Hrefs) as (ids & -> & Hall).
  assert (Hhistories : exists credit_histories,
             Forall2 (fun i ch => get_credit_history i = Ok ch) ids credit_histories).
  { clear Hl Hrefs. induction Hall as [|r i refs' ids' (x & Hx & ->) _ IH].
    - exists []. constructor.
    - destruct IH as (chs & Hchs).
      { intros r' x' Hr'. apply Hfetch. by right. }
      pose proof (Hfetch r x ltac:(left) Hx) as Hok.
      destruct (get_credit_history (id x)) as [ch|e] eqn:Hch; [| done].
      exists (ch :: chs). by constructor. }
  destruct Hhistories as (credit_histories & Hhistories).
  rewrite (proj2 (mapM_result_Ok _ _ _) Hhistories).
  destruct (assign_histories_lookup (zip refs credit_histories) (objects h))
    as (objs' & Hrun & Hlook).
  { clear Hl Hrefs Hfetch. revert credit_histories Hhistories.
    induction Hall as [|r i refs' ids' (x & Hx & ->) _ IH];
      intros credit_histories Hhistories r0 ch0 Hin.
    - inversion Hhistories; subst. inversion Hin.
    - inversion Hhistories as [|? ch ? chs Hch Hchs]; subst.
      simpl in Hin. apply elem_of_cons in Hin as [Heq | Hin]; [| by eapply IH].
      injection Heq as -> ->. eauto. }
  rewrite Hrun. eexists. split; [reflexivity |]. split; [reflexivity |].
  intros r. simpl. rewrite Hlook. rewrite fst_zip; [done |].
  apply Forall2_length in Hall. apply Forall2_length in Hhistories. lia.
Qed.

(** What the outcome of the enrichment says about the fetches. *)
Lemma gather_full_funding_requests_outcome (h : Heap Request) (l : positive)
    (refs : list positive) (outcome : result (positive * Heap Request)) :
  lists h !! l = Some refs ->
  gather_full_funding_requests get_credit_history h l = Some outcome ->
  match outcome with
  | Ok _ => forall r x, r ∈ refs -> objects h !! r = Some x ->
                        is_ok (get_credit_history (id x))
  | Raise e => exists r x, r ∈ refs /\ objects h !! r = Some x
                           /\ get_credit_history (id x) = Raise e
  end.
Proof.
  intros Hl. unfold gather_full_funding_requests. rewrite Hl.
  destruct (mapM (fun r => id <$> objects h !! r) refs) as [ids|] eqn:Hids;
    [| discriminate].
  apply mapM_Some in Hids.
  destruct (Model.mapM_result get_credit_history ids) as [credit_histories|e] eqn:Hmap.
  - destruct (assign_histories _ _); [| discriminate]. intros [= <-].
    apply mapM_result_Ok in Hmap. intros r x Hr Hx.
    apply list_elem_of_lookup in Hr as [i Hi].
    destruct (Forall2_lookup_l _ _ _ _ _ Hids Hi) as (n & Hn & Hid).
    rewrite Hx in Hid. simpl in Hid. injection Hid as <-.
    destruct (Forall2_lookup_l _ _ _ _ _ Hmap Hn) as (ch & _ & ->). exact I.
  - intros [= <-]. apply mapM_result_Raise in Hmap as (n & Hn & Hraise).
    apply list_elem_of_lookup in Hn as [i Hi].
    destruct (Forall2_lookup_r _ _ _ _ _ Hids Hi) as (r & Hr & Hid).
    destruct (objects h !! r) as [x|] eqn:Hx; [| discriminate].
    simpl in Hid. injection Hid as <-.
    exists r, x. split; [by eapply list_elem_of_lookup_2 | done].
Qed.

(** A fetch that raises makes the enrichment raise. *)
Lemma gather_full_funding_requests_raises (h : Heap Request) (l : positive)
    (refs : list positive) :
  lists h !! l = Some refs ->
  (forall r, r ∈ refs -> is_Some (objects h !! r)) ->
  (exists r x, r ∈ refs /\ objects h !! r = Some x
               /\ raises (get_credit_history (id x))) ->
  exists e, gather_full_funding_requests get_credit_history h l = Some (Raise e).
Proof.
  intros Hl Hrefs (r & x & Hr & Hx & Hraises).
  destruct (gather_full_funding_requests get_credit_history h l)
    as [[[l' h']|e]|] eqn:Hrun.
  - pose proof (gather_full_funding_requests_outcome h l refs _ Hl Hrun) as Hok.
    simpl in Hok. specialize (Hok r x Hr Hx).
    by destruct (get_credit_history (id x)).
  - eauto.
  - exfalso. unfold gather_full_funding_requests in Hrun. rewrite Hl in Hrun.
    destruct (batch_ids h refs Hrefs) as (ids & Hids & Hall).
    rewrite Hids in Hrun.
    destruct (Model.mapM_result get_credit_history ids) as [chs|e] eqn:Hmap;
      [| discriminate].
    apply mapM_result_Ok in Hmap.
    destruct (assign_histories_lookup (zip refs chs) (objects h))
      as (objs' & Hassign & _); [| by rewrite Hassign in Hrun].
    clear Hl Hrefs Hrun Hids Hr Hx Hraises. revert chs Hmap.
    induction Hall as [|r1 i refs' ids' (x1 & Hx1 & ->) _ IH];
      intros chs Hmap r0 ch0 Hin.
    + inversion Hmap; subst. inversion Hin.
    + inversion Hmap as [|? ch ? chs' Hch Hchs]; subst.
      simpl in Hin. apply elem_of_cons in Hin as [Heq | Hin]; [| by eapply IH].
      injection Heq as -> ->. eauto.
Qed.

End GatherFacts.

(** C9 (amended). The DICOM flags are derived and written on the raw
    payload, before typed validation: the pre-validation hook returns the
    payload with the borrower flag on the borrower and the debtor flag on
    every debtor, everything else as it was. The enrichment step, however,
    works on constructed requests and writes through their references: when
    the fetch of every request of the batch returns, it returns the list it
    was given, and in the store every request of the batch has its
    borrower's history replaced by the fetched credit history; the id, the
    other borrower data and the other request data of every request, and
    every request outside the batch, are unchanged. When a fetch raises, the
    enrichment raises the exception of a fetch of the batch and assigns
    nothing. *)
Theorem construction_and_enrichment_effects
    {CreditHistory BorrowerData RequestData : Type}
    (markers : Model.DicomMarker) (clean_text : string -> string)
    (get_credit_history : Z -> result CreditHistory)
    (d solicitante : gmap string Model.raw) (debtors : list (gmap string Model.raw))
    (text : string)
    (h : Cumplo.Heap (@Cumplo.FundingRequest CreditHistory BorrowerData RequestData))
    (l : positive) (refs : list positive) :
  d !! "solicitante"%string = Some (Model.RDict solicitante) ->
  solicitante !! "descripcion"%string = Some (Model.RStr text) ->
  d !! "pagadores"%string = Some (Model.RList (Model.RDict <$> debtors)) ->
  Cumplo.lists h !! l = Some refs ->
  (forall r, r ∈ refs -> is_Some (Cumplo.objects h !! r)) ->
  Model._preprocess_data markers clean_text (Model.RDict d)
  = Ok (Model.RDict
          (<["pagadores"%string :=
               Model.RList
                 ((fun debtor =>
                     Model.RDict
                       (<["dicom"%string :=
                            Model.raw_of_flag
                              (Model.dicom_of_description markers (clean_text text)).1]>
                          debtor)) <$> debtors)]>
             (<["solicitante"%string :=
                  Model.RDict
                    (<["dicom"%string :=
                         Model.raw_of_flag
                           (Model.dicom_of_description markers (clean_text text)).2]>
                       solicitante)]> d)))
  /\ ((forall r x, r ∈ refs -> Cumplo.objects h !! r = Some x ->
                   is_ok (get_credit_history (Cumplo.id x))) ->
      exists h',
        Cumplo.gather_full_funding_requests get_credit_history h l = Some (Ok (l, h'))
        /\ Cumplo.lists h' = Cumplo.lists h
        /\ (forall r, Cumplo.objects h' !! r
                      = Cumplo.enriched get_credit_history refs r
                          <$> Cumplo.objects h !! r)
        /\ forall r x',
             Cumplo.objects h' !! r = Some x' ->
             exists x,
               Cumplo.objects h !! r = Some x
               /\ Cumplo.id x' = Cumplo.id x
               /\ Cumplo.request_data x' = Cumplo.request_data x
               /\ Cumplo.borrower_data (Cumplo.borrower x')
                  = Cumplo.borrower_data (Cumplo.borrower x)
               /\ (r ∈ refs ->
                   exists credit_history,
                     get_credit_history (Cumplo.id x) = Ok credit_history
                     /\ Cumplo.history (Cumplo.borrower x') = Some credit_history)
               /\ (r ∉ refs -> x' = x))
  /\ ((exists r x, r ∈ refs /\ Cumplo.objects h !! r = Some x
                   /\ raises (get_credit_history (Cumplo.id x))) ->
      exists e,
        Cumplo.gather_full_funding_requests get_credit_history h l = Some (Raise e)
        /\ exists r x, r ∈ refs /\ Cumplo.objects h !! r = Some x
                       /\ get_credit_history (Cumplo.id x) = Raise e)
  /\ (forall l' h',
        Cumplo.gather_full_funding_requests get_credit_history h l = Some (Ok (l', h')) ->
        forall r x, r ∈ refs -> Cumplo.objects h !! r = Some x ->
                    is_ok (get_credit_history (Cumplo.id x))).
Proof.
  intros Hsol Hdesc Hpag Hl Hrefs. split; [| split; [| split]].
  - by apply preprocess_data_writes_dicom.
  - intros Hfetch.
    destruct (gather_full_funding_requests_lookup get_credit_history h l refs Hl Hrefs
                Hfetch) as (h' & Hrun & Hlists & Hobjs).
    exists h'. split; [exact Hrun |]. split; [exact Hlists |]. split; [exact Hobjs |].
    intros r x' Hx'. rewrite Hobjs in Hx'.
    destruct (Cumplo.objects h !! r) as [x|] eqn:Hx; [| discriminate].
    injection Hx' as <-. exists x. split; [done |].
    unfold Cumplo.enriched, Cumplo.fetched.
    destruct (decide (r ∈ refs)) as [Hr | Hr].
    + pose proof (Hfetch r x Hr Hx) as Hok.
      destruct (get_credit_history (Cumplo.id x)) as [ch|e]; [| done].
      simpl. repeat split; eauto; done.
    + repeat split; done.
  - intros Hraises.
    destruct (gather_full_funding_requests_raises get_credit_history h l refs Hl Hrefs
                Hraises) as [e Hrun].
    exists e. split; [exact Hrun |].
    exact (gather_full_funding_requests_outcome get_credit_history h l refs _ Hl Hrun).
  - intros l' h' Hrun.
    exact (gather_full_funding_requests_outcome get_credit_history h l refs _ Hl Hrun).
Qed.

(** Witness of C9: the sample payload and the sample batch, whose fetch
    returns, and the batch with the request whose fetch raises. *)
Lemma construction_and_enrichment_effects_witness :
  (exists data h',
      Model._preprocess_data Samples.markers (fun text => text)
        (Model.RDict Samples.raw_data) = Ok data
      /\ Cumplo.gather_full_funding_requests Samples.credit_history_of
           Samples.constructed_heap 2%positive = Some (Ok (2%positive, h')))
  /\ exists e,
       Cumplo.gather_full_funding_requests Samples.credit_history_of
         Samples.failing_heap 2%positive = Some (Raise e).
Proof.
  split.
  - destruct (construction_and_enrichment_effects Samples.markers (fun text => text)
                Samples.credit_history_of
                Samples.raw_data Samples.raw_borrower Samples.raw_debtors
                Samples.description_debtor_only
                Samples.constructed_heap 2%positive [1%positive])
      as (Hpre & Hreturns & _).
    + reflexivity.
    + reflexivity.
    + reflexivity.
    + reflexivity.
    + intros r Hr. apply list_elem_of_singleton in Hr as ->. vm_compute. eauto.
    + destruct Hreturns as (h' & Hrun & _); [| eauto].
      intros r x Hr Hx. apply list_elem_of_singleton in Hr as ->.
      vm_compute in Hx. injection Hx as <-. exact I.
  - destruct (construction_and_enrichment_effects Samples.markers (fun text => text)
                Samples.credit_history_of
                Samples.raw_data Samples.raw_borrower Samples.raw_debtors
                Samples.description_debtor_only
                Samples.failing_heap 2%positive [1%positive; 3%positive])
      as (_ & _ & Hraises & _).
    + reflexivity.
    + reflexivity.
    + reflexivity.
    + reflexivity.
    + intros r Hr.
      repeat (apply elem_of_cons in Hr as [-> | Hr]; [vm_compute; eauto |]).
      inversion Hr.
    + destruct Hraises as (e & Hrun & _); [| eauto].
      exists 3%positive, Samples.request_without_history.
      split; [right; left |]. split; [reflexivity | exact I].
Defined.

Example preprocess_data_sample :
  Model._preprocess_data Samples.markers (fun text => text) (Model.RDict Samples.raw_data)
  = Ok (Model.RDict
          {[ "id_operacion"%string := Model.RInt 1;
             "solicitante"%string :=
               Model.RDict (<["dicom"%string := Model.RNone]> Samples.raw_borrower);
             "pagadores"%string :=
               Model.RList
                 ((fun debtor =>
                     Model.RDict (<["dicom"%string := Model.RBool true]> debtor))
                    <$> Samples.raw_debtors) ]}).
Proof. vm_compute. reflexivity. Qed.

(** C9 as stated fails: the enrichment step modifies a request that is
    already constructed; the request at reference 1 has no history before
    the call and the fetched one after it. *)
Lemma enrichment_modifies_constructed_request :
  exists h',
    Cumplo.gather_full_funding_requests Samples.credit_history_of
      Samples.constructed_heap 2%positive = Some (Ok (2%positive, h'))
    /\ Cumplo.objects Samples.constructed_heap !! 1%positive
       = Some Samples.constructed_request
    /\ Cumplo.objects h' !! 1%positive
       = Some (Cumplo.set_history Samples.constructed_request 42)
    /\ Cumplo.objects h' !! 1%positive
       <> Cumplo.objects Samples.constructed_heap !! 1%positive.
Proof.
  eexists. split; [vm_compute; reflexivity |].
  split; [reflexivity |]. split; [reflexivity |]. discriminate.
Qed.

(** The batch with the request 99: the fetch of the second request raises,
    and so does the enrichment. *)
Example enrichment_propagates_failed_fetch :
  Cumplo.gather_full_funding_requests Samples.credit_history_of
    Samples.failing_heap 2%positive = Some (Raise IndexError).
Proof. vm_compute. reflexivity. Qed.

(* ===================================================================== *)
(** ** Funded percentage *)
(* ===================================================================== *)

Section FundedPercentageFacts.
Import Model.

Lemma digits2_pos_bounds (p : positive) :
  2 ^ (Z.pos (digits2_pos p) - 1) <= Z.pos p < 2 ^ Z.pos (digits2_pos p).
Proof.
  induction p as [p IH | p IH |]; simpl digits2_pos.
  - rewrite Pos2Z.inj_succ. change (Z.pos p~1) with (2 * Z.pos p + 1).
    replace (Z.succ (Z.pos (digits2_pos p)) - 1) with (Z.succ (Z.pos (digits2_pos p) - 1)) by lia.
    rewrite !Z.pow_succ_r by lia.
    set (A := 2 ^ (Z.pos (digits2_pos p) - 1)) in *.
    set (B := 2 ^ Z.pos (digits2_pos p)) in *. clearbody A B. lia.
  - rewrite Pos2Z.inj_succ. change (Z.pos p~0) with (2 * Z.pos p).
    replace (Z.succ (Z.pos (digits2_pos p)) - 1) with (Z.succ (Z.pos (digits2_pos p) - 1)) by lia.
    rewrite !Z.pow_succ_r by lia.
    set (A := 2 ^ (Z.pos (digits2_pos p) - 1)) in *.
    set (B := 2 ^ Z.pos (digits2_pos p)) in *. clearbody A B. lia.
  - simpl. lia.
Qed.

Lemma Zdigits2_unique (q n : Z) :
  0 < n -> 2 ^ (n - 1) <= q < 2 ^ n -> Zdigits2 q = n.
Proof.
  intros Hn [Hlo Hhi].
  assert (Hq : 0 < q) by (pose proof (Z.pow_pos_nonneg 2 (n - 1)); lia).
  destruct q as [|p|p]; try lia. simpl.
  pose proof (digits2_pos_bounds p) as [Hlo' Hhi'].
  set (d := Z.pos (digits2_pos p)) in *.
  assert (n - 1 < d).
  { apply (Z.pow_lt_mono_r_iff 2); lia. }
  assert (d - 1 < n).
  { apply (Z.pow_lt_mono_r_iff 2); lia. }
  lia.
Qed.

Lemma Zdigits2_53 (q : Z) : 2 ^ 52 <= q < 2 ^ 53 -> Zdigits2 q = 53.
Proof. intros Hq. apply Zdigits2_unique; [lia |]. exact Hq. Qed.

Lemma Zdigits2_54 (q : Z) : 2 ^ 53 <= q < 2 ^ 54 -> Zdigits2 q = 54.
Proof. intros Hq. apply Zdigits2_unique; [lia |]. exact Hq. Qed.

Lemma fexp_normal (e : Z) : -1021 <= e -> fexp 53 1024 e = e - 53.
Proof. unfold fexp, emin. lia. Qed.

Lemma loc_of_shr_record_of_loc m l : loc_of_shr_record (shr_record_of_loc m l) = l.
Proof. by destruct l as [|[]]. Qed.

Lemma shr_m_record_of_loc m l : shr_m (shr_record_of_loc m l) = m.
Proof. by destruct l as [|[]]. Qed.

Lemma shr_zero mrs e : shr mrs e 0 = (mrs, e).
Proof. reflexivity. Qed.

Lemma shr_one mrs e : shr mrs e 1 = (shr_1 mrs, e + 1).
Proof. reflexivity. Qed.

Lemma second_round (sx : bool) (m e : Z) :
  2 ^ 52 <= m <= 2 ^ 53 -> -1000 <= e <= 950 ->
  (let '(mrs, e') := shr_fexp 53 1024 m e loc_Exact in
   match shr_m mrs with
   | Z0 => S754_zero sx
   | Zpos p => if e' <=? 1024 - 53 then S754_finite sx p e' else S754_infinity sx
   | Zneg _ => S754_nan
   end) = pack sx m e.
Proof.
  intros Hm He. unfold shr_fexp, pack.
  destruct (Z.ltb_spec m (2 ^ 53)) as [Hlt | Hge].
  - rewrite (Zdigits2_53 m) by lia.
    rewrite fexp_normal by lia.
    replace (53 + e - 53 - e) with 0 by lia. rewrite shr_zero.
    destruct m as [|p|p]; try lia.
    cbn [shr_m shr_record_of_loc Z.to_pos].
    destruct (Z.leb_spec e (1024 - 53)); [reflexivity | lia].
  - assert (m = 2 ^ 53) as -> by lia.
    change (Zdigits2 (2 ^ 53)) with 54.
    rewrite fexp_normal by lia.
    replace (54 + e - 53 - e) with 1 by lia. rewrite shr_one.
    change (shr_1 (shr_record_of_loc (2 ^ 53) loc_Exact))
      with {| shr_m := Z.pos p52; shr_r := false; shr_s := false |}.
    cbn [shr_m].
    destruct (Z.leb_spec (e + 1) (1024 - 53)); [reflexivity | lia].
Qed.

Lemma binary_round_aux_unfold sx mx ex lx :
  binary_round_aux 53 1024 sx mx ex lx
  = finish sx (round_nearest_even (shr_m (shr_fexp 53 1024 mx ex lx).1)
                 (loc_of_shr_record (shr_fexp 53 1024 mx ex lx).1))
      (shr_fexp 53 1024 mx ex lx).2.
Proof.
  unfold binary_round_aux, finish.
  destruct (shr_fexp 53 1024 mx ex lx) as [mrs e']. reflexivity.
Qed.

Lemma round_nearest_even_cases m l :
  round_nearest_even m l = m \/ round_nearest_even m l = m + 1.
Proof. destruct l as [|[]]; simpl; auto. destruct (Z.even m); auto. Qed.

Lemma round_aux_53 sx q e l :
  2 ^ 52 <= q < 2 ^ 53 -> -1000 <= e <= 900 ->
  binary_round_aux 53 1024 sx q e l = pack sx (round_nearest_even q l) e.
Proof.
  intros Hq He. rewrite binary_round_aux_unfold.
  assert (Hshr : shr_fexp 53 1024 q e l = (shr_record_of_loc q l, e)).
  { unfold shr_fexp. rewrite (Zdigits2_53 q) by lia.
    rewrite fexp_normal by lia.
    replace (53 + e - 53 - e) with 0 by lia. apply shr_zero. }
  rewrite Hshr. cbn [fst snd].
  rewrite shr_m_record_of_loc, loc_of_shr_record_of_loc.
  apply second_round; [| lia].
  destruct (round_nearest_even_cases q l) as [-> | ->]; lia.
Qed.

Lemma round_aux_54 sx q e l :
  2 ^ 53 <= q < 2 ^ 54 -> -1000 <= e <= 900 ->
  binary_round_aux 53 1024 sx q e l
  = pack sx (round_nearest_even (shr_m (shr_1 (shr_record_of_loc q l)))
               (loc_of_shr_record (shr_1 (shr_record_of_loc q l)))) (e + 1).
Proof.
  intros Hq He. rewrite binary_round_aux_unfold.
  assert (Hshr : shr_fexp 53 1024 q e l = (shr_1 (shr_record_of_loc q l), e + 1)).
  { unfold shr_fexp. rewrite (Zdigits2_54 q) by lia.
    rewrite fexp_normal by lia.
    replace (54 + e - 53 - e) with 1 by lia. apply shr_one. }
  rewrite Hshr. cbn [fst snd].
  apply second_round; [| lia].
  assert (Hm : shr_m (shr_1 (shr_record_of_loc q l)) = q / 2).
  { destruct q as [|[p|p|]|]; try lia.
    - change (Z.pos p~1) with (2 * Z.pos p + 1).
      transitivity (Z.pos p).
      + by destruct l as [|[]].
      + apply Z.div_unique with 1; lia.
    - change (Z.pos p~0) with (2 * Z.pos p).
      transitivity (Z.pos p).
      + by destruct l as [|[]].
      + apply Z.div_unique with 0; lia. }
  rewrite Hm.
  assert (2 ^ 52 <= q / 2 < 2 ^ 53).
  { split; [apply Z.div_le_lower_bound; lia | apply Z.div_lt_upper_bound; lia]. }
  destruct (round_nearest_even_cases (q / 2)
              (loc_of_shr_record (shr_1 (shr_record_of_loc q l)))) as [-> | ->]; lia.
Qed.

Lemma new_location_100 (r : Z) :
  new_location 100 r
  = if r =? 0 then loc_Exact else loc_Inexact (2 * r ?= 100).
Proof. reflexivity. Qed.

Lemma round_error_53 (q r : Z) :
  0 <= r < 100 ->
  -50 <= 100 * round_nearest_even q (new_location 100 r) - (100 * q + r) <= 50.
Proof.
  intros Hr. rewrite new_location_100.
  destruct (Z.eqb_spec r 0) as [-> | Hnz]; cbn [round_nearest_even]; [lia |].
  destruct (Z.compare_spec (2 * r) 100); [destruct (Z.even q) | |]; lia.
Qed.

Lemma round_error_54 (q r : Z) :
  0 < q -> 0 <= r < 100 ->
  let mrs := shr_1 (shr_record_of_loc q (new_location 100 r)) in
  -100 <= 200 * round_nearest_even (shr_m mrs) (loc_of_shr_record mrs) - (100 * q + r)
  <= 100.
Proof.
  intros Hq Hr mrs. subst mrs. rewrite new_location_100.
  destruct q as [|[p|p|]|]; try lia.
  - change (Z.pos p~1) with (2 * Z.pos p + 1).
    destruct (Z.eqb_spec r 0) as [-> | Hnz].
    + change (shr_1 (shr_record_of_loc (2 * Z.pos p + 1) loc_Exact))
        with {| shr_m := Z.pos p; shr_r := true; shr_s := false |}.
      cbn [shr_m loc_of_shr_record round_nearest_even].
      destruct (Z.even (Z.pos p)); lia.
    + assert (Hrec : shr_1 (shr_record_of_loc (2 * Z.pos p + 1)
                              (loc_Inexact (2 * r ?= 100)))
                     = {| shr_m := Z.pos p; shr_r := true; shr_s := true |}).
      { by destruct (2 * r ?= 100). }
      rewrite Hrec. cbn [shr_m loc_of_shr_record round_nearest_even]. lia.
  - change (Z.pos p~0) with (2 * Z.pos p).
    destruct (Z.eqb_spec r 0) as [-> | Hnz].
    + change (shr_1 (shr_record_of_loc (2 * Z.pos p) loc_Exact))
        with {| shr_m := Z.pos p; shr_r := false; shr_s := false |}.
      cbn [shr_m loc_of_shr_record round_nearest_even]. lia.
    + assert (Hrec : shr_1 (shr_record_of_loc (2 * Z.pos p)
                              (loc_Inexact (2 * r ?= 100)))
                     = {| shr_m := Z.pos p; shr_r := false; shr_s := true |}).
      { by destruct (2 * r ?= 100). }
      rewrite Hrec. cbn [shr_m loc_of_shr_record round_nearest_even]. lia.
  - destruct (Z.eqb_spec r 0) as [-> | Hnz].
    + cbn. lia.
    + assert (Hrec : shr_1 (shr_record_of_loc 1 (loc_Inexact (2 * r ?= 100)))
                     = {| shr_m := 0; shr_r := true; shr_s := true |}).
      { by destruct (2 * r ?= 100). }
      rewrite Hrec. cbn [shr_m loc_of_shr_record round_nearest_even]. lia.
Qed.

Lemma div_half_even_nearest (n d a : Z) :
  0 < d -> - d < 2 * (n - a * d) < d -> div_half_even n d = a.
Proof.
  intros Hd Herr. unfold div_half_even.
  destruct (Z_le_gt_dec 0 (n - a * d)) as [Hpos | Hneg].
  - assert (Hq : n / d = a) by (symmetry; apply Z.div_unique with (n - a * d); lia).
    assert (Hr : n mod d = n - a * d)
      by (symmetry; apply Z.mod_unique with a; lia).
    rewrite Hq, Hr. destruct (Z.compare_spec (2 * (n - a * d)) d); lia.
  - assert (Hq : n / d = a - 1)
      by (symmetry; apply Z.div_unique with (n - a * d + d); lia).
    assert (Hr : n mod d = n - a * d + d)
      by (symmetry; apply Z.mod_unique with (a - 1); lia).
    rewrite Hq, Hr. destruct (Z.compare_spec (2 * (n - a * d + d)) d); lia.
Qed.

Lemma Zdigits2_range (a : Z) :
  0 < a < 2 ^ 52 ->
  1 <= Zdigits2 a <= 52 /\ 2 ^ (Zdigits2 a - 1) <= a < 2 ^ Zdigits2 a.
Proof.
  intros Ha. destruct a as [|p|p]; try lia. cbn [Zdigits2].
  pose proof (digits2_pos_bounds p) as Hb. split; [| exact Hb].
  split; [lia |].
  assert (Z.pos (digits2_pos p) - 1 < 52); [| lia].
  apply (Z.pow_lt_mono_r_iff 2); lia.
Qed.

Lemma div_core (a : Z) :
  0 < a < 2 ^ 52 ->
  SFdiv_core_binary 53 1024 a 0 100 0
  = (a * 2 ^ (60 - Zdigits2 a) / 100, Zdigits2 a - 60,
     new_location 100 ((a * 2 ^ (60 - Zdigits2 a)) mod 100)).
Proof.
  intros Ha. destruct (Zdigits2_range a Ha) as [Hd _].
  unfold SFdiv_core_binary. change (Zdigits2 100) with 7. cbv zeta.
  rewrite fexp_normal by lia. rewrite Z.min_l by lia.
  replace (0 - 0 - (Zdigits2 a + 0 - (7 + 0) - 53)) with (60 - Zdigits2 a) by lia.
  replace (Zdigits2 a + 0 - (7 + 0) - 53) with (Zdigits2 a - 60) by lia.
  destruct (60 - Zdigits2 a) as [|s|s] eqn:Hs; try lia.
  rewrite Z.shiftl_mul_pow2 by lia.
  unfold Z.div, Z.modulo.
  destruct (Z.div_eucl (a * 2 ^ Z.pos s) 100) as [q r]. reflexivity.
Qed.

Lemma int_true_div_100_pos (sx : bool) (a : Z) :
  0 < a < 2 ^ 52 ->
  exists mf ef,
    (let '(mz, ez, lz) := SFdiv_core_binary 53 1024 a 0 100 0 in
     binary_round_aux 53 1024 sx mz ez lz) = S754_finite sx mf ef
    /\ ef <= -6
    /\ - 2 ^ (- ef) < 2 * (100 * Z.pos mf - a * 2 ^ (- ef)) < 2 ^ (- ef).
Proof.
  intros Ha. rewrite div_core by done.
  destruct (Zdigits2_range a Ha) as [Hd Hbounds].
  set (d1 := Zdigits2 a) in *.
  set (S2 := 2 ^ (58 - d1)).
  assert (HS2 : 64 <= S2).
  { change 64 with (2 ^ 6). apply Z.pow_le_mono_r; lia. }
  assert (HE : 2 ^ (60 - d1) = 4 * S2).
  { replace (60 - d1) with (2 + (58 - d1)) by lia. rewrite Z.pow_add_r by lia. reflexivity. }
  assert (HE1 : 2 ^ (59 - d1) = 2 * S2).
  { replace (59 - d1) with (1 + (58 - d1)) by lia. rewrite Z.pow_add_r by lia. reflexivity. }
  assert (Hlo : 2 ^ 59 <= a * 2 ^ (60 - d1)).
  { replace 59 with ((d1 - 1) + (60 - d1)) by lia. rewrite Z.pow_add_r by lia.
    apply Z.mul_le_mono_nonneg_r; [apply Z.pow_nonneg | ]; lia. }
  assert (Hhi : a * 2 ^ (60 - d1) < 2 ^ 60).
  { replace 60 with (d1 + (60 - d1)) at 2 by lia. rewrite Z.pow_add_r by lia.
    apply Z.mul_lt_mono_pos_r; [apply Z.pow_pos_nonneg |]; lia. }
  rewrite HE in *. set (P := a * (4 * S2)) in *.
  pose proof (Z.div_mod P 100 ltac:(lia)) as Hdm.
  pose proof (Z.mod_pos_bound P 100 ltac:(lia)) as Hr.
  set (q := P / 100) in *. set (r := P mod 100) in *.
  assert (Hq : 2 ^ 52 <= q < 2 ^ 54) by lia.
  destruct (Z_lt_le_dec q (2 ^ 53)) as [Hq53 | Hq54].
  - rewrite round_aux_53 by lia.
    pose proof (round_error_53 q r Hr) as Herr.
    set (m1 := round_nearest_even q (new_location 100 r)) in *.
    unfold pack. destruct (Z.ltb_spec m1 (2 ^ 53)) as [Hm1 | Hm1].
    + exists (Z.to_pos m1), (d1 - 60). split; [reflexivity |].
      split; [lia |]. rewrite Z2Pos.id by lia.
      replace (- (d1 - 60)) with (60 - d1) by lia. rewrite HE. fold P. lia.
    + exists p52, (d1 - 60 + 1). split; [reflexivity |].
      split; [lia |]. change (Z.pos p52) with (2 ^ 52).
      replace (- (d1 - 60 + 1)) with (59 - d1) by lia. rewrite HE1.
      assert (P = 2 * (a * (2 * S2))) by (unfold P; lia).
      assert (m1 <= q + 1)
        by (unfold m1; destruct (round_nearest_even_cases q (new_location 100 r))
              as [-> | ->]; lia).
      lia.
  - rewrite round_aux_54 by lia.
    pose proof (round_error_54 q r ltac:(lia) Hr) as Herr. cbv zeta in Herr.
    set (m1 := round_nearest_even _ _) in *.
    unfold pack. destruct (Z.ltb_spec m1 (2 ^ 53)) as [Hm1 | Hm1].
    + exists (Z.to_pos m1), (d1 - 60 + 1). split; [reflexivity |].
      split; [lia |]. rewrite Z2Pos.id by lia.
      replace (- (d1 - 60 + 1)) with (59 - d1) by lia. rewrite HE1.
      assert (P = 2 * (a * (2 * S2))) by (unfold P; lia).
      lia.
    + exfalso. lia.
Qed.

Lemma funded_percentage_validator_exact (value : Z) :
  Z.abs value < 2 ^ 52 ->
  funded_percentage_validator value
  = Ok {| sign := value <? 0; coefficient := Z.abs value; exponent := -2 |}.
Proof.
  intros Hv. unfold funded_percentage_validator, int_true_div.
  change (100 =? 0) with false. change (100 <? 0) with false.
  change (Z.abs 100) with 100. rewrite xorb_false_r. cbv iota.
  destruct (Z.eqb_spec value 0) as [-> | Hnz]; [reflexivity |].
  destruct (int_true_div_100_pos (value <? 0) (Z.abs value) ltac:(lia))
    as (mf & ef & Hdiv & Hef & Herr).
  destruct (SFdiv_core_binary 53 1024 (Z.abs value) 0 100 0) as [[mz ez] lz].
  rewrite Hdiv. cbn [Py.bind round_Decimal_of_float].
  rewrite Z.max_r by lia. rewrite Z.max_l by lia.
  change (10 ^ 2) with 100. change (2 ^ 0) with 1.
  rewrite (div_half_even_nearest _ _ (Z.abs value)).
  - unfold context_prec. destruct (Z.leb_spec (10 ^ 28) (Z.abs value)); [lia | reflexivity].
  - apply Z.pow_pos_nonneg; lia.
  - lia.
Qed.

End FundedPercentageFacts.

(** C7 (amended). For every raw integer percentage of magnitude below 2^52
    the normalized funded percentage is the raw value divided by 100, exact
    to its two decimals (so rounding to two places changes nothing); it lies
    in [0,1] exactly when the raw value lies in [0,100]. *)
Theorem funded_percentage_is_hundredth (value : Z) :
  Z.abs value < 2 ^ 52 ->
  Model.funded_percentage_validator value
  = Ok {| Model.sign := value <? 0;
          Model.coefficient := Z.abs value;
          Model.exponent := -2 |}
  /\ (Model.Decimal_to_Q {| Model.sign := value <? 0;
                            Model.coefficient := Z.abs value;
                            Model.exponent := -2 |} == value # 100)%Q
  /\ ((0 <= value # 100)%Q /\ (value # 100 <= 1)%Q <-> 0 <= value <= 100).
Proof.
  intros Hv. split; [by apply funded_percentage_validator_exact |]. split.
  - unfold Model.Decimal_to_Q. cbn [Model.sign Model.coefficient Model.exponent].
    change (0 <=? -2) with false. change (Z.to_pos (10 ^ (- (-2)))) with 100%positive.
    cbv iota. destruct (Z.ltb_spec value 0); unfold Qeq; simpl; lia.
  - unfold Qle. simpl. lia.
Qed.

(** Witness of C7: raw 50 gives 0.50 and raw 33 gives 0.33. *)
Lemma funded_percentage_is_hundredth_witness :
  Model.funded_percentage_validator 50
  = Ok {| Model.sign := false; Model.coefficient := 50; Model.exponent := -2 |}
  /\ Model.funded_percentage_validator 33
     = Ok {| Model.sign := false; Model.coefficient := 33; Model.exponent := -2 |}.
Proof.
  split.
  - apply (funded_percentage_is_hundredth 50). vm_compute. reflexivity.
  - apply (funded_percentage_is_hundredth 33). vm_compute. reflexivity.
Defined.

(** C7 as stated fails: raw 5000 gives 50.00, which is neither 0.50 nor in
    [0,1], and raw 3333 gives 33.33, not 0.33. *)
Lemma funded_percentage_of_5000_is_50 :
  Model.funded_percentage_validator 5000
  = Ok {| Model.sign := false; Model.coefficient := 5000; Model.exponent := -2 |}
  /\ (Model.Decimal_to_Q
        {| Model.sign := false; Model.coefficient := 5000; Model.exponent := -2 |}
      == 50)%Q
  /\ ~ (Model.Decimal_to_Q
          {| Model.sign := false; Model.coefficient := 5000; Model.exponent := -2 |}
        == 1 # 2)%Q
  /\ ~ (Model.Decimal_to_Q
          {| Model.sign := false; Model.coefficient := 5000; Model.exponent := -2 |}
        <= 1)%Q
  /\ Model.funded_percentage_validator 3333
     = Ok {| Model.sign := false; Model.coefficient := 3333; Model.exponent := -2 |}
  /\ ~ (Model.Decimal_to_Q
          {| Model.sign := false; Model.coefficient := 3333; Model.exponent := -2 |}
        == 33 # 100)%Q.
Proof.
  split; [vm_compute; reflexivity |]. split; [reflexivity |].
  split; [intros H; vm_compute in H; discriminate |].
  split; [intros H; vm_compute in H; by apply H |].
  split; [vm_compute; reflexivity |].
  intros H; vm_compute in H; discriminate.
Qed.

(* ===================================================================== *)
(** ** Further properties of the filters *)
(* ===================================================================== *)

Lemma raises_not_ok {A : Type} (m : result A) : raises m <-> ~ is_ok m.
Proof. destruct m; simpl; tauto. Qed.

Section FilterEdgeFacts.
Import Filters.

Implicit Types (c : Configuration.t) (x : FundingRequest) (k : FilterClass).

(** X1. A filter raises in exactly three situations: the debtor
    paid-in-time filter with its threshold configured (non-zero), and the
    debtor and borrower DICOM filters on a configuration without debtor,
    respectively borrower, section. *)
Theorem apply_raises_iff c x k :
  raises (apply {| class := k; configuration := c |} x)
  <-> (k = DebtorMinimumPaidInTimeFilter
       /\ truthy_decimal (Configuration.debtor c
                            ≫= DebtorConfiguration.minimum_paid_in_time_percentage) = true)
      \/ (k = DebtorDicomFilter /\ Configuration.debtor c = None)
      \/ (k = BorrowerDicomFilter /\ Configuration.borrower c = None).
Proof.
  destruct (decide (k ∈ [DebtorMinimumPaidInTimeFilter; DebtorDicomFilter;
                         BorrowerDicomFilter])) as [Hin | Hnot].
  - repeat (apply elem_of_cons in Hin as [-> | Hin]); [| | | inversion Hin];
      unfold apply; simpl.
    + unfold DebtorMinimumPaidInTimeFilter_apply.
      destruct (Configuration.debtor c) as [d|]; simpl; [| naive_solver].
      destruct (truthy_decimal (DebtorConfiguration.minimum_paid_in_time_percentage d));
        simpl; naive_solver.
    + unfold DebtorDicomFilter_apply.
      destruct (Configuration.debtor c) as [d|]; simpl; [| naive_solver].
      destruct (DebtorConfiguration.ignore_debtor_dicom d); simpl; naive_solver.
    + unfold BorrowerDicomFilter_apply.
      destruct (Configuration.borrower c) as [b|]; simpl; [| naive_solver].
      destruct (BorrowerConfiguration.ignore_borrower_dicom b); simpl; naive_solver.
  - split.
    + intros Hraises%raises_not_ok. exfalso. apply Hraises.
      by apply other_filters_return.
    + intros [[-> _] | [[-> _] | [-> _]]]; exfalso; apply Hnot; set_solver.
Qed.

End FilterEdgeFacts.

(* ===================================================================== *)
(** ** Further properties of the filter set evaluation *)
(* ===================================================================== *)

Section EvaluationMoreFacts.
Import Cumplo.
Context {FundingRequest Filter : Type}.
Variable apply : Filter -> FundingRequest -> result bool.

Lemma all_apply_app (before after : list Filter) (x : FundingRequest) :
  all_apply apply (before ++ after) x
  = Py.bind (all_apply apply before x)
      (fun passed => if passed then all_apply apply after x else Ok false).
Proof.
  induction before as [|f rest IH]; simpl; [done |].
  destruct (apply f x) as [[|]|e]; simpl; auto.
Qed.

(** X2. The conjunction stops at the first filter that does not return
    true: when every filter before [filter_] returns true, the verdict is
    false if [filter_] returns false and the exception of [filter_] if it
    raises, whatever the filters after it would do (a filter that raises is
    not reached behind one that rejects). *)
Theorem all_apply_first_failure (before after : list Filter) (filter_ : Filter)
    (x : FundingRequest) :
  (forall f, f ∈ before -> apply f x = Ok true) ->
  (apply filter_ x = Ok false ->
   all_apply apply (before ++ filter_ :: after) x = Ok false)
  /\ (forall e, apply filter_ x = Raise e ->
                all_apply apply (before ++ filter_ :: after) x = Raise e).
Proof.
  intros Hbefore. apply all_apply_true in Hbefore.
  split; [intros Hf | intros e Hf]; rewrite all_apply_app, Hbefore; simpl;
    by rewrite Hf.
Qed.

Lemma filter_list_raises {A : Type} (predicate : A -> result bool) (items : list A) :
  raises (filter_list predicate items)
  <-> exists item, item ∈ items /\ raises (predicate item).
Proof.
  induction items as [|y rest IH]; simpl.
  - split; [done | intros (item & Hin & _); inversion Hin].
  - destruct (predicate y) as [b|e] eqn:Hy; simpl.
    + destruct (filter_list predicate rest) as [kept|e]; simpl in *.
      * split; [done |]. intros (item & Hin & Hr).
        apply elem_of_cons in Hin as [-> | Hin].
        -- by rewrite Hy in Hr.
        -- apply IH. eauto.
      * split; [| done]. intros _. destruct IH as [IH _].
        destruct (IH I) as (item & Hin & Hr). exists item. split; [by right | done].
    + split; [| done]. intros _. exists y. split; [left |]. by rewrite Hy.
Qed.

(** X3. On well-formed input the evaluation of a batch raises exactly when
    the conjunction raises on some request of the batch: one such request
    fails the whole batch, and no list is returned. *)
Theorem filter_funding_requests_raises_iff (filters : list Filter)
    (h : Heap FundingRequest) (l : positive) (refs : list positive) :
  lists h !! l = Some refs ->
  (forall r, r ∈ refs -> is_Some (objects h !! r)) ->
  (exists e, _filter_funding_requests apply h l filters = Some (Raise e))
  <-> exists r x, r ∈ refs /\ objects h !! r = Some x
                  /\ raises (all_apply apply filters x).
Proof.
  intros Hl Hrefs.
  destruct (deref_allocated h l refs Hl Hrefs) as (items & Hderef & Hfst & Hobj).
  unfold _filter_funding_requests. rewrite Hderef.
  pose proof (filter_list_raises (fun item => all_apply apply filters item.2) items)
    as Hiff.
  destruct (filter_list (fun item => all_apply apply filters item.2) items)
    as [kept|e]; simpl in *.
  - split.
    + intros [e He]. discriminate.
    + intros (r & x & Hr & Hx & Hraise). exfalso. apply Hiff.
      rewrite <- Hfst in Hr. apply list_elem_of_fmap in Hr as ([r' x'] & -> & Hin).
      simpl in *. pose proof (Hobj _ _ Hin) as Hx'. rewrite Hx in Hx'.
      injection Hx' as <-. by exists (r', x).
  - split; [| eauto]. intros _. destruct Hiff as [Hiff _].
    destruct (Hiff I) as ([r x] & Hin & Hraise). exists r, x.
    split; [| split; [by apply Hobj | done]].
    rewrite <- Hfst. apply list_elem_of_fmap. by exists (r, x).
Qed.

(** X4. A filter that rejects every request of the batch empties the
    result: whenever the evaluation returns, the list it returns is empty. *)
Theorem rejecting_filter_empties_result (filters : list Filter) (filter_ : Filter)
    (h h' : Heap FundingRequest) (l new : positive) (refs : list positive) :
  lists h !! l = Some refs ->
  filter_ ∈ filters ->
  (forall r x, r ∈ refs -> objects h !! r = Some x -> apply filter_ x = Ok false) ->
  _filter_funding_requests apply h l filters = Some (Ok (new, h')) ->
  lists h' !! new = Some [].
Proof.
  intros Hl Hf Hreject Hrun.
  destruct (filter_funding_requests_inv apply h l refs filters new h' Hl Hrun)
    as (items & kept & Hderef & Hfst & Hobj & Hkept & -> & ->).
  simpl. rewrite lookup_insert_eq. f_equal.
  destruct kept as [|[r x] kept']; [done | exfalso].
  assert (Hin : (r, x) ∈ (r, x) :: kept') by left.
  apply (filter_list_elem_of _ _ _ Hkept) in Hin as [Hin Hall]. simpl in Hall.
  rewrite all_apply_true in Hall. specialize (Hall filter_ Hf).
  rewrite (Hreject r x) in Hall; [discriminate | | by apply Hobj].
  rewrite <- Hfst. apply list_elem_of_fmap. by exists (r, x).
Qed.

Lemma deref_items (h : Heap FundingRequest) (l : positive)
    (items : list (positive * FundingRequest)) :
  lists h !! l = Some items.*1 ->
  (forall r x, (r, x) ∈ items -> objects h !! r = Some x) ->
  deref h l = Some items.
Proof.
  intros Hl Hobj. unfold deref. rewrite Hl. clear Hl.
  induction items as [|[r x] rest IH]; [done |].
  rewrite fmap_cons. cbn [fst mapM]. rewrite (Hobj r x) by left. simpl.
  rewrite IH; [done |]. intros r' x' Hin. apply Hobj. by right.
Qed.

(** X5. Evaluation is idempotent: filtering the returned list again with the
    same filters returns a list with the same requests in the same order. *)
Theorem filter_funding_requests_idempotent (filters : list Filter)
    (h h' : Heap FundingRequest) (l new : positive) (refs : list positive) :
  lists h !! l = Some refs ->
  _filter_funding_requests apply h l filters = Some (Ok (new, h')) ->
  exists new' h'',
    _filter_funding_requests apply h' new filters = Some (Ok (new', h''))
    /\ lists h'' !! new' = lists h' !! new.
Proof.
  intros Hl Hrun.
  destruct (filter_funding_requests_inv apply h l refs filters new h' Hl Hrun)
    as (items & kept & Hderef & Hfst & Hobj & Hkept & -> & ->).
  set (new := fresh (dom (lists h))).
  set (h' := {| objects := objects h; lists := <[new := kept.*1]> (lists h) |}).
  assert (Hderef' : deref h' new = Some kept).
  { apply deref_items; [simpl; apply lookup_insert_eq |].
    intros r x Hin. simpl. apply Hobj.
    by apply (filter_list_elem_of _ _ _ Hkept) in Hin as [Hin _]. }
  unfold _filter_funding_requests. rewrite Hderef'.
  rewrite filter_list_all_true.
  - simpl. eexists _, _. split; [reflexivity |]. simpl.
    by rewrite !lookup_insert_eq.
  - intros item Hin. by apply (filter_list_elem_of _ _ _ Hkept) in Hin as [_ Hall].
Qed.

(** X6. Two evaluations in sequence amount to one evaluation with the
    concatenated filter list: if filtering by [first] keeps [kept] and
    filtering [kept] by [second] keeps [final], then filtering the input by
    [first ++ second] keeps [final]. *)
Theorem filter_list_composes (first second : list Filter)
    (items kept final : list FundingRequest) :
  filter_list (all_apply apply first) items = Ok kept ->
  filter_list (all_apply apply second) kept = Ok final ->
  filter_list (all_apply apply (first ++ second)) items = Ok final.
Proof.
  revert kept final. induction items as [|x rest IH]; simpl; intros kept final H1 H2.
  - injection H1 as <-. simpl in H2. by injection H2 as <-.
  - inv_bind H1. inv_bind H1. injection H1 as <-.
    rewrite all_apply_app, Ha. simpl. destruct a.
    + simpl in H2. inv_bind H2. inv_bind H2. injection H2 as <-.
      rewrite Ha1. simpl. by rewrite (IH _ _ Ha0 Ha2).
    + simpl. by rewrite (IH _ _ Ha0 H2).
Qed.

End EvaluationMoreFacts.

(* ===================================================================== *)
(** ** Further properties of the normalization *)
(* ===================================================================== *)

Section NormalizationMoreFacts.
Import Model.
Variable markers : DicomMarker.
Variable clean_text : string -> string.

(** X7. A request is completed exactly when its raw funded percentage is
    100 (for raw values of magnitude below 2^52). *)
Theorem is_completed_iff_raw_100 (value : Z) :
  Z.abs value < 2 ^ 52 ->
  exists funded_percentage,
    funded_percentage_validator value = Ok funded_percentage
    /\ (is_completed funded_percentage = true <-> value = 100).
Proof.
  intros Hv. eexists. split; [by apply funded_percentage_validator_exact |].
  unfold is_completed, Decimal_to_Q.
  cbn [sign coefficient exponent].
  change (0 <=? -2) with false. change (Z.to_pos (10 ^ (- (-2)))) with 100%positive.
  cbv iota. rewrite Qeq_bool_iff.
  destruct (Z.ltb_spec value 0); unfold Qeq; simpl; lia.
Qed.

(** X8. A payload without borrower, without the borrower's description or
    without the list of debtors is rejected with a [KeyError] naming the
    missing key; a payload that is not a dictionary with a [TypeError]. *)
Theorem preprocess_data_missing_keys (d : gmap string raw) :
  (d !! "solicitante"%string = None ->
   _preprocess_data markers clean_text (RDict d) = Raise (KeyError "solicitante"))
  /\ (forall solicitante,
        d !! "solicitante"%string = Some (RDict solicitante) ->
        solicitante !! "descripcion"%string = None ->
        _preprocess_data markers clean_text (RDict d) = Raise (KeyError "descripcion"))
  /\ (forall solicitante text,
        d !! "solicitante"%string = Some (RDict solicitante) ->
        solicitante !! "descripcion"%string = Some (RStr text) ->
        d !! "pagadores"%string = None ->
        _preprocess_data markers clean_text (RDict d) = Raise (KeyError "pagadores"))
  /\ (forall items, _preprocess_data markers clean_text (RList items) = Raise TypeError).
Proof.
  unfold _preprocess_data, _set_dicom_status, _identify_dicom_status.
  split; [| split; [| split]].
  - intros Hsol. unfold getitem at 1 2. by rewrite Hsol.
  - intros sol Hsol Hdesc. rewrite !(getitem_dict _ _ _ Hsol). cbn [Py.bind].
    unfold getitem. by rewrite Hdesc.
  - intros sol text Hsol Hdesc Hpag.
    rewrite !(getitem_dict _ _ _ Hsol). cbn [Py.bind].
    rewrite (getitem_dict _ _ _ Hdesc). cbn [Py.bind].
    destruct (dicom_of_description markers (clean_text text)) as [deb bor].
    cbn [Py.bind setitem]. unfold getitem.
    by rewrite lookup_insert_ne, Hpag.
  - reflexivity.
Qed.

(** X9. On a payload with a described borrower and a list of debtors the
    pre-validation hook is idempotent (a second run changes nothing) and
    touches only the "dicom" entries: the other top-level keys, the other
    keys of the borrower and the number of debtors are as in the input. *)
Theorem preprocess_data_idempotent (d solicitante : gmap string raw)
    (debtors : list (gmap string raw)) (text : string) :
  d !! "solicitante"%string = Some (RDict solicitante) ->
  solicitante !! "descripcion"%string = Some (RStr text) ->
  d !! "pagadores"%string = Some (RList (RDict <$> debtors)) ->
  exists (d' solicitante' : gmap string raw) (debtors' : list (gmap string raw)),
    _preprocess_data markers clean_text (RDict d) = Ok (RDict d')
    /\ _preprocess_data markers clean_text (RDict d') = Ok (RDict d')
    /\ d' !! "solicitante"%string = Some (RDict solicitante')
    /\ d' !! "pagadores"%string = Some (RList (RDict <$> debtors'))
    /\ length debtors' = length debtors
    /\ (forall k, k <> "solicitante"%string -> k <> "pagadores"%string ->
                  d' !! k = d !! k)
    /\ (forall k, k <> "dicom"%string -> solicitante' !! k = solicitante !! k).
Proof.
  intros Hsol Hdesc Hpag.
  pose proof (preprocess_data_writes_dicom markers clean_text d solicitante debtors text
                Hsol Hdesc Hpag) as Hrun.
  set (flags := dicom_of_description markers (clean_text text)) in *.
  set (solicitante' := <["dicom"%string := raw_of_flag flags.2]> solicitante) in *.
  set (write := fun debtor : gmap string raw =>
                  <["dicom"%string := raw_of_flag flags.1]> debtor).
  set (debtors' := write <$> debtors).
  set (d' := <["pagadores"%string := RList (RDict <$> debtors')]>
               (<["solicitante"%string := RDict solicitante']> d)).
  assert (Hshape : (fun debtor => RDict (write debtor)) <$> debtors
                   = RDict <$> debtors').
  { unfold debtors'. by rewrite <- list_fmap_compose. }
  exists d', solicitante', debtors'.
  assert (Hsol' : d' !! "solicitante"%string = Some (RDict solicitante')).
  { unfold d'. rewrite lookup_insert_ne by done. apply lookup_insert_eq. }
  assert (Hdesc' : solicitante' !! "descripcion"%string = Some (RStr text)).
  { unfold solicitante'. by rewrite lookup_insert_ne. }
  assert (Hpag' : d' !! "pagadores"%string = Some (RList (RDict <$> debtors'))).
  { unfold d'. apply lookup_insert_eq. }
  split; [| split; [| split; [| split; [| split; [| split]]]]].
  - rewrite Hrun. unfold d'. do 3 f_equal. unfold write in Hshape.
    by rewrite Hshape.
  - rewrite (preprocess_data_writes_dicom markers clean_text d' solicitante' debtors' text
               Hsol' Hdesc' Hpag').
    fold flags. do 2 f_equal. apply map_eq. intros k.
    destruct (decide (k = "pagadores"%string)) as [-> | Hk1].
    + rewrite lookup_insert_eq, Hpag'. do 2 f_equal.
      unfold debtors'. rewrite <- !list_fmap_compose. apply list_fmap_ext.
      intros _ debtor _. simpl. f_equal. unfold write. by rewrite insert_insert_eq.
    + rewrite lookup_insert_ne by done.
      destruct (decide (k = "solicitante"%string)) as [-> | Hk2].
      * rewrite lookup_insert_eq, Hsol'. do 2 f_equal.
        unfold solicitante'. by rewrite insert_insert_eq.
      * by rewrite lookup_insert_ne.
  - exact Hsol'.
  - exact Hpag'.
  - unfold debtors'. by rewrite length_fmap.
  - intros k Hk1 Hk2. unfold d'. by rewrite !lookup_insert_ne.
  - intros k Hk. unfold solicitante'. by rewrite lookup_insert_ne.
Qed.

(** X10. The inference never clears a debtor on its own: the debtor flag is
    false exactly when the both-negative marker applies (and the
    both-positive one does not); and a description without any marker leaves
    both flags unknown. *)
Theorem dicom_flags_range (description : string) :
  ((dicom_of_description markers description).1 = Some false
   <-> str_contains (BOTH_TRUE markers) description = false
       /\ str_contains (BOTH_FALSE markers) description = true)
  /\ (str_contains (BOTH_TRUE markers) description = false ->
      str_contains (BOTH_FALSE markers) description = false ->
      str_contains (DEBTOR_TRUE markers) description = false ->
      any_marker_in (BORROWER_TRUE markers) description = false ->
      str_contains (BORROWER_FALSE markers) description = false ->
      any_marker_in (SINGLE_FALSE markers) description = false ->
      any_marker_in (SINGLE_TRUE markers) description = false ->
      dicom_of_description markers description = (None, None)).
Proof.
  clear clean_text. unfold dicom_of_description. split.
  - destruct (str_contains (BOTH_TRUE markers) description),
      (str_contains (BOTH_FALSE markers) description),
      (str_contains (DEBTOR_TRUE markers) description); simpl; naive_solver.
  - by intros -> -> -> -> -> -> ->.
Qed.

End NormalizationMoreFacts.

(* ===================================================================== *)
(** ** How the filters react to thresholds and signals *)
(* ===================================================================== *)

Section ThresholdFacts.
Import Filters.

Implicit Types (c : Configuration.t) (x : FundingRequest) (k : FilterClass).

Lemma ge_decimal_relax (v m m' : Q) :
  (m' <= m)%Q -> ge_decimal v m = true -> ge_decimal v m' = true.
Proof.
  unfold ge_decimal. rewrite !Qle_bool_iff. intros H1 H2. by eapply Qle_trans.
Qed.

Lemma ge_int_relax (v m m' : Z) :
  m' <= m -> ge_int v m = true -> ge_int v m' = true.
Proof. unfold ge_int. rewrite !Z.leb_le. lia. Qed.

Lemma le_int_relax (v m m' : Z) :
  m <= m' -> le_int v m = true -> le_int v m' = true.
Proof. unfold le_int. rewrite !Z.leb_le. lia. Qed.

(** X11. Relaxing a configuration never loses a request: if [relaxed] asks
    no more than [strict] field by field (lower or unset minimums, higher or
    unset maximums, more target credit types, DICOM toggles kept), then
    every request a filter accepts under [strict] is accepted by the same
    filter under [relaxed]. *)
Theorem relaxing_keeps_accepted (relaxed strict : Configuration.t) x k :
  Relaxation.no_stricter relaxed strict ->
  apply {| class := k; configuration := strict |} x = Ok true ->
  apply {| class := k; configuration := relaxed |} x = Ok true.
Proof.
  intros (Ht & Hinv & Hsc & Hmp & Hirr & Hmin & Hmax & Hcr & Ham & Hb & Hd).
  destruct k; unfold apply; cbn [class configuration].
  - unfold CreditTypeFilter_apply. unfold Relaxation.targets in Ht.
    destruct (Configuration.target_credit_types relaxed) as [l'|]; [| done].
    destruct (Configuration.target_credit_types strict) as [l|]; [| done].
    intros [= Hin%bool_decide_eq_true]. f_equal. apply bool_decide_eq_true. auto.
  - unfold MinimumInvestmentFilter_apply. unfold Relaxation.min_int in Hinv.
    destruct (Configuration.minimum_investment_amount relaxed) as [m'|]; [| done].
    destruct (Configuration.minimum_investment_amount strict) as [m|]; [| done].
    intros [= Hge]. f_equal. by eapply ge_int_relax.
  - unfold MinimumScoreFilter_apply. unfold Relaxation.min_decimal in Hsc.
    destruct (Configuration.minimum_score relaxed) as [m'|]; [| done].
    destruct (Configuration.minimum_score strict) as [m|]; [| done].
    intros [= Hge]. f_equal. by eapply ge_decimal_relax.
  - unfold MinimumMonthlyProfitFilter_apply. unfold Relaxation.min_decimal in Hmp.
    destruct (Configuration.minimum_monthly_profit_rate relaxed) as [m'|]; [| done].
    destruct (Configuration.minimum_monthly_profit_rate strict) as [m|]; [| done].
    intros [= Hge]. f_equal. by eapply ge_decimal_relax.
  - unfold MinimumIRRFilter_apply. unfold Relaxation.min_decimal in Hirr.
    destruct (Configuration.minimum_irr relaxed) as [m'|]; [| done].
    destruct (Configuration.minimum_irr strict) as [m|]; [| done].
    intros [= Hge]. f_equal. by eapply ge_decimal_relax.
  - unfold MinimumDurationFilter_apply. unfold Relaxation.min_int in Hmin.
    destruct (Configuration.minimum_duration relaxed) as [m'|]; [| done].
    destruct (Configuration.minimum_duration strict) as [m|]; [| done].
    intros [= Hge]. f_equal. by eapply ge_int_relax.
  - unfold MaximumDurationFilter_apply. unfold Relaxation.max_int in Hmax.
    destruct (Configuration.maximum_duration relaxed) as [m'|]; [| done].
    destruct (Configuration.maximum_duration strict) as [m|]; [| done].
    intros [= Hle]. f_equal. by eapply le_int_relax.
  - unfold DebtorDicomFilter_apply. unfold Relaxation.debtor_section in Hd.
    destruct (Configuration.debtor relaxed) as [d'|],
      (Configuration.debtor strict) as [d|]; try done.
    destruct Hd as (Hig & _). cbn [getattr Py.bind].
    destruct (DebtorConfiguration.ignore_debtor_dicom d);
      [by rewrite Hig |].
    intros [= Hno]. destruct (DebtorConfiguration.ignore_debtor_dicom d'); [done |].
    by rewrite Hno.
  - unfold BorrowerDicomFilter_apply. unfold Relaxation.borrower_section in Hb.
    destruct (Configuration.borrower relaxed) as [b'|],
      (Configuration.borrower strict) as [b|]; try done.
    destruct Hb as (Hig & _). cbn [getattr Py.bind].
    destruct (BorrowerConfiguration.ignore_borrower_dicom b);
      [by rewrite Hig |].
    intros [= Hno]. destruct (BorrowerConfiguration.ignore_borrower_dicom b'); [done |].
    by rewrite Hno.
  - unfold MinimumCreditsRequestedFilter_apply.
    destruct Hcr as [-> | (Hs & Hle)]; [done |]. rewrite Hs. cbn [negb].
    destruct (Configuration.minimum_requested_credits relaxed) as [m'|]; [| done].
    destruct (Configuration.minimum_requested_credits strict) as [m|]; [| done].
    intros [= Hge]. destruct (negb (truthy_int (Some m'))); [done |].
    f_equal. by eapply ge_int_relax.
  - unfold MinimumAmountRequestedFilter_apply.
    destruct Ham as [-> | (Hs & Hle)]; [done |]. rewrite Hs. cbn [negb].
    destruct (Configuration.minimum_requested_amount relaxed) as [m'|]; [| done].
    destruct (Configuration.minimum_requested_amount strict) as [m|]; [| done].
    intros [= Hge]. destruct (negb (truthy_int (Some m'))); [done |].
    f_equal. by eapply ge_int_relax.
  - unfold BorrowerMaximumAverageDaysDelinquentFilter_apply.
    unfold Relaxation.borrower_section in Hb.
    destruct (Configuration.borrower relaxed) as [b'|],
      (Configuration.borrower strict) as [b|]; try done.
    destruct Hb as (_ & [-> | (Hs & Hle)] & _); [done |]. rewrite Hs. cbn [negb].
    destruct (BorrowerConfiguration.maximum_average_days_delinquent b') as [m'|];
      [| done].
    destruct (BorrowerConfiguration.maximum_average_days_delinquent b) as [m|];
      [| done].
    destruct (negb (truthy_int (Some m'))); [done |].
    destruct (Borrower.average_days_delinquent (borrower x)) as [days|]; [| done].
    cbn [truthy_int]. destruct (negb (days =? 0)); [| done].
    intros [= Hd']. f_equal. by eapply le_int_relax.
  - unfold BorrowerMinimumPaidInTimeFilter_apply.
    unfold Relaxation.borrower_section in Hb.
    destruct (Configuration.borrower relaxed) as [b'|],
      (Configuration.borrower strict) as [b|]; try done.
    destruct Hb as (_ & _ & [-> | (Hs & Hle)]); [done |]. rewrite Hs. cbn [negb].
    destruct (BorrowerConfiguration.minimum_paid_in_time_percentage b') as [m'|];
      [| done].
    destruct (BorrowerConfiguration.minimum_paid_in_time_percentage b) as [m|];
      [| done].
    destruct (negb (truthy_decimal (Some m'))); [done |].
    destruct (negb (truthy_int _)); [done |].
    destruct (Portfolio.paid_in_time _) as [paid|]; [| done].
    cbn [truthy_decimal]. destruct (negb (Qeq_bool paid 0)); [| done].
    intros [= Hge]. f_equal. by eapply ge_decimal_relax.
  - unfold DebtorMinimumPaidInTimeFilter_apply.
    unfold Relaxation.debtor_section in Hd.
    destruct (Configuration.debtor relaxed) as [d'|],
      (Configuration.debtor strict) as [d|]; try done.
    destruct Hd as (_ & [-> | (Hs & Hle)]); [done |]. rewrite Hs. cbn [negb].
    discriminate.
Qed.

(** X12. Zero counts as missing: whatever the configured thresholds, the
    borrower paid-in-time filter accepts a borrower with a paid-in-time
    percentage of exactly zero or with no past requests, and the delinquency
    filter accepts an average of exactly zero days. *)
Theorem zero_signals_never_block c x :
  (forall paid, Portfolio.paid_in_time (Borrower.portfolio (borrower x)) = Some paid ->
                (paid == 0)%Q ->
                BorrowerMinimumPaidInTimeFilter_apply c x = Ok true)
  /\ (Portfolio.total_requests (Borrower.portfolio (borrower x)) = 0 ->
      BorrowerMinimumPaidInTimeFilter_apply c x = Ok true)
  /\ (Borrower.average_days_delinquent (borrower x) = Some 0 ->
      BorrowerMaximumAverageDaysDelinquentFilter_apply c x = Ok true).
Proof.
  split; [| split].
  - intros paid Hpaid Hzero%Qeq_bool_iff.
    unfold BorrowerMinimumPaidInTimeFilter_apply.
    destruct (Configuration.borrower c) as [b|]; [| done].
    rewrite Hpaid. cbn [truthy_decimal]. rewrite Hzero. cbn [negb].
    by repeat destruct (negb _).
  - intros Hnone. unfold BorrowerMinimumPaidInTimeFilter_apply.
    destruct (Configuration.borrower c) as [b|]; [| done].
    rewrite Hnone. cbn. by destruct (negb _).
  - intros Hzero. unfold BorrowerMaximumAverageDaysDelinquentFilter_apply.
    destruct (Configuration.borrower c) as [b|]; [| done].
    rewrite Hzero. cbn. by destruct (negb _).
Qed.

(** X13. DICOM is three-valued and only a definite flag blocks: with the
    section present and the toggle off, the borrower filter accepts exactly
    the requests whose borrower is not flagged true (false or unknown), and
    the debtor filter exactly those with no debtor flagged true, in
    particular every request without debtors. *)
Theorem dicom_filters_block_only_flagged c x
    (b : BorrowerConfiguration.t) (d : DebtorConfiguration.t) :
  Configuration.borrower c = Some b ->
  Configuration.debtor c = Some d ->
  BorrowerConfiguration.ignore_borrower_dicom b = false ->
  DebtorConfiguration.ignore_debtor_dicom d = false ->
  (BorrowerDicomFilter_apply c x = Ok true
   <-> Borrower.dicom (borrower x) <> Some true)
  /\ (DebtorDicomFilter_apply c x = Ok true
      <-> forall debtor, debtor ∈ debtors x -> Debtor.dicom debtor <> Some true)
  /\ (debtors x = [] -> DebtorDicomFilter_apply c x = Ok true).
Proof.
  intros Hb Hd Hib Hid.
  unfold BorrowerDicomFilter_apply, DebtorDicomFilter_apply.
  rewrite Hb, Hd. cbn [getattr Py.bind]. rewrite Hib, Hid.
  split; [| split].
  - destruct (Borrower.dicom (borrower x)) as [[|]|]; simpl; naive_solver.
  - assert (Hex : existsb (fun debtor => truthy_flag (Debtor.dicom debtor)) (debtors x)
                  = false
                  <-> forall debtor, debtor ∈ debtors x ->
                                     Debtor.dicom debtor <> Some true).
    { induction (debtors x) as [|y rest IH]; simpl.
      - split; [intros _ debtor Hin; inversion Hin | done].
      - rewrite orb_false_iff, IH. split.
        + intros [Hy Hrest] debtor [-> | Hin]%elem_of_cons; [| by apply Hrest].
          intros Heq. by rewrite Heq in Hy.
        + intros Hall. split.
          * specialize (Hall y ltac:(left)).
            by destruct (Debtor.dicom y) as [[|]|].
          * intros debtor Hin. apply Hall. by right. }
    rewrite <- Hex. destruct (existsb _ _); simpl; naive_solver.
  - by intros ->.
Qed.

(** X14. Two configurations no request can satisfy: an empty list of target
    credit types makes the credit type filter reject every request (unlike an
    unset list), and a maximum duration below the minimum duration leaves no
    request that passes both duration filters, whatever other filters are
    evaluated with them. *)
Theorem unsatisfiable_configurations c x :
  (Configuration.target_credit_types c = Some [] ->
   CreditTypeFilter_apply c x = Ok false)
  /\ (forall lo hi (filters : list Filter),
        Configuration.minimum_duration c = Some lo ->
        Configuration.maximum_duration c = Some hi ->
        hi < lo ->
        {| class := MinimumDurationFilter; configuration := c |} ∈ filters ->
        {| class := MaximumDurationFilter; configuration := c |} ∈ filters ->
        Cumplo.all_apply apply filters x <> Ok true).
Proof.
  split.
  - intros Hempty. unfold CreditTypeFilter_apply. rewrite Hempty.
    f_equal; try (apply bool_decide_eq_false; inversion 1).
  - intros lo hi filters Hlo Hhi Hlt Hmin Hmax Hall.
    rewrite all_apply_true in Hall.
    pose proof (Hall _ Hmin) as H1. pose proof (Hall _ Hmax) as H2.
    unfold apply in H1, H2. cbn [class configuration] in H1, H2.
    unfold MinimumDurationFilter_apply in H1. unfold MaximumDurationFilter_apply in H2.
    rewrite Hlo in H1. rewrite Hhi in H2.
    injection H1 as H1. injection H2 as H2.
    unfold ge_int in H1. unfold le_int in H2. lia.
Qed.

End ThresholdFacts.

(* ===================================================================== *)
(** ** The credit history text (integrations/cumplo.py) *)
(* ===================================================================== *)

Section HistoryFacts.
Import History.

Implicit Types (s old new : list N) (c sep : N).

Lemma replace_from_sublist old skip s : replace_from old [] skip s `sublist_of` s.
Proof.
  revert skip. induction s as [|c rest IH]; intros skip; [done |].
  cbn [replace_from]. destruct skip as [|n].
  - destruct (starts_with old (c :: rest)).
    + simpl. apply sublist_cons, IH.
    + apply sublist_skip, IH.
  - apply sublist_cons, IH.
Qed.

Lemma replace_newline_removes s : 10%N ∉ replace NEWLINE [] s.
Proof.
  unfold replace, NEWLINE. induction s as [|c rest IH]; [inversion 1 |].
  cbn [replace_from starts_with length Nat.sub].
  destruct (N.eqb_spec 10 c) as [<- | Hne]; simpl; [exact IH |].
  intros [Heq | Hin]%elem_of_cons; [congruence | by apply IH].
Qed.

Lemma replace_from_without_first c old' new s :
  c ∉ s -> replace_from (c :: old') new 0 s = s.
Proof.
  induction s as [|d rest IH]; [done |]. intros Hnot.
  cbn [replace_from starts_with].
  destruct (N.eqb_spec c d) as [-> | Hne]; [exfalso; apply Hnot; left |].
  simpl. f_equal. apply IH. intros Hin. apply Hnot. by right.
Qed.

Lemma replace_from_app_without_first c old' new s tail :
  c ∉ s ->
  replace_from (c :: old') new 0 (s ++ tail) = s ++ replace_from (c :: old') new 0 tail.
Proof.
  induction s as [|d rest IH]; [done |]. intros Hnot.
  rewrite <- !app_comm_cons. cbn [replace_from starts_with].
  destruct (N.eqb_spec c d) as [-> | Hne]; [exfalso; apply Hnot; left |].
  simpl. f_equal. apply IH. intros Hin. apply Hnot. by right.
Qed.

Lemma split_fields sep s :
  split sep s <> []
  /\ forall field, field ∈ split sep s -> (sep ∉ field) /\ (field `sublist_of` s).
Proof.
  induction s as [|c rest [Hne IH]]; simpl.
  - split; [done |]. intros field Hin. apply list_elem_of_singleton in Hin as ->.
    split; [inversion 1 | done].
  - destruct (N.eqb_spec c sep) as [-> | Hc].
    + split; [done |]. intros field [-> | Hin]%elem_of_cons.
      * split; [inversion 1 | apply sublist_nil_l].
      * destruct (IH _ Hin). split; [done | by apply sublist_cons].
    + destruct (split sep rest) as [|field0 fields]; [done |].
      split; [done |]. intros field [-> | Hin]%elem_of_cons.
      * destruct (IH field0 ltac:(left)) as [Hsep Hsub]. split.
        -- intros [Heq | Hin]%elem_of_cons; [congruence | done].
        -- by apply sublist_skip.
      * destruct (IH field ltac:(by right)). split; [done | by apply sublist_cons].
Qed.

Lemma last_elem_of {A : Type} (l : list A) (d : A) : l <> [] -> List.last l d ∈ l.
Proof.
  induction l as [|x [|y rest] IH]; [done | left |].
  intros _. right. by apply IH.
Qed.

Lemma split_without_sep sep s : sep ∉ s -> split sep s = [s].
Proof.
  induction s as [|c rest IH]; [done |]. intros Hnot. simpl.
  destruct (N.eqb_spec c sep) as [-> | Hc]; [exfalso; apply Hnot; left |].
  rewrite IH; [done |]. intros Hin. apply Hnot. by right.
Qed.

Lemma split_app sep s tail :
  split sep (s ++ sep :: tail) = split sep s ++ split sep tail.
Proof.
  induction s as [|c rest IH].
  - simpl. by rewrite N.eqb_refl.
  - rewrite <- app_comm_cons. cbn [split]. rewrite IH.
    destruct (split_fields sep rest) as [Hne _].
    destruct (c =? sep)%N; [done |].
    by destruct (split sep rest).
Qed.

Lemma last_app_nonempty {A : Type} (l l' : list A) (d : A) :
  l' <> [] -> List.last (l ++ l') d = List.last l' d.
Proof.
  intros Hne. induction l as [|x rest IH]; [done |].
  rewrite <- app_comm_cons. cbn [List.last].
  destruct (rest ++ l') eqn:E; [| exact IH].
  by apply app_eq_nil in E as [_ ->].
Qed.

Lemma last_split_app sep s value :
  sep ∉ value -> List.last (split sep (s ++ sep :: value)) [] = value.
Proof.
  intros Hnot. rewrite split_app, (split_without_sep sep value) by done.
  by rewrite last_app_nonempty.
Qed.

Lemma lstrip_suffix s :
  exists spaces, s = spaces ++ lstrip s /\ forallb isspace spaces = true.
Proof.
  induction s as [|c rest (spaces & Heq & Hsp)]; [by exists [] |].
  cbn [lstrip]. destruct (isspace c) eqn:Hc.
  - exists (c :: spaces). split; [by rewrite <- app_comm_cons, <- Heq |].
    simpl. by rewrite Hc.
  - by exists [].
Qed.

Lemma lstrip_head s c : head (lstrip s) = Some c -> isspace c = false.
Proof.
  induction s as [|d rest IH]; [done |]. cbn [lstrip].
  destruct (isspace d) eqn:Hd; [exact IH |]. by intros [= <-].
Qed.

Lemma lstrip_sublist s : lstrip s `sublist_of` s.
Proof.
  destruct (lstrip_suffix s) as (spaces & Heq & _).
  rewrite Heq at 2. apply sublist_inserts_l. done.
Qed.

Lemma sublist_reverse {A : Type} (l1 l2 : list A) :
  l1 `sublist_of` l2 -> reverse l1 `sublist_of` reverse l2.
Proof.
  induction 1 as [|x l1 l2 _ IH|x l1 l2 _ IH]; [done | |].
  - rewrite !reverse_cons. by apply sublist_app.
  - rewrite reverse_cons. by apply sublist_inserts_r.
Qed.

Lemma strip_sublist s : strip s `sublist_of` s.
Proof.
  unfold strip, rstrip. etransitivity; [apply lstrip_sublist |].
  rewrite <- (reverse_involutive s) at 2. apply sublist_reverse, lstrip_sublist.
Qed.

Lemma strip_ends s :
  (forall c, head (strip s) = Some c -> isspace c = false)
  /\ (forall c, last (strip s) = Some c -> isspace c = false).
Proof.
  unfold strip. split; [apply lstrip_head |].
  intros c Hlast.
  destruct (lstrip_suffix (rstrip s)) as (spaces & Heq & _).
  assert (Hlast' : last (rstrip s) = Some c).
  { destruct (lstrip (rstrip s)) as [|x rest] eqn:E; [done |].
    rewrite Heq, last_app_cons. exact Hlast. }
  unfold rstrip in Hlast'. rewrite last_reverse in Hlast'.
  by apply lstrip_head in Hlast'.
Qed.

Lemma strip_identity_on_clean s :
  (forall c, head s = Some c -> isspace c = false) ->
  (forall c, last s = Some c -> isspace c = false) ->
  strip s = s.
Proof.
  intros Hhead Hlast.
  assert (Hl : forall t, (forall c, head t = Some c -> isspace c = false) ->
                         lstrip t = t).
  { intros [|c t] Ht; [done |]. cbn [lstrip]. by rewrite (Ht c). }
  unfold strip, rstrip. rewrite (Hl (reverse s)).
  - rewrite reverse_involutive. by apply Hl.
  - intros c Hc. apply Hlast. by rewrite <- head_reverse.
Qed.

(** X15. The extracted credit history value never contains a colon or a
    newline and has no white space at either end, whatever the text of the
    element. *)
Theorem extract_history_data_shape (text : list N) :
  (COLON ∉ _extract_history_data text)
  /\ (10%N ∉ _extract_history_data text)
  /\ (forall c, head (_extract_history_data text) = Some c -> isspace c = false)
  /\ (forall c, last (_extract_history_data text) = Some c -> isspace c = false).
Proof.
  unfold _extract_history_data.
  set (cleaned := replace PERCENT_MARK [] (replace NEWLINE [] text)).
  destruct (split_fields COLON cleaned) as [Hne Hfields].
  destruct (Hfields _ (last_elem_of _ [] Hne)) as [Hcolon Hsub].
  split; [| split; [| apply strip_ends]].
  - intros Hin. apply Hcolon. eapply elem_of_sublist; [exact Hin | apply strip_sublist].
  - intros Hin. apply (replace_newline_removes text).
    eapply elem_of_sublist; [exact Hin |].
    etransitivity; [apply strip_sublist |].
    etransitivity; [exact Hsub |]. apply replace_from_sublist.
Qed.

(** X16. On a text of the form "label: value", with or without the trailing
    percent mark, the extraction returns the value stripped of surrounding
    white space, provided label and value contain no newline and no percent
    sign and the value contains no colon. *)
Theorem extract_history_data_labelled (label value : list N) :
  10%N ∉ label ++ value ->
  37%N ∉ label ++ value ->
  COLON ∉ value ->
  _extract_history_data (label ++ COLON :: value) = strip value
  /\ _extract_history_data (label ++ COLON :: value ++ PERCENT_MARK) = strip value.
Proof.
  intros Hnl Hpc Hcolon.
  assert (Hnl' : 10%N ∉ label ++ COLON :: value).
  { intros Hin. apply Hnl. rewrite elem_of_app in Hin. rewrite elem_of_app.
    destruct Hin as [? | [Heq | ?]%elem_of_cons]; [auto | discriminate | auto]. }
  assert (Hpc' : 37%N ∉ label ++ COLON :: value).
  { intros Hin. apply Hpc. rewrite elem_of_app in Hin. rewrite elem_of_app.
    destruct Hin as [? | [Heq | ?]%elem_of_cons]; [auto | discriminate | auto]. }
  unfold _extract_history_data, replace, NEWLINE, PERCENT_MARK. split.
  - rewrite (replace_from_without_first 10) by done.
    rewrite (replace_from_without_first 37) by done.
    by rewrite last_split_app.
  - rewrite (replace_from_without_first 10).
    + replace (label ++ COLON :: value ++ [37; 40; 42; 41]%N)
        with ((label ++ COLON :: value) ++ [37; 40; 42; 41]%N)
        by (by rewrite <- app_assoc).
      rewrite replace_from_app_without_first by done.
      change (replace_from [37; 40; 42; 41]%N [] 0 [37; 40; 42; 41]%N) with (@nil N).
      rewrite app_nil_r. by rewrite last_split_app.
    + intros Hin. rewrite app_comm_cons, app_assoc in Hin.
      apply elem_of_app in Hin as [Hin | Hin]; [done |].
      repeat (apply elem_of_cons in Hin as [Heq | Hin]; [discriminate |]).
      inversion Hin.
Qed.

End HistoryFacts.

(* ===================================================================== *)
(** ** The pipeline of [get_funding_requests] (integrations/cumplo.py) *)
(* ===================================================================== *)

Section SortFacts.
Import Pipeline.
Context {A : Type}.
Variable key : A -> Q.

Local Abbreviation descending := (fun a b : A => (key b <= key a)%Q).

Lemma insert_descending_perm (item : A) (sorted : list A) :
  insert_descending key item sorted ≡ₚ item :: sorted.
Proof.
  induction sorted as [|other rest IH]; simpl; [done |].
  destruct (Qle_bool (key other) (key item)); [done |].
  rewrite IH. apply perm_swap.
Qed.

Lemma sort_descending_perm (items : list A) : sort_descending key items ≡ₚ items.
Proof.
  induction items as [|item rest IH]; simpl; [done |].
  by rewrite insert_descending_perm, IH.
Qed.

Lemma insert_descending_sorted (item : A) (sorted : list A) :
  StronglySorted descending sorted ->
  StronglySorted descending (insert_descending key item sorted).
Proof.
  induction 1 as [|other rest Hsorted IH Hall]; simpl.
  - by repeat constructor.
  - destruct (Qle_bool (key other) (key item)) eqn:Hle.
    + apply Qle_bool_iff in Hle. constructor; [by constructor |].
      constructor; [done |].
      eapply Forall_impl; [exact Hall |]. intros z Hz. simpl in *.
      by eapply Qle_trans.
    + constructor; [exact IH |].
      rewrite insert_descending_perm. constructor; [| done].
      destruct (Qlt_le_dec (key item) (key other)) as [Hlt | Hge].
      * by apply Qlt_le_weak.
      * apply Qle_bool_iff in Hge. congruence.
Qed.

Lemma sort_descending_sorted (items : list A) :
  StronglySorted descending (sort_descending key items).
Proof.
  induction items as [|item rest IH]; simpl; [constructor |].
  by apply insert_descending_sorted.
Qed.

Lemma strongly_sorted_lookup (R : A -> A -> Prop) (l : list A) (i j : nat) (a b : A) :
  StronglySorted R l -> (i < j)%nat -> l !! i = Some a -> l !! j = Some b -> R a b.
Proof.
  intros Hsorted. revert i j. induction Hsorted as [|x rest _ IH Hall];
    intros i j Hij Hi Hj; [done |].
  destruct j as [|j]; [lia |]. simpl in Hj. destruct i as [|i].
  - simpl in Hi. injection Hi as <-.
    rewrite Forall_forall in Hall. apply Hall. by eapply list_elem_of_lookup_2.
  - simpl in Hi. apply (IH i j); [lia | done | done].
Qed.

End SortFacts.

Section PipelineFacts.
Import Cumplo Pipeline.
Context {CreditHistory BorrowerData RequestData Filter : Type}.

Local Abbreviation Request := (@FundingRequest CreditHistory BorrowerData RequestData).

Variable apply : Filter -> Request -> result bool.
Variable get_credit_history : Z -> result CreditHistory.
Variable monthly_profit_rate : Request -> Q.

Local Abbreviation run := (get_funding_requests apply get_credit_history monthly_profit_rate).
Local Abbreviation fetched := (Cumplo.fetched get_credit_history).

(** The stages of a run that returns, spelled out. *)
Lemma get_funding_requests_inv (h h' : Heap Request) (available final : positive)
    (refs : list positive) (first second : list Filter) :
  lists h !! available = Some refs ->
  run h available first second = Some (Ok (final, h')) ->
  exists (kept1 kept2 : list (positive * Request)),
    (forall r x, (r, x) ∈ kept1
                 <-> r ∈ refs /\ objects h !! r = Some x
                     /\ all_apply apply first x = Ok true)
    /\ kept1.*1 `sublist_of` refs
    /\ (forall r x', (r, x') ∈ kept2
                     <-> exists x, (r, x) ∈ kept1 /\ x' = fetched x
                                   /\ all_apply apply second x' = Ok true)
    /\ kept2.*1 `sublist_of` kept1.*1
    /\ (forall r, objects h' !! r = enriched get_credit_history kept1.*1 r <$> objects h !! r)
    /\ lists h' !! final
       = Some (sort_descending (fun item => monthly_profit_rate item.2) kept2).*1
    /\ lists h' !! available = Some refs
    /\ final <> available
    /\ (forall r x, (r, x) ∈ kept1 -> is_ok (get_credit_history (id x))).
Proof.
  intros Hl Hrun. unfold get_funding_requests in Hrun.
  destruct (_filter_funding_requests apply h available first)
    as [[[l1 h1]|e]|] eqn:Hstage1; try discriminate.
  destruct (filter_funding_requests_inv apply h available refs first l1 h1 Hl Hstage1)
    as (items1 & kept1 & Hderef1 & Hfst1 & Hobj1 & Hkept1 & -> & ->).
  set (l1 := fresh (dom (lists h))) in *.
  set (h1 := {| objects := objects h; lists := <[l1 := kept1.*1]> (lists h) |}) in *.
  assert (Hl1 : l1 <> available).
  { intros Heq. pose proof (fresh_list_unallocated h) as Hfresh.
    fold l1 in Hfresh. rewrite Heq in Hfresh. congruence. }
  assert (Hin1 : forall r x, (r, x) ∈ kept1 -> (r, x) ∈ items1
                             /\ all_apply apply first x = Ok true).
  { intros r x Hin. by apply (filter_list_elem_of _ _ _ Hkept1) in Hin. }
  assert (Hl1' : lists h1 !! l1 = Some kept1.*1) by (simpl; apply lookup_insert_eq).
  destruct (gather_full_funding_requests get_credit_history h1 l1)
    as [[[l2 h2']|e]|] eqn:Hstage2; try discriminate.
  pose proof (gather_full_funding_requests_outcome get_credit_history h1 l1 kept1.*1 _
                Hl1' Hstage2) as Hfetch. cbn beta iota in Hfetch.
  destruct (gather_full_funding_requests_lookup get_credit_history h1 l1 kept1.*1)
    as (h2 & Hgather & Hlists2 & Hobjs2); [exact Hl1' | | exact Hfetch |].
  { intros r ([r' x] & -> & Hin)%list_elem_of_fmap. simpl.
    destruct (Hin1 _ _ Hin) as [Hin' _]. rewrite (Hobj1 _ _ Hin'). eauto. }
  rewrite Hgather in Hstage2. injection Hstage2 as <- <-.
  destruct (_filter_funding_requests apply h2 l1 second)
    as [[[l3 h3]|e]|] eqn:Hstage3; try discriminate.
  assert (Hl2 : lists h2 !! l1 = Some kept1.*1).
  { rewrite Hlists2. simpl. apply lookup_insert_eq. }
  destruct (filter_funding_requests_inv apply h2 l1 kept1.*1 second l3 h3 Hl2 Hstage3)
    as (items2 & kept2 & Hderef2 & Hfst2 & Hobj2 & Hkept2 & -> & ->).
  set (l3 := fresh (dom (lists h2))) in *.
  set (h3 := {| objects := objects h2; lists := <[l3 := kept2.*1]> (lists h2) |}) in *.
  assert (Hderef3 : deref h3 l3 = Some kept2).
  { apply deref_items; [simpl; apply lookup_insert_eq |].
    intros r x Hin. simpl. apply Hobj2.
    by apply (filter_list_elem_of _ _ _ Hkept2) in Hin as [Hin _]. }
  unfold sort_by_profit in Hrun. rewrite Hderef3 in Hrun.
  injection Hrun as <- <-.
  assert (Hl3 : l3 <> available /\ l3 <> l1).
  { pose proof (fresh_list_unallocated h2) as Hfresh. fold l3 in Hfresh.
    rewrite Hlists2 in Hfresh. simpl in Hfresh. split; intros Heq.
    - rewrite Heq, lookup_insert_ne, Hl in Hfresh by done. discriminate.
    - rewrite Heq, lookup_insert_eq in Hfresh. discriminate. }
  assert (Hitems1 : forall r x, r ∈ refs -> objects h !! r = Some x -> (r, x) ∈ items1).
  { intros r x Hr Hx. rewrite <- Hfst1 in Hr.
    apply list_elem_of_fmap in Hr as ([r' x'] & -> & Hin). simpl in *.
    pose proof (Hobj1 _ _ Hin) as Hx'. rewrite Hx in Hx'. by injection Hx' as <-. }
  assert (Hitems2 : forall r x, (r, x) ∈ kept1 -> (r, fetched x) ∈ items2).
  { intros r x Hin.
    assert (Hr : r ∈ items2.*1).
    { rewrite Hfst2. apply list_elem_of_fmap. by exists (r, x). }
    apply list_elem_of_fmap in Hr as ([r' x2] & -> & Hin2). simpl in *.
    pose proof (Hobj2 _ _ Hin2) as Hx2. rewrite Hobjs2 in Hx2. simpl in Hx2.
    destruct (Hin1 _ _ Hin) as [Hin' _]. rewrite (Hobj1 _ _ Hin') in Hx2.
    simpl in Hx2. injection Hx2 as <-. unfold enriched in Hin2.
    rewrite decide_True in Hin2; [done |].
    apply list_elem_of_fmap. by exists (r', x). }
  exists kept1, kept2.
  split; [| split; [| split; [| split; [| split; [| split; [| split; [| split]]]]]]];
    [| | | | | | | by destruct Hl3 |].
  - intros r x. rewrite (filter_list_elem_of _ _ _ Hkept1 (r, x)). simpl. split.
    + intros [Hin Hall]. split; [| split; [by apply Hobj1 | done]].
      rewrite <- Hfst1. apply list_elem_of_fmap. by exists (r, x).
    + intros (Hr & Hx & Hall). split; [by apply Hitems1 | done].
  - rewrite <- Hfst1. apply fmap_sublist. by eapply filter_list_sublist.
  - intros r x'. rewrite (filter_list_elem_of _ _ _ Hkept2 (r, x')). simpl. split.
    + intros [Hin Hall].
      assert (Hr : r ∈ kept1.*1).
      { rewrite <- Hfst2. apply list_elem_of_fmap. by exists (r, x'). }
      apply list_elem_of_fmap in Hr as ([r' x] & -> & Hin'). simpl in *.
      exists x. split; [done |]. split; [| done].
      pose proof (Hobj2 _ _ Hin) as Hx'. rewrite Hobjs2 in Hx'. simpl in Hx'.
      destruct (Hin1 _ _ Hin') as [Hin1' _]. rewrite (Hobj1 _ _ Hin1') in Hx'.
      simpl in Hx'. injection Hx' as <-. unfold enriched.
      rewrite decide_True; [done |]. apply list_elem_of_fmap. by exists (r', x).
    + intros (x & Hin & -> & Hall). split; [by apply Hitems2 | done].
  - rewrite <- Hfst2. apply fmap_sublist. by eapply filter_list_sublist.
  - intros r. simpl. rewrite Hobjs2. reflexivity.
  - simpl. apply lookup_insert_eq.
  - simpl. destruct Hl3 as [Hl3a Hl3b].
    rewrite !lookup_insert_ne by done. rewrite Hlists2. simpl.
    by rewrite lookup_insert_ne.
  - intros r x Hin. destruct (Hin1 _ _ Hin) as [Hin' _].
    apply (Hfetch r x); [| exact (Hobj1 _ _ Hin')].
    apply list_elem_of_fmap. by exists (r, x).
Qed.

Lemma fetched_Ok (x : Request) (credit_history : CreditHistory) :
  get_credit_history (id x) = Ok credit_history ->
  fetched x = set_history x credit_history.
Proof. intros Hch. unfold Cumplo.fetched. by rewrite Hch. Qed.

Lemma kept1_refs (h : Heap Request) (refs : list positive) (first : list Filter)
    (kept1 : list (positive * Request)) :
  (forall r x, (r, x) ∈ kept1
               <-> r ∈ refs /\ objects h !! r = Some x
                   /\ all_apply apply first x = Ok true) ->
  forall r x, objects h !! r = Some x ->
              (r ∈ kept1.*1 <-> r ∈ refs /\ all_apply apply first x = Ok true).
Proof.
  intros Hkept1 r x Hx. rewrite list_elem_of_fmap. split.
  - intros ([r' x0] & -> & Hin). simpl in *.
    apply Hkept1 in Hin as (Hr & Hx0 & Hall). rewrite Hx in Hx0.
    injection Hx0 as <-. done.
  - intros [Hr Hall]. exists (r, x). split; [done |]. by apply Hkept1.
Qed.

(** X17. When [get_funding_requests] returns, the list it returns holds
    exactly the requests of the available list that pass the first filters
    as fetched and the second filters once their credit history is set, and
    it is ordered by monthly profit rate, highest first. *)
Theorem get_funding_requests_sorted_selection (h h' : Heap Request)
    (available final : positive) (refs : list positive) (first second : list Filter) :
  lists h !! available = Some refs ->
  run h available first second = Some (Ok (final, h')) ->
  exists out,
    lists h' !! final = Some out
    /\ (forall r, r ∈ out
                  <-> r ∈ refs
                      /\ exists x credit_history,
                           objects h !! r = Some x
                           /\ all_apply apply first x = Ok true
                           /\ get_credit_history (id x) = Ok credit_history
                           /\ all_apply apply second (set_history x credit_history)
                              = Ok true)
    /\ (forall (i j : nat) r1 r2 x1 x2,
          (i < j)%nat -> out !! i = Some r1 -> out !! j = Some r2 ->
          objects h' !! r1 = Some x1 -> objects h' !! r2 = Some x2 ->
          (monthly_profit_rate x2 <= monthly_profit_rate x1)%Q).
Proof.
  intros Hl Hrun.
  destruct (get_funding_requests_inv h h' available final refs first second Hl Hrun)
    as (kept1 & kept2 & Hkept1 & _ & Hkept2 & _ & Hobjs & Hfinal & _ & _ & Hfetch).
  set (key := fun item : positive * Request => monthly_profit_rate item.2) in *.
  exists (sort_descending key kept2).*1. split; [exact Hfinal |]. split.
  - intros r. rewrite list_elem_of_fmap. split.
    + intros ([r' x'] & -> & Hin). simpl.
      rewrite sort_descending_perm in Hin.
      apply Hkept2 in Hin as (x & Hin & -> & Hall).
      pose proof (Hfetch _ _ Hin) as Hok.
      apply Hkept1 in Hin as (Hr & Hx & Hfirst).
      destruct (get_credit_history (id x)) as [ch|e] eqn:Hch; [| done].
      rewrite (fetched_Ok x ch Hch) in Hall. eauto 8.
    + intros (Hr & x & ch & Hx & Hfirst & Hch & Hsecond). exists (r, fetched x).
      split; [done |]. rewrite sort_descending_perm. apply Hkept2.
      exists x. split; [by apply Hkept1 |]. split; [done |].
      by rewrite (fetched_Ok x ch Hch).
  - intros i j r1 r2 x1 x2 Hij Hi Hj Hx1 Hx2.
    apply list_lookup_fmap_Some in Hi as ([r1' y1] & -> & Hi).
    apply list_lookup_fmap_Some in Hj as ([r2' y2] & -> & Hj).
    simpl in *.
    assert (Hobject : forall r y, (r, y) ∈ sort_descending key kept2 ->
                                  objects h' !! r = Some y).
    { intros r y Hin. rewrite sort_descending_perm in Hin.
      apply Hkept2 in Hin as (x & Hin & -> & _).
      pose proof Hin as (Hr & Hx & Hfirst)%Hkept1.
      rewrite Hobjs, Hx. simpl. unfold enriched.
      rewrite decide_True; [done |]. apply list_elem_of_fmap. by exists (r, x). }
    pose proof (Hobject _ _ (list_elem_of_lookup_2 (sort_descending key kept2) i
                               (r1', y1) Hi)) as Hy1.
    pose proof (Hobject _ _ (list_elem_of_lookup_2 (sort_descending key kept2) j
                               (r2', y2) Hj)) as Hy2.
    rewrite Hx1 in Hy1. rewrite Hx2 in Hy2. injection Hy1 as ->. injection Hy2 as ->.
    apply (strongly_sorted_lookup (fun a b => (key b <= key a)%Q)
             (sort_descending key kept2) i j (r1', y1) (r2', y2));
      [apply sort_descending_sorted | done | done | done].
Qed.

(** X18. When [get_funding_requests] returns, the credit history has been
    fetched and stored for exactly the requests that passed the first
    filters; every other request is as it was, and so is the list of
    available requests. *)
Theorem get_funding_requests_effects (h h' : Heap Request)
    (available final : positive) (refs : list positive) (first second : list Filter) :
  lists h !! available = Some refs ->
  run h available first second = Some (Ok (final, h')) ->
  lists h' !! available = Some refs
  /\ final <> available
  /\ (forall r, objects h !! r = None -> objects h' !! r = None)
  /\ forall r x,
       objects h !! r = Some x ->
       (r ∈ refs -> all_apply apply first x = Ok true ->
        exists credit_history,
          get_credit_history (id x) = Ok credit_history
          /\ objects h' !! r = Some (set_history x credit_history))
       /\ (r ∉ refs \/ all_apply apply first x <> Ok true ->
           objects h' !! r = Some x).
Proof.
  intros Hl Hrun.
  destruct (get_funding_requests_inv h h' available final refs first second Hl Hrun)
    as (kept1 & kept2 & Hkept1 & _ & _ & _ & Hobjs & Hfinal & Havailable & Hne & Hfetch).
  split; [exact Havailable |]. split; [exact Hne |]. split.
  - intros r Hnone. by rewrite Hobjs, Hnone.
  - intros r x Hx. rewrite Hobjs, Hx. simpl. unfold enriched.
    pose proof (kept1_refs h refs first kept1 Hkept1 r x Hx) as Hiff. split.
    + intros Hr Hall.
      assert (Hin : (r, x) ∈ kept1) by (by apply Hkept1).
      pose proof (Hfetch _ _ Hin) as Hok.
      destruct (get_credit_history (id x)) as [ch|e] eqn:Hch; [| done].
      exists ch. split; [done |].
      rewrite decide_True by (by apply Hiff). by rewrite (fetched_Ok x ch Hch).
    + intros Hnot. rewrite decide_False; [done |].
      intros (Hr & Hall)%Hiff. destruct Hnot; done.
Qed.

End PipelineFacts.

(* ===================================================================== *)
(** ** The scheduling handlers (routers/funding_requests.py) *)
(* ===================================================================== *)

Lemma string_app_inj_l (prefix a b : string) :
  prefix +:+ a = prefix +:+ b -> a = b.
Proof. induction prefix as [|c rest IH]; simpl; [done |]. intros [= Heq]. auto. Qed.

Section HandlerFacts.
Import Handlers.
Context {FundingRequest : Type} `{Countable FundingRequest}.
Context {Key : Type} `{Countable Key}.
Context {Configuration Serialized : Type}.
Variables CUMPLO_SPOTTER_URL CUMPLO_SPOTTER_QUEUE : string.
Variables CUMPLO_HERALD_URL CUMPLO_HERALD_QUEUE : string.
Variable filter_ : list FundingRequest -> Configuration -> result (list FundingRequest).
Variable request_id : FundingRequest -> Z.
Variable serialize : FundingRequest -> Serialized.

Local Abbreviation fetch :=
  (fetch_funding_requests (FundingRequest := FundingRequest) (Key := Key)
     (Configuration := Configuration) CUMPLO_SPOTTER_URL CUMPLO_SPOTTER_QUEUE).
Local Abbreviation handler :=
  (Handlers.filter_funding_requests CUMPLO_HERALD_URL CUMPLO_HERALD_QUEUE
     filter_ request_id serialize).
Local Abbreviation body := (webhook_body request_id serialize).

(** X19. [fetch_funding_requests] creates one task for each user with a
    webhook URL, in the order of the users, and none for the others; every
    task carries its user's id and the complete batch; users without a
    webhook URL alone give no task; and users with different ids get tasks
    with different task ids. *)
Theorem fetch_schedules_webhook_users (users : list (User.t Key Configuration))
    (funding_requests : list FundingRequest) :
  payload <$> fetch users funding_requests
  = (fun user => (User.id user, funding_requests))
      <$> List.filter (fun user => has_webhook_url (User.webhook_url user)) users
  /\ ((forall user, user ∈ users -> has_webhook_url (User.webhook_url user) = false) ->
      fetch users funding_requests = [])
  /\ (NoDup (User.id <$> users) ->
      NoDup (task_id <$> fetch users funding_requests)).
Proof.
  split; [| split].
  - induction users as [|user rest IH]; [done |].
    cbn [fetch_funding_requests List.filter].
    destruct (has_webhook_url (User.webhook_url user)); cbn [negb]; [| exact IH].
    rewrite !fmap_cons. cbn [payload]. by rewrite IH.
  - induction users as [|user rest IH]; [done |]. intros Hnone.
    cbn [fetch_funding_requests]. rewrite (Hnone user) by left. cbn [negb].
    apply IH. intros other Hother. apply Hnone. by right.
  - assert (Hsub : task_id <$> fetch users funding_requests
                   = (fun user => "filter-funding-requests-" +:+ User.id user)
                       <$> List.filter
                             (fun user => has_webhook_url (User.webhook_url user))
                             users).
    { induction users as [|user rest IH]; [done |].
      cbn [fetch_funding_requests List.filter].
      destruct (has_webhook_url (User.webhook_url user)); cbn [negb]; [| exact IH].
      rewrite !fmap_cons. cbn [task_id]. by rewrite IH. }
    intros Hnodup. rewrite Hsub.
    change (fun user : User.t Key Configuration =>
              "filter-funding-requests-" +:+ User.id user)
      with ((fun i => "filter-funding-requests-" +:+ i) ∘ User.id (Key := Key)
              (Configuration := Configuration)).
    rewrite list_fmap_compose.
    apply NoDup_fmap_2; [intros a b; apply string_app_inj_l |].
    eapply sublist_NoDup; [exact Hnodup |]. apply fmap_sublist.
    clear. induction users as [|user rest IH]; [done |]. cbn [List.filter].
    destruct (has_webhook_url _); [by apply sublist_skip | by apply sublist_cons].
Qed.

Lemma webhook_body_snoc (promising : list FundingRequest) (x : FundingRequest) :
  body (promising ++ [x]) = <[request_id x := serialize x]> (body promising).
Proof. unfold webhook_body. by rewrite foldl_app. Qed.

Lemma webhook_body_lookup (promising : list FundingRequest) (k : Z) (v : Serialized) :
  body promising !! k = Some v ->
  exists x, x ∈ promising /\ request_id x = k /\ serialize x = v.
Proof.
  induction promising as [|x rest IH] using rev_ind; [done |].
  rewrite webhook_body_snoc. destruct (decide (request_id x = k)) as [<- | Hne].
  - rewrite lookup_insert_eq. intros [= <-]. exists x.
    split; [apply elem_of_app; right; left | done].
  - rewrite lookup_insert_ne by done. intros (y & Hy & Hid & Hser)%IH.
    exists y. split; [apply elem_of_app; by left | done].
Qed.

Lemma webhook_body_covers (promising : list FundingRequest) (x : FundingRequest) :
  x ∈ promising -> is_Some (body promising !! request_id x).
Proof.
  induction promising as [|y rest IH] using rev_ind; [inversion 1 |].
  rewrite webhook_body_snoc. intros [Hin | Hin%list_elem_of_singleton]%elem_of_app.
  - destruct (decide (request_id y = request_id x)) as [-> | Hne].
    + rewrite lookup_insert_eq. eauto.
    + rewrite lookup_insert_ne by done. auto.
  - subst y. rewrite lookup_insert_eq. eauto.
Qed.

(** X20. The handler of the filtering task schedules nothing when no request
    is promising (and then does not look at the webhook URL), fails its
    assertion when requests are promising but the user has no webhook URL,
    and otherwise schedules one task whose body has exactly the ids of the
    promising requests as keys, each mapped to the serialization of a
    promising request with that id (of the request itself when ids are
    unique). *)
Theorem filter_handler_outcomes (user : User.t Key Configuration)
    (funding_requests : list FundingRequest) (promising : gset FundingRequest) :
  Routers.filter_funding_requests filter_ (User.configurations user) funding_requests
  = Ok promising ->
  (promising = ∅ -> handler user funding_requests = Completed None)
  /\ (promising <> ∅ -> has_webhook_url (User.webhook_url user) = false ->
      exists message, handler user funding_requests = AssertionFailed message)
  /\ (promising <> ∅ -> has_webhook_url (User.webhook_url user) = true ->
      exists task,
        handler user funding_requests = Completed (Some task)
        /\ (forall k, is_Some (payload task !! k)
                      <-> exists x, x ∈ promising /\ request_id x = k)
        /\ (forall k v, payload task !! k = Some v ->
                        exists x, x ∈ promising /\ request_id x = k /\ serialize x = v)
        /\ ((forall x y, x ∈ promising -> y ∈ promising ->
                         request_id x = request_id y -> x = y) ->
            forall x, x ∈ promising ->
                      payload task !! request_id x = Some (serialize x))).
Proof.
  intros Hrun. unfold Handlers.filter_funding_requests. rewrite Hrun.
  split; [| split].
  - intros ->. by rewrite bool_decide_eq_true_2.
  - intros Hne Hweb. rewrite bool_decide_eq_false_2 by done. rewrite Hweb. simpl. eauto.
  - intros Hne Hweb. rewrite bool_decide_eq_false_2 by done. rewrite Hweb. simpl.
    eexists. split; [reflexivity |]. cbn [payload].
    assert (Hlookup : forall k v, body (elements promising) !! k = Some v ->
                                  exists x, x ∈ promising /\ request_id x = k
                                            /\ serialize x = v).
    { intros k v (x & Hx & Hid & Hser)%webhook_body_lookup.
      exists x. by rewrite <- elem_of_elements. }
    assert (Hcovers : forall x, x ∈ promising ->
                                is_Some (body (elements promising) !! request_id x)).
    { intros x Hx. apply webhook_body_covers. by apply elem_of_elements. }
    split; [| split; [exact Hlookup |]].
    + intros k. split.
      * intros [v (x & Hx & Hid & _)%Hlookup]. eauto.
      * intros (x & Hx & <-). by apply Hcovers.
    + intros Hunique x Hx. destruct (Hcovers x Hx) as [v Hv].
      destruct (Hlookup _ _ Hv) as (y & Hy & Hid & <-).
      by rewrite Hv, (Hunique y x Hy Hx Hid).
Qed.

End HandlerFacts.

(* ===================================================================== *)
(** ** The key shown in logs and errors (integrations/firestore.py) *)
(* ===================================================================== *)

(** X21. The key written to logs and error messages is three full stops
    followed by at most the last ten characters of the API key: for a key of
    more than ten characters nothing but its last ten is shown, while a key
    of at most ten characters is shown whole. *)
Theorem secure_api_key_shows_last_ten (api_key : list N) :
  length (Firestore.secure_api_key api_key) = (3 + Nat.min 10 (length api_key))%nat
  /\ (forall hidden shown,
        api_key = hidden ++ shown -> length shown = 10%nat ->
        Firestore.secure_api_key api_key = [46; 46; 46]%N ++ shown)
  /\ ((length api_key <= 10)%nat ->
      Firestore.secure_api_key api_key = [46; 46; 46]%N ++ api_key).
Proof.
  unfold Firestore.secure_api_key, Firestore.last_chars. split; [| split].
  - rewrite length_app, length_drop. cbn [length]. lia.
  - intros hidden shown -> Hshown. f_equal.
    rewrite length_app, Hshown.
    replace (length hidden + 10 - 10)%nat with (length hidden) by lia.
    by rewrite drop_app_length.
  - intros Hshort. f_equal.
    replace (length api_key - 10)%nat with 0%nat by lia. done.
Qed.

(* ===================================================================== *)
(** ** The further properties on the sample inputs *)
(* ===================================================================== *)

(** The conjunction on the sample request: a rejecting filter hides a
    raising one behind it, and a raising filter is reached when it comes
    first. *)
Lemma all_apply_first_failure_witness :
  Cumplo.all_apply Filters.apply
    ([Samples.filter_of Filters.MinimumScoreFilter Samples.configuration_unset]
       ++ Samples.filter_of Filters.BorrowerDicomFilter Samples.configuration_unset
       :: [Samples.filter_of Filters.DebtorMinimumPaidInTimeFilter
             Samples.configuration_signals])
    Samples.request = Ok false
  /\ Cumplo.all_apply Filters.apply
       ([Samples.filter_of Filters.MinimumScoreFilter Samples.configuration_unset]
          ++ Samples.filter_of Filters.DebtorMinimumPaidInTimeFilter
               Samples.configuration_signals
          :: [Samples.filter_of Filters.BorrowerDicomFilter Samples.configuration_unset])
       Samples.request = Raise (AttributeError "debtor").
Proof.
  split.
  - apply (all_apply_first_failure Filters.apply
             [Samples.filter_of Filters.MinimumScoreFilter Samples.configuration_unset]).
    + intros f Hf. apply list_elem_of_singleton in Hf as ->. reflexivity.
    + reflexivity.
  - apply (all_apply_first_failure Filters.apply
             [Samples.filter_of Filters.MinimumScoreFilter Samples.configuration_unset]).
    + intros f Hf. apply list_elem_of_singleton in Hf as ->. reflexivity.
    + reflexivity.
Defined.

(** The batch of the sample request raises with the debtor paid-in-time
    filter configured. *)
Lemma filter_funding_requests_raises_iff_witness :
  (exists e,
      Cumplo._filter_funding_requests Filters.apply Samples.request_heap 2%positive
        [Samples.filter_of Filters.DebtorMinimumPaidInTimeFilter
           Samples.configuration_signals] = Some (Raise e))
  <-> exists r x,
        r ∈ [1%positive]
        /\ Cumplo.objects Samples.request_heap !! r = Some x
        /\ raises (Cumplo.all_apply Filters.apply
                     [Samples.filter_of Filters.DebtorMinimumPaidInTimeFilter
                        Samples.configuration_signals] x).
Proof.
  apply (filter_funding_requests_raises_iff Filters.apply _ Samples.request_heap
           2%positive [1%positive]).
  - reflexivity.
  - intros r Hr. apply list_elem_of_singleton in Hr as ->. vm_compute. eauto.
Defined.

(** The borrower DICOM filter rejects the only request of the sample batch. *)
Lemma rejecting_filter_empties_result_witness :
  exists new h',
    Cumplo._filter_funding_requests Filters.apply Samples.request_heap 2%positive
      [Samples.filter_of Filters.MinimumScoreFilter Samples.configuration_unset;
       Samples.filter_of Filters.BorrowerDicomFilter Samples.configuration_unset]
    = Some (Ok (new, h'))
    /\ Cumplo.lists h' !! new = Some [].
Proof.
  eexists _, _. split; [vm_compute; reflexivity |].
  apply (rejecting_filter_empties_result Filters.apply
           [Samples.filter_of Filters.MinimumScoreFilter Samples.configuration_unset;
            Samples.filter_of Filters.BorrowerDicomFilter Samples.configuration_unset]
           (Samples.filter_of Filters.BorrowerDicomFilter Samples.configuration_unset)
           Samples.request_heap _ 2%positive _ [1%positive]).
  - reflexivity.
  - right. left.
  - intros r x Hr Hx. apply list_elem_of_singleton in Hr as ->.
    vm_compute in Hx. injection Hx as <-. reflexivity.
  - vm_compute. reflexivity.
Defined.

(** Filtering the batch of three by two score filters, twice. *)
Lemma filter_funding_requests_idempotent_witness :
  exists new h' new' h'',
    Cumplo._filter_funding_requests Samples.minimum_score_apply Samples.heap 7%positive
      [8; 15] = Some (Ok (new, h'))
    /\ Cumplo._filter_funding_requests Samples.minimum_score_apply h' new [8; 15]
       = Some (Ok (new', h''))
    /\ Cumplo.lists h'' !! new' = Cumplo.lists h' !! new.
Proof.
  eexists _, _.
  assert (Hrun :
            Cumplo._filter_funding_requests Samples.minimum_score_apply Samples.heap
              7%positive [8; 15]
            = Some (Ok (8%positive,
                        {| Cumplo.objects := Cumplo.objects Samples.heap;
                           Cumplo.lists := <[8%positive := [2%positive]]>
                                             (Cumplo.lists Samples.heap) |})))
    by (vm_compute; reflexivity).
  destruct (filter_funding_requests_idempotent Samples.minimum_score_apply [8; 15]
              Samples.heap _ 7%positive _ [1; 2; 3]%positive eq_refl Hrun)
    as (new' & h'' & Hagain & Hsame).
  exists new', h''. split; [exact Hrun | split; [exact Hagain | exact Hsame]].
Defined.

(** Two score filters applied one after the other and together. *)
Lemma filter_list_composes_witness :
  Cumplo.filter_list (Cumplo.all_apply Samples.minimum_score_apply ([8] ++ [15]))
    [10; 20; 5] = Ok [20].
Proof.
  apply (filter_list_composes Samples.minimum_score_apply [8] [15] [10; 20; 5] [10; 20]);
    reflexivity.
Defined.

(** A raw funded percentage of 100. *)
Lemma is_completed_iff_raw_100_witness :
  exists funded_percentage,
    Model.funded_percentage_validator 100 = Ok funded_percentage
    /\ (Model.is_completed funded_percentage = true <-> 100 = 100).
Proof. apply (is_completed_iff_raw_100 100). reflexivity. Defined.

(** An empty payload, and a payload with a described borrower only. *)
Lemma preprocess_data_missing_keys_witness :
  Model._preprocess_data Samples.markers (fun text => text) (Model.RDict ∅)
  = Raise (KeyError "solicitante")
  /\ Model._preprocess_data Samples.markers (fun text => text)
       (Model.RDict {[ "solicitante"%string := Model.RDict Samples.raw_borrower ]})
     = Raise (KeyError "pagadores").
Proof.
  split.
  - apply (preprocess_data_missing_keys Samples.markers (fun text => text) ∅).
    reflexivity.
  - apply (preprocess_data_missing_keys Samples.markers (fun text => text)
             {[ "solicitante"%string := Model.RDict Samples.raw_borrower ]})
      with (solicitante := Samples.raw_borrower)
           (text := Samples.description_debtor_only); reflexivity.
Defined.

(** The sample payload, with a described borrower and two debtors. *)
Lemma preprocess_data_idempotent_witness :
  exists (d' solicitante' : gmap string Model.raw)
         (debtors' : list (gmap string Model.raw)),
    Model._preprocess_data Samples.markers (fun text => text)
      (Model.RDict Samples.raw_data) = Ok (Model.RDict d')
    /\ Model._preprocess_data Samples.markers (fun text => text) (Model.RDict d')
       = Ok (Model.RDict d')
    /\ d' !! "solicitante"%string = Some (Model.RDict solicitante')
    /\ d' !! "pagadores"%string = Some (Model.RList (Model.RDict <$> debtors'))
    /\ length debtors' = length Samples.raw_debtors
    /\ (forall k, k <> "solicitante"%string -> k <> "pagadores"%string ->
                  d' !! k = Samples.raw_data !! k)
    /\ (forall k, k <> "dicom"%string ->
                  solicitante' !! k = Samples.raw_borrower !! k).
Proof.
  apply (preprocess_data_idempotent Samples.markers (fun text => text)
           Samples.raw_data Samples.raw_borrower Samples.raw_debtors
           Samples.description_debtor_only); reflexivity.
Defined.

(** A description without any marker of the sample lexicon. *)
Lemma dicom_flags_range_witness :
  Model.dicom_of_description Samples.markers "operacion de factoring a 45 dias"
  = (None, None).
Proof.
  apply (dicom_flags_range Samples.markers "operacion de factoring a 45 dias");
    reflexivity.
Defined.

(** Lowering the minimum score from 5 to 3 keeps the sample request. *)
Lemma relaxing_keeps_accepted_witness :
  Filters.apply
    (Samples.filter_of Filters.MinimumScoreFilter
       (Samples.configuration_minimum_score (3 # 1)))
    Samples.request = Ok true.
Proof.
  apply (relaxing_keeps_accepted (Samples.configuration_minimum_score (3 # 1))
           (Samples.configuration_minimum_score (5 # 1)) Samples.request
           Filters.MinimumScoreFilter).
  - repeat split; try exact I; try (left; reflexivity); try done.
  - reflexivity.
Defined.

(** A borrower with zero percent paid in time and zero days delinquent
    under thresholds of 50 percent and 10 days. *)
Lemma zero_signals_never_block_witness :
  Filters.BorrowerMinimumPaidInTimeFilter_apply Samples.configuration_signals
    Samples.request_zero_signals = Ok true
  /\ Filters.BorrowerMaximumAverageDaysDelinquentFilter_apply
       Samples.configuration_signals Samples.request_zero_signals = Ok true.
Proof.
  destruct (zero_signals_never_block Samples.configuration_signals
              Samples.request_zero_signals) as (Hpaid & _ & Hdays).
  split; [apply (Hpaid (0 # 1)%Q); reflexivity | apply Hdays; reflexivity].
Defined.

(** The sample request, whose borrower is flagged and whose debtor is not. *)
Lemma dicom_filters_block_only_flagged_witness :
  (Filters.BorrowerDicomFilter_apply Samples.configuration_unset Samples.request
   = Ok true
   <-> Filters.Borrower.dicom (Filters.borrower Samples.request) <> Some true)
  /\ (Filters.DebtorDicomFilter_apply Samples.configuration_unset Samples.request
      = Ok true
      <-> forall debtor, debtor ∈ Filters.debtors Samples.request ->
                         Filters.Debtor.dicom debtor <> Some true)
  /\ (Filters.debtors Samples.request = [] ->
      Filters.DebtorDicomFilter_apply Samples.configuration_unset Samples.request
      = Ok true).
Proof.
  eapply (dicom_filters_block_only_flagged Samples.configuration_unset Samples.request);
    reflexivity.
Defined.

(** No target credit type, and durations of at least 60 and at most 30. *)
Lemma unsatisfiable_configurations_witness :
  Filters.CreditTypeFilter_apply Samples.configuration_unsatisfiable Samples.request
  = Ok false
  /\ Cumplo.all_apply Filters.apply
       [Samples.filter_of Filters.MinimumDurationFilter
          Samples.configuration_unsatisfiable;
        Samples.filter_of Filters.MaximumDurationFilter
          Samples.configuration_unsatisfiable]
       Samples.request <> Ok true.
Proof.
  destruct (unsatisfiable_configurations Samples.configuration_unsatisfiable
              Samples.request) as [Htargets Hdurations].
  split; [apply Htargets; reflexivity |].
  apply (Hdurations 60 30); [reflexivity | reflexivity | reflexivity | left |].
  right. left.
Defined.

(** The sample history text: the value starts with 8 and ends with 5. *)
Lemma extract_history_data_shape_witness :
  (History.COLON ∉ History._extract_history_data Samples.history_text)
  /\ (10%N ∉ History._extract_history_data Samples.history_text)
  /\ History.isspace 56 = false
  /\ History.isspace 53 = false.
Proof.
  destruct (extract_history_data_shape Samples.history_text)
    as (Hcolon & Hnewline & Hhead & Hlast).
  split; [exact Hcolon | split; [exact Hnewline | split]].
  - apply Hhead. reflexivity.
  - apply Hlast. reflexivity.
Defined.

(** The sample label and value. *)
Lemma extract_history_data_labelled_witness :
  History._extract_history_data
    (Samples.history_label ++ History.COLON :: Samples.history_value)
  = History.strip Samples.history_value
  /\ History._extract_history_data
       (Samples.history_label ++ History.COLON :: Samples.history_value
          ++ History.PERCENT_MARK)
     = History.strip Samples.history_value.
Proof.
  apply (extract_history_data_labelled Samples.history_label Samples.history_value);
    apply (bool_decide_unpack _); vm_compute; exact I.
Defined.

(** The pipeline batch, with a minimum rate of 100 before the enrichment
    and a minimum credit history of 25 after it. *)
Lemma get_funding_requests_sorted_selection_witness :
  exists final h' out,
    Pipeline.get_funding_requests Samples.pipeline_apply Samples.credit_history_of
      Samples.pipeline_rate Samples.pipeline_heap 9%positive [inl 100] [inr 25]
    = Some (Ok (final, h'))
    /\ Cumplo.lists h' !! final = Some out
    /\ (forall r, r ∈ out
                  <-> r ∈ [1; 2; 3; 4]%positive
                      /\ exists x credit_history,
                           Cumplo.objects Samples.pipeline_heap !! r = Some x
                           /\ Cumplo.all_apply Samples.pipeline_apply [inl 100] x
                              = Ok true
                           /\ Samples.credit_history_of (Cumplo.id x)
                              = Ok credit_history
                           /\ Cumplo.all_apply Samples.pipeline_apply [inr 25]
                                (Cumplo.set_history x credit_history)
                              = Ok true)
    /\ (forall (i j : nat) r1 r2 x1 x2,
          (i < j)%nat -> out !! i = Some r1 -> out !! j = Some r2 ->
          Cumplo.objects h' !! r1 = Some x1 -> Cumplo.objects h' !! r2 = Some x2 ->
          (Samples.pipeline_rate x2 <= Samples.pipeline_rate x1)%Q).
Proof.
  destruct (Pipeline.get_funding_requests Samples.pipeline_apply
              Samples.credit_history_of Samples.pipeline_rate Samples.pipeline_heap
              9%positive [inl 100] [inr 25])
    as [[[final h'] | e] |] eqn:Hrun; [| by vm_compute in Hrun | by vm_compute in Hrun].
  destruct (get_funding_requests_sorted_selection Samples.pipeline_apply
              Samples.credit_history_of Samples.pipeline_rate Samples.pipeline_heap h'
              9%positive final [1; 2; 3; 4]%positive [inl 100] [inr 25] eq_refl Hrun)
    as (out & Hout & Hselection & Horder).
  exists final, h', out. split; [reflexivity | split; [exact Hout | split]].
  - exact Hselection.
  - exact Horder.
Defined.

(** The same run: what it leaves in the store. *)
Lemma get_funding_requests_effects_witness :
  exists final h',
    Pipeline.get_funding_requests Samples.pipeline_apply Samples.credit_history_of
      Samples.pipeline_rate Samples.pipeline_heap 9%positive [inl 100] [inr 25]
    = Some (Ok (final, h'))
    /\ Cumplo.lists h' !! 9%positive = Some [1; 2; 3; 4]%positive
    /\ final <> 9%positive
    /\ Cumplo.objects h' !! 1%positive
       = Some (Cumplo.set_history (Samples.pipeline_request 11 150) 22)
    /\ Cumplo.objects h' !! 2%positive = Some (Samples.pipeline_request 12 90).
Proof.
  destruct (Pipeline.get_funding_requests Samples.pipeline_apply
              Samples.credit_history_of Samples.pipeline_rate Samples.pipeline_heap
              9%positive [inl 100] [inr 25])
    as [[[final h'] | e] |] eqn:Hrun; [| by vm_compute in Hrun | by vm_compute in Hrun].
  destruct (get_funding_requests_effects Samples.pipeline_apply
              Samples.credit_history_of Samples.pipeline_rate Samples.pipeline_heap h'
              9%positive final [1; 2; 3; 4]%positive [inl 100] [inr 25] eq_refl Hrun)
    as (Havailable & Hfinal & _ & Hobjects).
  exists final, h'. split; [reflexivity | split; [exact Havailable | split]];
    [exact Hfinal |]. split.
  - destruct (proj1 (Hobjects 1%positive (Samples.pipeline_request 11 150) eq_refl))
      as (credit_history & Hfetch & Hstored); [left | reflexivity |].
    vm_compute in Hfetch. injection Hfetch as <-. exact Hstored.
  - apply (Hobjects 2%positive (Samples.pipeline_request 12 90) eq_refl).
    right. discriminate.
Defined.

(** Two users, of which one has a webhook URL. *)
Lemma fetch_schedules_webhook_users_witness :
  Handlers.fetch_funding_requests "https://spotter" "spotter-queue"
    [Samples.user_without_webhook] [1; 2; 3] = []
  /\ NoDup (Handlers.task_id
              <$> Handlers.fetch_funding_requests "https://spotter" "spotter-queue"
                    [Samples.user_with_webhook; Samples.user_without_webhook]
                    [1; 2; 3]).
Proof.
  split.
  - apply (fetch_schedules_webhook_users "https://spotter" "spotter-queue"
             [Samples.user_without_webhook] [1; 2; 3]).
    intros user Huser. apply list_elem_of_singleton in Huser as ->. reflexivity.
  - apply (fetch_schedules_webhook_users "https://spotter" "spotter-queue"
             [Samples.user_with_webhook; Samples.user_without_webhook] [1; 2; 3]).
    apply (bool_decide_unpack _). vm_compute. exact I.
Defined.

(** The user with a webhook URL and configurations A and B on a payload of
    four requests, identified by themselves and serialized as ten times
    their id. *)
Lemma filter_handler_outcomes_witness :
  exists task,
    Handlers.filter_funding_requests "https://herald" "herald-queue"
      Samples.accept_ids (fun x : Z => x) (fun x : Z => 10 * x)
      Samples.user_with_webhook [1; 2; 3; 4] = Handlers.Completed (Some task)
    /\ (forall k, is_Some (Handlers.payload task !! k)
                  <-> exists x, x ∈ ({[ 1; 2; 3 ]} : gset Z) /\ x = k)
    /\ (forall k v, Handlers.payload task !! k = Some v ->
                    exists x, x ∈ ({[ 1; 2; 3 ]} : gset Z) /\ x = k /\ 10 * x = v)
    /\ ((forall x y, x ∈ ({[ 1; 2; 3 ]} : gset Z) -> y ∈ ({[ 1; 2; 3 ]} : gset Z) ->
                     x = y -> x = y) ->
        forall x, x ∈ ({[ 1; 2; 3 ]} : gset Z) ->
                  Handlers.payload task !! x = Some (10 * x)).
Proof.
  destruct (filter_handler_outcomes "https://herald" "herald-queue"
              Samples.accept_ids (fun x : Z => x) (fun x : Z => 10 * x)
              Samples.user_with_webhook [1; 2; 3; 4] ({[ 1; 2; 3 ]} : gset Z))
    as (_ & _ & Htask).
  - vm_compute. reflexivity.
  - apply Htask; [| reflexivity].
    intros Hempty. assert (Hin : 1 ∈ ({[ 1; 2; 3 ]} : gset Z)) by set_solver.
    rewrite Hempty in Hin. set_solver.
Defined.

(** A key of sixteen characters. *)
Lemma secure_api_key_shows_last_ten_witness :
  Firestore.secure_api_key (Samples.api_key_hidden ++ Samples.api_key_shown)
  = [46; 46; 46]%N ++ Samples.api_key_shown.
Proof.
  apply (secure_api_key_shows_last_ten (Samples.api_key_hidden ++ Samples.api_key_shown))
    with (hidden := Samples.api_key_hidden); reflexivity.
Defined.
